(** * Job description extractor: dashboard state and results export

    A shallow embedding of [src/components/Dashboard.tsx] (upload, delete,
    analyse, download) and of the results page (placeholder table, CSV and
    JSON export), with the properties of the specification stated over it.

    Conventions.
    - A JavaScript string is represented by the UTF-8 bytes of its text, as a
      [string].  Concatenation, joining and template literals act on the
      bytes exactly as they act on the text, and the bytes are what a [Blob]
      holds.  Strings with unpaired surrogates have no UTF-8 form and are
      outside the model.
    - External services (storage, extraction, inference, the clock) are
      oracles gathered in a [World]; a rejected promise is [None].
    - React state is passed explicitly; notifications, storage calls and
      downloads are recorded in an event log.  Output to the console is not
      recorded.
    - The outer [catch] of [analyzeJobDescriptions] has no counterpart: each
      element of [analysisPromises] catches its own exceptions, so
      [Promise.all] cannot reject. *)

From Stdlib Require Import String Ascii List ZArith NArith Lia Bool DecimalString DecimalZ.
Import ListNotations.
Open Scope string_scope.

Set Warnings "-register-all".

(* ================================================================= *)
(** ** Characters and small string helpers *)

Definition dquote : ascii := "034"%char.
Definition backslash : ascii := "092"%char.
Definition newline : ascii := "010"%char.

Definition str1 (c : ascii) : string := String c EmptyString.
Definition nl : string := str1 newline.

(** [Array.prototype.join] on an array of strings. *)
Definition join (sep : string) (l : list string) : string := String.concat sep l.

(** [s.split('T')[0]]: the part of [s] before the first letter T. *)
Fixpoint before_T (s : string) : string :=
  match s with
  | EmptyString => EmptyString
  | String c s' => if Ascii.eqb c "T"%char then EmptyString else String c (before_T s')
  end.

(** [Number.prototype.toString] on an integer (time values, counts). *)
Definition Z_toString (z : Z) : string := NilZero.string_of_int (Z.to_int z).
Definition nat_toString (n : nat) : string := NilZero.string_of_uint (Nat.to_uint n).

(** *** Dates

    A time value is a number of milliseconds since the epoch, in UTC. *)

Fixpoint zeros (n : nat) : string :=
  match n with
  | O => EmptyString
  | S n' => String "0"%char (zeros n')
  end.

(** [String (z).padStart (width, '0')] for [z] at least zero. *)
Definition padded (width : nat) (z : Z) : string :=
  let s := Z_toString z in zeros (width - String.length s) ++ s.

(** Year, month and day of the day that is [days] days after 1970-01-01
    (proleptic Gregorian calendar). *)
Definition civil_from_days (days : Z) : Z * Z * Z :=
  let z := (days + 719468)%Z in
  let era := (z / 146097)%Z in
  let doe := (z - era * 146097)%Z in
  let yoe := ((doe - doe / 1460 + doe / 36524 - doe / 146096) / 365)%Z in
  let doy := (doe - (365 * yoe + yoe / 4 - yoe / 100))%Z in
  let mp := ((5 * doy + 2) / 153)%Z in
  let d := (doy - (153 * mp + 2) / 5 + 1)%Z in
  let m := (if mp <? 10 then mp + 3 else mp - 9)%Z in
  let y := (yoe + era * 400 + (if m <=? 2 then 1 else 0))%Z in
  (y, m, d).

(** [Date.prototype.toISOString] of the time value [t]. *)
Definition toISOString (t : Z) : string :=
  let '(y, m, d) := civil_from_days (t / 86400000) in
  let ms := (t mod 86400000)%Z in
  let year :=
    if ((0 <=? y) && (y <=? 9999))%Z then padded 4 y
    else (if (y <? 0)%Z then "-" else "+") ++ padded 6 (Z.abs y) in
  year ++ "-" ++ padded 2 m ++ "-" ++ padded 2 d
       ++ "T" ++ padded 2 (ms / 3600000) ++ ":" ++ padded 2 ((ms / 60000) mod 60)
       ++ ":" ++ padded 2 ((ms / 1000) mod 60) ++ "." ++ padded 3 (ms mod 1000) ++ "Z".

(** [Date.prototype.toLocaleDateString] depends on the host's locale and
    time zone and is a field of [World]; this is the en-US form in UTC. *)
Definition enUS_UTC_date (t : Z) : string :=
  let '(y, m, d) := civil_from_days (t / 86400000) in
  Z_toString m ++ "/" ++ Z_toString d ++ "/" ++ Z_toString y.

(* ================================================================= *)
(** ** JSON values, [JSON.stringify (v, null, 2)] and [JSON.parse]

    Numbers are kept as their lexeme: the conversion to and from IEEE
    doubles is not modelled.  Object members keep insertion order (the
    special ordering of array-index keys is not modelled). *)

Inductive JSON : Type :=
| JNull
| JBool (b : bool)
| JNumber (lexeme : string)
| JString (s : string)
| JArray (items : list JSON)
| JObject (members : list (string * JSON)).

Definition hex_digit (n : N) : ascii :=
  ascii_of_N (if (n <? 10)%N then 48 + n else 87 + n)%N.

(** One character of QuoteJSONString. *)
Definition quote_char (c : ascii) : string :=
  let n := N_of_ascii c in
  if (n =? 8)%N then "\b"
  else if (n =? 9)%N then "\t"
  else if (n =? 10)%N then "\n"
  else if (n =? 12)%N then "\f"
  else if (n =? 13)%N then "\r"
  else if (n =? 34)%N then String backslash (str1 dquote)
  else if (n =? 92)%N then String backslash (str1 backslash)
  else if (n <? 32)%N then "\u00" ++ str1 (hex_digit (n / 16)) ++ str1 (hex_digit (n mod 16))
  else str1 c.

Fixpoint quote_body (s : string) : string :=
  match s with
  | EmptyString => EmptyString
  | String c s' => quote_char c ++ quote_body s'
  end.

Definition QuoteJSONString (s : string) : string :=
  String dquote (quote_body s ++ str1 dquote).

Definition gap : string := "  ".

(** SerializeJSONProperty with a two-space gap; [indent] is the current
    indentation. *)
Fixpoint stringify (indent : string) (v : JSON) : string :=
  match v with
  | JNull => "null"
  | JBool true => "true"
  | JBool false => "false"
  | JNumber n => n
  | JString s => QuoteJSONString s
  | JArray items =>
      match items with
      | [] => "[]"
      | _ :: _ =>
          let stepback := indent in
          let indent := indent ++ gap in
          "[" ++ nl ++ indent
              ++ join ("," ++ nl ++ indent) (map (stringify indent) items)
              ++ nl ++ stepback ++ "]"
      end
  | JObject members =>
      match members with
      | [] => "{}"
      | _ :: _ =>
          let stepback := indent in
          let indent := indent ++ gap in
          "{" ++ nl ++ indent
              ++ join ("," ++ nl ++ indent)
                   (map (fun kv => QuoteJSONString (fst kv) ++ ": " ++ stringify indent (snd kv))
                        members)
              ++ nl ++ stepback ++ "}"
      end
  end.

(** [JSON.stringify (v, null, 2)] *)
Definition JSON_stringify (v : JSON) : string := stringify EmptyString v.

(** *** Lexer *)

Inductive token : Type :=
| TLBrace | TRBrace | TLBracket | TRBracket | TColon | TComma
| TString (s : string)
| TNumber (lexeme : string)
| TTrue | TFalse | TNull.

(** Where the lexer stands inside a number: an optional minus sign, then a
    single zero or a digit string that does not start with zero, then an
    optional fraction, then an optional exponent. *)
Inductive numst : Type :=
| NMinus | NZero | NInt | NDot | NFrac | NExp | NExpSign | NExpInt.

Inductive lexmode : Type :=
| LStart                                     (* between tokens *)
| LStr (acc : list ascii)                    (* in a string; [acc] reversed *)
| LEsc (acc : list ascii)                    (* after a backslash *)
| LUni (acc : list ascii) (k : nat) (n : N)  (* in \u, [S k] digits to read *)
| LNum (st : numst) (acc : list ascii)       (* in a number; [acc] reversed *)
| LWord (rest : string) (t : token).         (* in true, false or null *)

Definition is_ws (c : ascii) : bool :=
  let n := N_of_ascii c in ((n =? 32) || (n =? 9) || (n =? 10) || (n =? 13))%N.

Definition is_digit (c : ascii) : bool :=
  let n := N_of_ascii c in ((48 <=? n) && (n <=? 57))%N.

Definition hex_value (c : ascii) : option N :=
  let n := N_of_ascii c in
  if ((48 <=? n) && (n <=? 57))%N then Some (n - 48)%N
  else if ((97 <=? n) && (n <=? 102))%N then Some (n - 87)%N
  else if ((65 <=? n) && (n <=? 70))%N then Some (n - 55)%N
  else None.

(** UTF-8 bytes of a code point (unpaired surrogates in the generalised
    three-byte form). *)
Definition utf8 (n : N) : list ascii :=
  if (n <? 128)%N then [ascii_of_N n]
  else if (n <? 2048)%N then
    [ascii_of_N (192 + n / 64); ascii_of_N (128 + n mod 64)]%N
  else if (n <? 65536)%N then
    [ascii_of_N (224 + n / 4096); ascii_of_N (128 + (n / 64) mod 64);
     ascii_of_N (128 + n mod 64)]%N
  else
    [ascii_of_N (240 + n / 262144); ascii_of_N (128 + (n / 4096) mod 64);
     ascii_of_N (128 + (n / 64) mod 64); ascii_of_N (128 + n mod 64)]%N.

(** Appends the UTF-16 code unit [n] of a \u escape to the reversed bytes
    [acc]; a low surrogate that follows a high one completes the pair. *)
Definition push_code_unit (acc : list ascii) (n : N) : list ascii :=
  let alone := (rev (utf8 n) ++ acc)%list in
  if ((56320 <=? n) && (n <=? 57343))%N then
    match acc with
    | b3 :: b2 :: b1 :: acc' =>
        let n1 := N_of_ascii b1 in
        let n2 := N_of_ascii b2 in
        let n3 := N_of_ascii b3 in
        if ((n1 =? 237) && (160 <=? n2) && (n2 <=? 175) && (128 <=? n3) && (n3 <=? 191))%N
        then
          let hi := (55296 + (n2 - 160) * 64 + (n3 - 128))%N in
          (rev (utf8 (65536 + (hi - 55296) * 1024 + (n - 56320))%N) ++ acc')%list
        else alone
    | _ => alone
    end
  else alone.

Definition num_next (st : numst) (c : ascii) : option numst :=
  let n := N_of_ascii c in
  let dot := (n =? 46)%N in
  let e := ((n =? 101) || (n =? 69))%N in
  let sign := ((n =? 43) || (n =? 45))%N in
  match st with
  | NMinus => if (n =? 48)%N then Some NZero else if is_digit c then Some NInt else None
  | NZero => if dot then Some NDot else if e then Some NExp else None
  | NInt => if is_digit c then Some NInt
            else if dot then Some NDot else if e then Some NExp else None
  | NDot => if is_digit c then Some NFrac else None
  | NFrac => if is_digit c then Some NFrac else if e then Some NExp else None
  | NExp => if is_digit c then Some NExpInt else if sign then Some NExpSign else None
  | NExpSign => if is_digit c then Some NExpInt else None
  | NExpInt => if is_digit c then Some NExpInt else None
  end.

Definition num_final (st : numst) : bool :=
  match st with
  | NZero | NInt | NFrac | NExpInt => true
  | _ => false
  end.

Definition string_of_rev (acc : list ascii) : string := string_of_list_ascii (rev acc).

(** A character met between two tokens. *)
Definition lex_start (c : ascii) : option (list token * lexmode) :=
  let n := N_of_ascii c in
  if is_ws c then Some ([], LStart)
  else if (n =? 123)%N then Some ([TLBrace], LStart)
  else if (n =? 125)%N then Some ([TRBrace], LStart)
  else if (n =? 91)%N then Some ([TLBracket], LStart)
  else if (n =? 93)%N then Some ([TRBracket], LStart)
  else if (n =? 58)%N then Some ([TColon], LStart)
  else if (n =? 44)%N then Some ([TComma], LStart)
  else if (n =? 34)%N then Some ([], LStr [])
  else if (n =? 45)%N then Some ([], LNum NMinus [c])
  else if (n =? 48)%N then Some ([], LNum NZero [c])
  else if is_digit c then Some ([], LNum NInt [c])
  else if (n =? 116)%N then Some ([], LWord "rue" TTrue)
  else if (n =? 102)%N then Some ([], LWord "alse" TFalse)
  else if (n =? 110)%N then Some ([], LWord "ull" TNull)
  else None.

Definition lex_step (m : lexmode) (c : ascii) : option (list token * lexmode) :=
  let n := N_of_ascii c in
  match m with
  | LStart => lex_start c
  | LStr acc =>
      if (n =? 34)%N then Some ([TString (string_of_rev acc)], LStart)
      else if (n =? 92)%N then Some ([], LEsc acc)
      else if (n <? 32)%N then None
      else Some ([], LStr (c :: acc))
  | LEsc acc =>
      if (n =? 34)%N then Some ([], LStr (dquote :: acc))
      else if (n =? 92)%N then Some ([], LStr (backslash :: acc))
      else if (n =? 47)%N then Some ([], LStr ("/"%char :: acc))
      else if (n =? 98)%N then Some ([], LStr ("008"%char :: acc))
      else if (n =? 102)%N then Some ([], LStr ("012"%char :: acc))
      else if (n =? 110)%N then Some ([], LStr ("010"%char :: acc))
      else if (n =? 114)%N then Some ([], LStr ("013"%char :: acc))
      else if (n =? 116)%N then Some ([], LStr ("009"%char :: acc))
      else if (n =? 117)%N then Some ([], LUni acc 3 0%N)
      else None
  | LUni acc k v =>
      match hex_value c with
      | None => None
      | Some d =>
          let v' := (v * 16 + d)%N in
          match k with
          | O => Some ([], LStr (push_code_unit acc v'))
          | S k' => Some ([], LUni acc k' v')
          end
      end
  | LNum st acc =>
      match num_next st c with
      | Some st' => Some ([], LNum st' (c :: acc))
      | None =>
          if num_final st then
            match lex_start c with
            | Some (ts, m') => Some (TNumber (string_of_rev acc) :: ts, m')
            | None => None
            end
          else None
      end
  | LWord rest t =>
      match rest with
      | EmptyString => None
      | String c' rest' =>
          if Ascii.eqb c c' then
            match rest' with
            | EmptyString => Some ([t], LStart)
            | String _ _ => Some ([], LWord rest' t)
            end
          else None
      end
  end.

(** What the end of the text means in each mode. *)
Definition lex_end (m : lexmode) : option (list token) :=
  match m with
  | LStart => Some []
  | LNum st acc => if num_final st then Some [TNumber (string_of_rev acc)] else None
  | _ => None
  end.

Fixpoint lex (m : lexmode) (s : string) : option (list token) :=
  match s with
  | EmptyString => lex_end m
  | String c s' =>
      match lex_step m c with
      | None => None
      | Some (ts, m') => option_map (app ts) (lex m' s')
      end
  end.

(** *** Parser: a stack machine over the tokens *)

(** Assignment of a property: an existing key keeps its place. *)
Fixpoint set_member (k : string) (v : JSON) (ms : list (string * JSON))
  : list (string * JSON) :=
  match ms with
  | [] => [(k, v)]
  | (k', v') :: ms' =>
      if String.eqb k k' then (k, v) :: ms' else (k', v') :: set_member k v ms'
  end.

Inductive frame : Type :=
| FArray (done : list JSON)                             (* reversed *)
| FObject (done : list (string * JSON)) (key : option string).

Inductive expect : Type :=
| XValue        (* a value starts here *)
| XFirst        (* just after an opening bracket or brace *)
| XKey          (* after a comma inside an object *)
| XColon        (* after a key *)
| XNext         (* after an element or a member *)
| XEnd (v : JSON).

Definition pstate : Type := (list frame * expect)%type.

Definition close_value (stk : list frame) (v : JSON) : option pstate :=
  match stk with
  | [] => Some ([], XEnd v)
  | FArray done :: stk' => Some (FArray (v :: done) :: stk', XNext)
  | FObject done (Some k) :: stk' => Some (FObject (set_member k v done) None :: stk', XNext)
  | FObject _ None :: _ => None
  end.

Definition open_value (stk : list frame) (t : token) : option pstate :=
  match t with
  | TString s => close_value stk (JString s)
  | TNumber n => close_value stk (JNumber n)
  | TTrue => close_value stk (JBool true)
  | TFalse => close_value stk (JBool false)
  | TNull => close_value stk JNull
  | TLBracket => Some (FArray [] :: stk, XFirst)
  | TLBrace => Some (FObject [] None :: stk, XFirst)
  | _ => None
  end.

Definition parse_step (st : pstate) (t : token) : option pstate :=
  let '(stk, x) := st in
  match x with
  | XValue => open_value stk t
  | XFirst =>
      match stk with
      | FArray _ :: stk' =>
          match t with
          | TRBracket => close_value stk' (JArray [])
          | _ => open_value stk t
          end
      | FObject done _ :: stk' =>
          match t with
          | TRBrace => close_value stk' (JObject [])
          | TString k => Some (FObject done (Some k) :: stk', XColon)
          | _ => None
          end
      | [] => None
      end
  | XKey =>
      match stk, t with
      | FObject done _ :: stk', TString k => Some (FObject done (Some k) :: stk', XColon)
      | _, _ => None
      end
  | XColon =>
      match t with
      | TColon => Some (stk, XValue)
      | _ => None
      end
  | XNext =>
      match stk with
      | FArray done :: stk' =>
          match t with
          | TComma => Some (stk, XValue)
          | TRBracket => close_value stk' (JArray (rev done))
          | _ => None
          end
      | FObject done _ :: stk' =>
          match t with
          | TComma => Some (stk, XKey)
          | TRBrace => close_value stk' (JObject done)
          | _ => None
          end
      | [] => None
      end
  | XEnd _ => None
  end.

Fixpoint parse_run (st : pstate) (ts : list token) : option pstate :=
  match ts with
  | [] => Some st
  | t :: ts' =>
      match parse_step st t with
      | None => None
      | Some st' => parse_run st' ts'
      end
  end.

Definition parse_tokens (ts : list token) : option JSON :=
  match parse_run ([], XValue) ts with
  | Some ([], XEnd v) => Some v
  | _ => None
  end.

(** [JSON.parse (text)]; [None] when it throws a SyntaxError. *)
Definition JSON_parse (text : string) : option JSON :=
  match lex LStart text with
  | None => None
  | Some ts => parse_tokens ts
  end.

(* ================================================================= *)
(** ** Dashboard.tsx: data *)

Inductive Status : Type := uploaded | processing | analyzed | error.

Definition Status_eqb (a b : Status) : bool :=
  match a, b with
  | uploaded, uploaded | processing, processing | analyzed, analyzed | error, error => true
  | _, _ => false
  end.

Record JobDescription : Type := mkJobDescription {
  id : string;
  filename : string;
  fileUrl : string;
  fileType : string;
  fileSize : N;
  status : Status;
  uploadedAt : string;
  analyzedAt : option string;
  extractedContent : option string;
  analysisResults : option JSON
}.

(** The object spread [{...jd, status: s}]. *)
Definition with_status (jd : JobDescription) (s : Status) : JobDescription :=
  {| id := id jd; filename := filename jd; fileUrl := fileUrl jd;
     fileType := fileType jd; fileSize := fileSize jd;
     status := s;
     uploadedAt := uploadedAt jd; analyzedAt := analyzedAt jd;
     extractedContent := extractedContent jd;
     analysisResults := analysisResults jd |}.

(** A browser [File], as far as the dashboard reads it. *)
Record File : Type := mkFile {
  name : string;
  type : string;
  size : N
}.

Inductive View : Type := dashboard | results.

Inductive Variant : Type := destructive.

Record Toast : Type := mkToast {
  title : string;
  description : string;
  variant : option Variant
}.

(** A file handed to the browser for download. *)
Record Artifact : Type := mkArtifact {
  download : string;      (* the link's download attribute *)
  mime : string;          (* the Blob's type *)
  content : string        (* the Blob's bytes *)
}.

Inductive Event : Type :=
| EToast (t : Toast)
| EUpload (file : File) (path : string)   (* blink.storage.upload (file, path, {upsert: true}) *)
| EDownload (a : Artifact).

(** The component's React state. *)
Record State : Type := mkState {
  jobDescriptions : list JobDescription;
  uploading : bool;
  analyzing : bool;
  currentView : View
}.

Definition initial : State :=
  {| jobDescriptions := []; uploading := false; analyzing := false;
     currentView := dashboard |}.

(** The environment of one operation.  [clock n] is the n-th reading of the
    clock during the operation; [upload_result n] answers the storage call
    made as the n-th external call; the fields indexed by a task answer the
    calls of that task of an analysis run ([None]: the promise rejects). *)
Record World : Type := mkWorld {
  clock : nat -> Z;
  upload_result : nat -> File -> string -> option string;
  extract_result : nat -> string -> option string;
  generate_result : nat -> string -> string -> option string;
  task_clock : nat -> Z;
  toLocaleDateString : Z -> string;
  link_download_defined : bool
}.

(* ================================================================= *)
(** ** A state monad for the event handlers *)

Record Sys : Type := mkSys {
  state : State;
  calls : nat;             (* external calls made so far in this operation *)
  events : list Event      (* oldest first *)
}.

Definition M (A : Type) : Type := Sys -> A * Sys.

Definition ret {A} (a : A) : M A := fun s => (a, s).

Definition bind {A B} (m : M A) (k : A -> M B) : M B :=
  fun s => let '(a, s') := m s in k a s'.

Notation "x <- m ;; k" := (bind m (fun x => k))
  (at level 61, m at next level, right associativity).
Notation "m ;; k" := (bind m (fun _ => k))
  (at level 61, right associativity).

Definition emit (e : Event) : M unit :=
  fun s => (tt, {| state := state s; calls := calls s; events := (events s ++ [e])%list |}).

Definition toast (t : Toast) : M unit := emit (EToast t).

Definition modify (f : State -> State) : M unit :=
  fun s => (tt, {| state := f (state s); calls := calls s; events := events s |}).

Definition getJobDescriptions : M (list JobDescription) :=
  fun s => (jobDescriptions (state s), s).

Definition update_jobDescriptions (f : list JobDescription -> list JobDescription)
  (st : State) : State :=
  {| jobDescriptions := f (jobDescriptions st); uploading := uploading st;
     analyzing := analyzing st; currentView := currentView st |}.

Definition setJobDescriptions (f : list JobDescription -> list JobDescription) : M unit :=
  modify (update_jobDescriptions f).

Definition setUploading (b : bool) : M unit :=
  modify (fun st => {| jobDescriptions := jobDescriptions st; uploading := b;
                       analyzing := analyzing st; currentView := currentView st |}).

Definition setAnalyzing (b : bool) : M unit :=
  modify (fun st => {| jobDescriptions := jobDescriptions st; uploading := uploading st;
                       analyzing := b; currentView := currentView st |}).

Definition setCurrentView (v : View) : M unit :=
  modify (fun st => {| jobDescriptions := jobDescriptions st; uploading := uploading st;
                       analyzing := analyzing st; currentView := v |}).

Definition tick : M nat :=
  fun s => (calls s, {| state := state s; calls := S (calls s); events := events s |}).

(** [Date.now ()] *)
Definition Date_now (w : World) : M Z :=
  n <- tick ;; ret (clock w n).

(** [await blink.storage.upload (file, path, {upsert: true})] *)
Definition storage_upload (w : World) (file : File) (path : string) : M (option string) :=
  n <- tick ;; emit (EUpload file path) ;; ret (upload_result w n file path).

(** [for (const x of l) body] *)
Fixpoint forEach {A} (l : list A) (body : A -> M unit) : M unit :=
  match l with
  | [] => ret tt
  | x :: l' => body x ;; forEach l' body
  end.

(** Runs a handler on a state, with a fresh call counter and log. *)
Definition exec (m : M unit) (st : State) : State * list Event :=
  let s := snd (m {| state := st; calls := 0; events := [] |}) in
  (state s, events s).

(* ================================================================= *)
(** ** Dashboard.tsx: handleFiles and deleteJobDescription *)

Definition isAccepted (file : File) : bool :=
  (type file =? "application/pdf")
  || (type file =? "application/msword")
  || (type file =? "application/vnd.openxmlformats-officedocument.wordprocessingml.document").

Definition invalidFormat : Toast :=
  {| title := "Invalid file format";
     description := "Please upload only PDF or DOC files";
     variant := Some destructive |}.

Definition uploadedToast (file : File) : Toast :=
  {| title := "File uploaded successfully";
     description := name file ++ " has been uploaded";
     variant := None |}.

Definition uploadFailed (file : File) : Toast :=
  {| title := "Upload failed";
     description := "Failed to upload " ++ name file;
     variant := Some destructive |}.

Definition newJobDescription (file : File) (publicUrl : string) (t_id t_at : Z)
  : JobDescription :=
  {| id := Z_toString t_id;
     filename := name file;
     fileUrl := publicUrl;
     fileType := type file;
     fileSize := size file;
     status := uploaded;
     uploadedAt := toISOString t_at;
     analyzedAt := None;
     extractedContent := None;
     analysisResults := None |}.

(** The body of the loop of [handleFiles]. *)
Definition uploadFile (w : World) (file : File) : M unit :=
  t <- Date_now w ;;
  r <- storage_upload w file ("job-descriptions/" ++ Z_toString t ++ "-" ++ name file) ;;
  match r with
  | Some publicUrl =>
      t_id <- Date_now w ;;
      t_at <- Date_now w ;;
      setJobDescriptions
        (fun prev => (prev ++ [newJobDescription file publicUrl t_id t_at])%list) ;;
      toast (uploadedToast file)
  | None => toast (uploadFailed file)
  end.

Definition handleFiles (w : World) (files : list File) : M unit :=
  let validFiles := filter isAccepted files in
  if (length validFiles =? 0)%nat then toast invalidFormat
  else
    setUploading true ;;
    forEach validFiles (uploadFile w) ;;
    setUploading false.

Definition fileDeleted : Toast :=
  {| title := "File deleted";
     description := "File has been removed from the list";
     variant := None |}.

Definition deleteJobDescription (i : string) : M unit :=
  setJobDescriptions (filter (fun jd => negb (id jd =? i))) ;;
  toast fileDeleted.

(* ================================================================= *)
(** ** Dashboard.tsx: analyzeJobDescriptions *)

Definition prompt (extracted : string) : string :=
  "Analyze this job description and extract key information in JSON format. Include:
            - Job title
            - Company name
            - Location
            - Employment type (full-time, part-time, contract, etc.)
            - Required skills and qualifications
            - Responsibilities
            - Salary range (if mentioned)
            - Benefits (if mentioned)
            - Experience level required
            - Education requirements
            
            Job description content:
            " ++ extracted ++ "
            
            Return only valid JSON format.".

(** One element of [analysisPromises]: the task of record [jd], the [i]-th of
    the run.  Every exception is caught inside, so the promise always
    fulfils, with this record. *)
Definition analyzeOne (w : World) (i : nat) (jd : JobDescription) : JobDescription :=
  match extract_result w i (fileUrl jd) with
  | None => with_status jd error
  | Some extracted =>
      match generate_result w i (prompt extracted) "gpt-4o-mini" with
      | None => with_status jd error
      | Some text =>
          match JSON_parse text with
          | None => with_status jd error
          | Some parsed =>
              {| id := id jd; filename := filename jd; fileUrl := fileUrl jd;
                 fileType := fileType jd; fileSize := fileSize jd;
                 status := analyzed;
                 uploadedAt := uploadedAt jd;
                 analyzedAt := Some (toISOString (task_clock w i));
                 extractedContent := Some extracted;
                 analysisResults := Some parsed |}
          end
      end
  end.

(** [l.map ((x, i) => f i x)], counting from [i]. *)
Fixpoint mapi_from {A B} (i : nat) (f : nat -> A -> B) (l : list A) : list B :=
  match l with
  | [] => []
  | x :: l' => f i x :: mapi_from (S i) f l'
  end.

Definition mapi {A B} (f : nat -> A -> B) (l : list A) : list B := mapi_from 0 f l.

Definition isAnalyzed (jd : JobDescription) : bool := Status_eqb (status jd) analyzed.

Definition noFiles : Toast :=
  {| title := "No files to analyze";
     description := "Please upload some job descriptions first";
     variant := Some destructive |}.

Definition analysisComplete (analyzedResults : list JobDescription) : Toast :=
  {| title := "Analysis complete";
     description := "Successfully analyzed "
                      ++ nat_toString (length (filter isAnalyzed analyzedResults))
                      ++ " job descriptions";
     variant := None |}.

(** The run up to its first await: the spinner and the processing marks. *)
Definition analysis_begin : M unit :=
  setAnalyzing true ;;
  setJobDescriptions (map (fun jd => with_status jd processing)).

(** [await Promise.all (analysisPromises)] over the records [snapshot] the
    handler closed over, and what follows it. *)
Definition analysis_settle (w : World) (snapshot : list JobDescription) : M unit :=
  let analyzedResults := mapi (analyzeOne w) snapshot in
  setJobDescriptions (fun _ => analyzedResults) ;;
  toast (analysisComplete analyzedResults) ;;
  setCurrentView results ;;
  setAnalyzing false.

Definition analyzeJobDescriptions (w : World) : M unit :=
  snapshot <- getJobDescriptions ;;
  if (length snapshot =? 0)%nat then toast noFiles
  else analysis_begin ;; analysis_settle w snapshot.

(* ================================================================= *)
(** ** Dashboard.tsx: downloadResults *)

Definition noResults : Toast :=
  {| title := "No results to download";
     description := "Please analyze some job descriptions first";
     variant := Some destructive |}.

Definition resultsDownloaded : Toast :=
  {| title := "Results downloaded";
     description := "Analysis results have been downloaded as JSON file";
     variant := None |}.

(** A property whose value may be undefined: [JSON.stringify] leaves it out. *)
Definition optional (k : string) (v : option JSON) : list (string * JSON) :=
  match v with
  | Some x => [(k, x)]
  | None => []
  end.

Definition resultOf (jd : JobDescription) : JSON :=
  JObject ([("filename", JString (filename jd)); ("uploadedAt", JString (uploadedAt jd))]
             ++ optional "analyzedAt" (option_map JString (analyzedAt jd))
             ++ optional "analysis" (analysisResults jd))%list.

Definition downloadResults (w : World) : M unit :=
  jds <- getJobDescriptions ;;
  let analyzedJobs := filter isAnalyzed jds in
  if (length analyzedJobs =? 0)%nat then toast noResults
  else
    let results := map resultOf analyzedJobs in
    t <- Date_now w ;;
    emit (EDownload
            {| download := "job-analysis-results-" ++ before_T (toISOString t) ++ ".json";
               mime := "application/json";
               content := JSON_stringify (JArray results) |}) ;;
    toast resultsDownloaded.

(* ================================================================= *)
(** ** Dashboard.tsx: the handlers as transitions

    The handlers are asynchronous: between two awaits of one handler the
    user can trigger another.  A configuration keeps, next to the React
    state, the records each analysis run in flight closed over.  (The
    Analyze All button is disabled while [analyzing] is set; the handler
    itself does not look at the flag, and neither do the transitions.) *)

Record Config : Type := mkConfig {
  cstate : State;
  inflight : list (list JobDescription)
}.

Definition boot : Config := {| cstate := initial; inflight := [] |}.

Inductive step : Config -> Config -> Prop :=
| step_uploading (c : Config) (b : bool) :
    step c {| cstate := fst (exec (setUploading b) (cstate c)); inflight := inflight c |}
| step_uploadFile (c : Config) (w : World) (file : File) :
    isAccepted file = true ->
    step c {| cstate := fst (exec (uploadFile w file) (cstate c)); inflight := inflight c |}
| step_delete (c : Config) (i : string) :
    step c {| cstate := fst (exec (deleteJobDescription i) (cstate c)); inflight := inflight c |}
| step_begin (c : Config) :
    jobDescriptions (cstate c) <> [] ->
    step c {| cstate := fst (exec analysis_begin (cstate c));
              inflight := jobDescriptions (cstate c) :: inflight c |}
| step_settle (c : Config) (w : World)
    (before after : list (list JobDescription)) (snapshot : list JobDescription) :
    inflight c = (before ++ snapshot :: after)%list ->
    step c {| cstate := fst (exec (analysis_settle w snapshot) (cstate c));
              inflight := (before ++ after)%list |}
| step_back (c : Config) :
    step c {| cstate := fst (exec (setCurrentView dashboard) (cstate c));
              inflight := inflight c |}.

Inductive reachable : Config -> Prop :=
| reachable_boot : reachable boot
| reachable_step (c c' : Config) : reachable c -> step c c' -> reachable c'.

(* ================================================================= *)
(** ** ResultsPage: the column schema and the placeholder table *)

Definition columnNames : list string :=
  ["FileName";
   "Job Title / Position Name";
   "Reports To / Supervisor";
   "Company";
   "Grade";
   "Job Code";
   "FLSA Status";
   "Department";
   "Date Reviewed";
   "Job Summary / Scope of Position";
   "Position Summary of Major Accountabilities / Essential Functions";
   "Duties";
   "Duties - Weight";
   "Acquisition & Deployment";
   "Operational Management";
   "MARGINAL FUNCTIONS";
   "Supervision";
   "SUPERVISION - Received";
   "Minimum Experience / EDUCATION & EXPERIENCE:";
   "Requirements, Certifications and Licensure";
   "Patient Population Served";
   "Patient Population Served - Selection";
   "Carolina Org - Phy Req";
   "Carolina Org - Phy Req - Selection";
   "Carolina Org - Phy Demands";
   "Carolina Org - Phy Demands - Selection";
   "Carolina Org - Phy Env.Environment";
   "Carolina Org - Phy Env.Environment - Selection";
   "KNOWLEDGE, SKILLS & ABILITIES / Additonal Skills/Abilities";
   "Mental Demands";
   "Mental Demands - Frequency";
   "Physical Activity - Activity";
   "Physical Activity - Frequency";
   "Physical Demands.Activity";
   "Physical Demands.Frequency";
   "PHYSICAL REQUIREMENTS:";
   "Work Environment";
   "Working Environment.Activity";
   "Working Environment.Frequency"].

(** A row of [tableData]: an object whose properties are all strings, in
    the order of the object literal. *)
Definition Row : Type := list (string * string).

(** The object literal of [tableData] for [job]; [today] is what
    [new Date ().toLocaleDateString ()] returned for it. *)
Definition tableRow (today : string) (job : JobDescription) : Row :=
  [("FileName", filename job);
   ("Job Title / Position Name", "Software Engineer");
   ("Reports To / Supervisor", "Engineering Manager");
   ("Company", "Tech Corporation");
   ("Grade", "L3");
   ("Job Code", "ENG-001");
   ("FLSA Status", "Exempt");
   ("Department", "Engineering");
   ("Date Reviewed", today);
   ("Job Summary / Scope of Position", "Develop and maintain software applications");
   ("Position Summary of Major Accountabilities / Essential Functions", "Write code, debug issues, collaborate with team");
   ("Duties", "Code development, testing, documentation");
   ("Duties - Weight", "80%");
   ("Acquisition & Deployment", "Participate in CI/CD processes");
   ("Operational Management", "Monitor system performance");
   ("MARGINAL FUNCTIONS", "Attend meetings, training");
   ("Supervision", "None");
   ("SUPERVISION - Received", "Direct supervision");
   ("Minimum Experience / EDUCATION & EXPERIENCE:", "Bachelor's degree, 3+ years");
   ("Requirements, Certifications and Licensure", "None required");
   ("Patient Population Served", "N/A");
   ("Patient Population Served - Selection", "N/A");
   ("Carolina Org - Phy Req", "N/A");
   ("Carolina Org - Phy Req - Selection", "N/A");
   ("Carolina Org - Phy Demands", "Sitting, typing");
   ("Carolina Org - Phy Demands - Selection", "Frequent");
   ("Carolina Org - Phy Env.Environment", "Office environment");
   ("Carolina Org - Phy Env.Environment - Selection", "Indoor");
   ("KNOWLEDGE, SKILLS & ABILITIES / Additonal Skills/Abilities", "Programming, problem-solving");
   ("Mental Demands", "High concentration required");
   ("Mental Demands - Frequency", "Constant");
   ("Physical Activity - Activity", "Sitting, typing");
   ("Physical Activity - Frequency", "Continuous");
   ("Physical Demands.Activity", "Light physical activity");
   ("Physical Demands.Frequency", "Occasional");
   ("PHYSICAL REQUIREMENTS:", "Able to sit for extended periods");
   ("Work Environment", "Office setting");
   ("Working Environment.Activity", "Computer work");
   ("Working Environment.Frequency", "Daily")].

(** [row[col]]: [None] is undefined. *)
Fixpoint prop (row : Row) (col : string) : option string :=
  match row with
  | [] => None
  | (k, v) :: row' => if String.eqb k col then Some v else prop row' col
  end.

(** [v || d] on a string that may be undefined. *)
Definition orElse (v : option string) (d : string) : string :=
  match v with
  | Some s => if String.eqb s EmptyString then d else s
  | None => d
  end.

(** The rows computed by one render; [clock w i] is the clock read while the
    row of the [i]-th analysed record is built. *)
Definition tableData (w : World) (jobDescriptions : list JobDescription) : list Row :=
  let analyzedJobs := filter isAnalyzed jobDescriptions in
  mapi (fun i job => tableRow (toLocaleDateString w (clock w i)) job) analyzedJobs.

(** The card under the controls: the empty notice or the table. *)
Inductive ResultsCard : Type :=
| NoResultsAvailable
| ResultsTable (head : list string) (body : list (list string)).

Definition resultsCard (tableData : list Row) : ResultsCard :=
  if (length tableData =? 0)%nat then NoResultsAvailable
  else ResultsTable columnNames
         (map (fun row => map (fun column => orElse (prop row column) "-") columnNames)
              tableData).

(** The [disabled] attribute of the two export buttons. *)
Definition exportDisabled (tableData : list Row) : bool := (length tableData =? 0)%nat.

(** ** ResultsPage: downloadCSV and downloadJSON

    Both return the events of one click; [clock w 0] is the clock read for
    the file name. *)

Definition csvCell (row : Row) (col : string) : string :=
  str1 dquote ++ orElse (prop row col) EmptyString ++ str1 dquote.

Definition csvContent (tableData : list Row) : string :=
  let headers := join "," columnNames in
  let rows := join nl (map (fun row => join "," (map (csvCell row) columnNames)) tableData) in
  headers ++ nl ++ rows.

Definition downloadCSV (w : World) (tableData : list Row) : list Event :=
  if (length tableData =? 0)%nat then []
  else
    let blob := csvContent tableData in
    if link_download_defined w then
      [EDownload
         {| download := "job-analysis-results-"
                          ++ before_T (toISOString (clock w 0)) ++ ".csv";
            mime := "text/csv;charset=utf-8;";
            content := blob |}]
    else [].

(** A row as the JSON value [JSON.stringify] sees. *)
Definition Row_json (row : Row) : JSON :=
  JObject (map (fun kv => (fst kv, JString (snd kv))) row).

Definition jsonContent (tableData : list Row) : string :=
  JSON_stringify (JArray (map Row_json tableData)).

Definition downloadJSON (w : World) (tableData : list Row) : list Event :=
  if (length tableData =? 0)%nat then []
  else
    let blob := jsonContent tableData in
    if link_download_defined w then
      [EDownload
         {| download := "job-analysis-results-"
                          ++ before_T (toISOString (clock w 0)) ++ ".json";
            mime := "application/json";
            content := blob |}]
    else [].

(* ================================================================= *)
(** ** Predicates on records and runs *)

(** The record's status is one of the two final ones. *)
Definition settled (jd : JobDescription) : Prop :=
  status jd = analyzed \/ status jd = error.

(** None of the optional fields is set. *)
Definition bare (jd : JobDescription) : Prop :=
  analyzedAt jd = None /\ extractedContent jd = None /\ analysisResults jd = None.

(** All of the optional fields are set. *)
Definition filled (jd : JobDescription) : Prop :=
  analyzedAt jd <> None /\ extractedContent jd <> None /\ analysisResults jd <> None.

(** Only an analyzed record carries [analyzedAt] or [analysisResults]. *)
Definition fields_follow_status (jd : JobDescription) : Prop :=
  status jd <> analyzed -> analyzedAt jd = None /\ analysisResults jd = None.

(** What the handlers do maintain, record by record. *)
Definition record_inv (jd : JobDescription) : Prop :=
  (status jd = uploaded -> bare jd)
  /\ (status jd = analyzed -> filled jd)
  /\ (bare jd \/ filled jd).

(** The invariant of a configuration: it holds of the working set and of
    the records an analysis in flight closed over. *)
Definition config_inv (c : Config) : Prop :=
  Forall record_inv (jobDescriptions (cstate c))
  /\ Forall (Forall record_inv) (inflight c).

(** The storage path [uploadFile] builds when its clock read is the [n]-th
    external call. *)
Definition upload_path (w : World) (n : nat) (file : File) : string :=
  "job-descriptions/" ++ Z_toString (clock w n) ++ "-" ++ name file.

(** The world as a handler sees it after [n] external calls. *)
Definition later (n : nat) (w : World) : World :=
  {| clock := fun k => clock w (n + k);
     upload_result := fun k => upload_result w (n + k);
     extract_result := extract_result w;
     generate_result := generate_result w;
     task_clock := task_clock w;
     toLocaleDateString := toLocaleDateString w;
     link_download_defined := link_download_defined w |}.

(** A configuration with another React state. *)
Definition with_state (c : Config) (st : State) : Config :=
  {| cstate := st; inflight := inflight c |}.

(** Two worlds that answer every analysis task but the [i]-th alike. *)
Definition same_tasks_except (i : nat) (w w' : World) : Prop :=
  forall j, j <> i ->
    (forall url, extract_result w j url = extract_result w' j url)
    /\ (forall p m, generate_result w j p m = generate_result w' j p m)
    /\ task_clock w j = task_clock w' j.

(* ================================================================= *)
(** ** Reading the event log *)

Definition toasts (ev : list Event) : list Toast :=
  flat_map (fun e => match e with EToast t => [t] | _ => [] end) ev.

Definition uploads (ev : list Event) : list File :=
  flat_map (fun e => match e with EUpload f _ => [f] | _ => [] end) ev.

Definition downloads (ev : list Event) : list Artifact :=
  flat_map (fun e => match e with EDownload a => [a] | _ => [] end) ev.

(** The media types of the allow-list, in the specification's words: PDF,
    legacy Word, OOXML Word. *)
Definition allow_list : list string :=
  ["application/pdf"; "application/msword";
   "application/vnd.openxmlformats-officedocument.wordprocessingml.document"].

(** The accepted subset of a batch, in the specification's words: the files
    whose declared media type is one of the allow-list, in batch order. *)
Definition on_allow_list (file : File) : bool :=
  if in_dec string_dec (type file) allow_list then true else false.

Definition accepted_subset (files : list File) : list File := filter on_allow_list files.

(** [jd] is the record [handleFiles] creates for [file]. *)
Definition made_from (file : File) (jd : JobDescription) : Prop :=
  filename jd = name file /\ fileType jd = type file /\ fileSize jd = size file
  /\ status jd = uploaded /\ bare jd.

(** [t] is one of the two notifications [handleFiles] issues for [file]. *)
Definition per_file_toast (file : File) (t : Toast) : Prop :=
  t = uploadedToast file \/ t = uploadFailed file.

(* ================================================================= *)
(** ** The exports in the specification's words *)

(** A value wrapped in double quotes. *)
Definition wrap (v : string) : string := str1 dquote ++ v ++ str1 dquote.

(** Each string of [l] preceded by [sep]. *)
Fixpoint each_after (sep : string) (l : list string) : string :=
  match l with
  | [] => EmptyString
  | x :: l' => sep ++ x ++ each_after sep l'
  end.

(** The strings of [l] one after the other with [sep] between two
    consecutive ones and nowhere else: the first string, then each further
    one preceded by [sep]; nothing for no string. *)
Definition separated (sep : string) (l : list string) : string :=
  match l with
  | [] => EmptyString
  | x :: l' => x ++ each_after sep l'
  end.

(** A line of the CSV text: each value wrapped in double quotes, commas
    between the wrapped values. *)
Definition quoted_line (values : list string) : string := separated "," (map wrap values).

(** The CSV text: the header with commas between the names, a newline, then
    one line per record, with newlines between the lines. *)
Definition csv_text (header : list string) (records : list (list string)) : string :=
  separated "," header ++ nl ++ separated nl (map quoted_line records).

(** The first line of every CSV export, written out. *)
Definition header_line : string :=
  "FileName,Job Title / Position Name,Reports To / Supervisor,Company,Grade,Job Code,FLSA Status,Department,Date Reviewed,Job Summary / Scope of Position,Position Summary of Major Accountabilities / Essential Functions,Duties,Duties - Weight,Acquisition & Deployment,Operational Management,MARGINAL FUNCTIONS,Supervision,SUPERVISION - Received,Minimum Experience / EDUCATION & EXPERIENCE:,Requirements, Certifications and Licensure,Patient Population Served,Patient Population Served - Selection,Carolina Org - Phy Req,Carolina Org - Phy Req - Selection,Carolina Org - Phy Demands,Carolina Org - Phy Demands - Selection,Carolina Org - Phy Env.Environment,Carolina Org - Phy Env.Environment - Selection,KNOWLEDGE, SKILLS & ABILITIES / Additonal Skills/Abilities,Mental Demands,Mental Demands - Frequency,Physical Activity - Activity,Physical Activity - Frequency,Physical Demands.Activity,Physical Demands.Frequency,PHYSICAL REQUIREMENTS:,Work Environment,Working Environment.Activity,Working Environment.Frequency".

(** The values of a record in the order of the schema, a missing one as the
    empty string. *)
Definition values_of (row : Row) : list string :=
  map (fun col => match prop row col with Some v => v | None => EmptyString end)
      columnNames.

(** The contents of the files an export handed to the browser. *)
Definition contents (ev : list Event) : list string := map content (downloads ev).

(** The locale date read while the row of the [i]-th analysed record is
    built, in a render that happens in world [w]. *)
Definition render_date (w : World) (i : nat) : string := toLocaleDateString w (clock w i).

(** C6 as stated: the exported text depends on the records only, whatever
    the renders the two exports are made from. *)
Definition content_depends_on_records_only (jds : list JobDescription) : Prop :=
  forall w1 w2 : World,
    csvContent (tableData w1 jds) = csvContent (tableData w2 jds)
    /\ jsonContent (tableData w1 jds) = jsonContent (tableData w2 jds).

(** C8 as stated, for the events [ev] of an export and the state it leaves:
    no file, the state unchanged, and a notification. *)
Definition silent_and_reported (st st' : State) (ev : list Event) : Prop :=
  downloads ev = [] /\ st' = st /\ toasts ev <> [].

Definition empty_export_is_reported (w : World) (st : State) : Prop :=
  filter isAnalyzed (jobDescriptions st) = [] ->
  silent_and_reported st (fst (exec (downloadResults w) st)) (snd (exec (downloadResults w) st))
  /\ silent_and_reported st st (downloadCSV w (tableData w (jobDescriptions st)))
  /\ silent_and_reported st st (downloadJSON w (tableData w (jobDescriptions st))).

(* ================================================================= *)
(** ** Runs of the lexer and token streams *)

(** The lexer run over a part of the text: the tokens completed and the
    mode reached. *)
Fixpoint lex_run (m : lexmode) (s : string) : option (list token * lexmode) :=
  match s with
  | EmptyString => Some ([], m)
  | String c s' =>
      match lex_step m c with
      | None => None
      | Some (ts, m') =>
          match lex_run m' s' with
          | None => None
          | Some (ts', m'') => Some ((ts ++ ts')%list, m'')
          end
      end
  end.

Definition lexes (m : lexmode) (s : string) (ts : list token) (m' : lexmode) : Prop :=
  lex_run m s = Some (ts, m').

(** The token streams [l], with [sep] between two of them. *)
Fixpoint sep_tokens (sep : list token) (l : list (list token)) : list token :=
  match l with
  | [] => []
  | [x] => x
  | x :: l' => (x ++ sep ++ sep_tokens sep l')%list
  end.

Definition member_tokens (kv : string * string) : list token :=
  [TString (fst kv); TColon; TString (snd kv)].

Definition row_tokens (row : Row) : list token :=
  (TLBrace :: sep_tokens [TComma] (map member_tokens row) ++ [TRBrace])%list.

Definition table_tokens (rows : list Row) : list token :=
  (TLBracket :: sep_tokens [TComma] (map row_tokens rows) ++ [TRBracket])%list.

(** The members of an object after the properties of [row] are assigned. *)
Definition add_members (done : list (string * JSON)) (row : Row) : list (string * JSON) :=
  fold_left (fun acc kv => set_member (fst kv) (JString (snd kv)) acc) row done.

(** A parsed export: an array of objects whose values are all strings. *)
Definition string_object (keys : list string) (o : JSON) : Prop :=
  exists members,
    o = JObject members
    /\ map fst members = keys
    /\ Forall (fun m => exists s, snd m = JString s) members.

(** C4 as stated, for the export of the records [jds] rendered in [w]: the
    text parses to one object per analysed record, each with the keys of the
    schema, 38 of them. *)
Definition json_export_has_38_keys (w : World) (jds : list JobDescription) : Prop :=
  exists objects,
    JSON_parse (jsonContent (tableData w jds)) = Some (JArray objects)
    /\ length objects = length (filter isAnalyzed jds)
    /\ Forall (fun o => exists members,
                 o = JObject members /\ map fst members = columnNames
                 /\ length members = 38) objects.

(* ================================================================= *)
(** ** Sample inputs *)

Definition pdf_file : File :=
  {| name := "engineer.pdf"; type := "application/pdf"; size := 52143 |}.

Definition doc_file : File :=
  {| name := "nurse.doc"; type := "application/msword"; size := 20480 |}.

Definition png_file : File :=
  {| name := "logo.png"; type := "image/png"; size := 1024 |}.

(** Every call succeeds, within one millisecond; the inference returns an
    object for task 0 and text that is not JSON for the other tasks. *)
Definition sample_world : World :=
  {| clock := fun _ => 1700000000000%Z;
     upload_result := fun _ _ path => Some ("https://storage.example/" ++ path);
     extract_result := fun _ _ => Some "Senior engineer wanted";
     generate_result := fun i _ _ =>
       if (i =? 0)%nat then Some "{}" else Some "Here is the JSON you asked for";
     task_clock := fun _ => 1700000060000%Z;
     toLocaleDateString := enUS_UTC_date;
     link_download_defined := true |}.

(** As [sample_world], a day later, and the inference answers no task with
    JSON. *)
Definition later_world : World :=
  {| clock := fun _ => 1700086400000%Z;
     upload_result := fun _ _ path => Some ("https://storage.example/" ++ path);
     extract_result := fun _ _ => Some "Senior engineer wanted";
     generate_result := fun _ _ _ => Some "Here is the JSON you asked for";
     task_clock := fun _ => 1700086460000%Z;
     toLocaleDateString := enUS_UTC_date;
     link_download_defined := true |}.

(** The pdf and the doc uploaded into an empty dashboard. *)
Definition two_uploaded : State :=
  fst (exec (handleFiles sample_world [pdf_file; png_file; doc_file]) initial).

(** Then analysed: the first record succeeds, the second fails. *)
Definition two_analyzed : State :=
  fst (exec (analyzeJobDescriptions sample_world) two_uploaded).

(** The pdf uploaded, analysed with success, then analysed again with a
    failing inference. *)
Definition c_uploaded : Config :=
  {| cstate := fst (exec (uploadFile sample_world pdf_file) (cstate boot));
     inflight := inflight boot |}.

Definition c_running : Config :=
  {| cstate := fst (exec analysis_begin (cstate c_uploaded));
     inflight := [jobDescriptions (cstate c_uploaded)] |}.

Definition c_analyzed : Config :=
  {| cstate := fst (exec (analysis_settle sample_world (jobDescriptions (cstate c_uploaded)))
                         (cstate c_running));
     inflight := [] |}.

Definition c_rerunning : Config :=
  {| cstate := fst (exec analysis_begin (cstate c_analyzed));
     inflight := [jobDescriptions (cstate c_analyzed)] |}.

Definition c_failed : Config :=
  {| cstate := fst (exec (analysis_settle later_world (jobDescriptions (cstate c_analyzed)))
                         (cstate c_rerunning));
     inflight := [] |}.

(** A record that never got analysed. *)
Definition png_as_record : JobDescription :=
  {| id := "1699999999999"; filename := "logo.png"; fileUrl := "https://storage.example/logo";
     fileType := "image/png"; fileSize := 1024; status := error;
     uploadedAt := "2023-11-14T22:13:19.999Z";
     analyzedAt := None; extractedContent := None; analysisResults := None |}.

(** A record with the file name of the pdf and another analysis. *)
Definition another_analysis : JobDescription :=
  {| id := "1"; filename := "engineer.pdf"; fileUrl := "https://elsewhere.example/x";
     fileType := "application/msword"; fileSize := 7; status := analyzed;
     uploadedAt := "2024-01-01T00:00:00.000Z";
     analyzedAt := Some "2024-01-02T00:00:00.000Z";
     extractedContent := Some "Head nurse wanted";
     analysisResults := Some (JObject [("Job title", JString "Head nurse")]) |}.

(* ================================================================= *)
(** ** Dashboard.tsx: what the markup computes from the state *)

(** The [disabled] attribute of the Analyze All button. *)
Definition analyzeDisabled (st : State) : bool :=
  analyzing st || (length (jobDescriptions st) =? 0)%nat.

(** The [disabled] attribute of the Download Results button. *)
Definition downloadDisabled (st : State) : bool :=
  (length (filter isAnalyzed (jobDescriptions st)) =? 0)%nat.

(** Whether the card of uploaded files is rendered. *)
Definition showsFiles (st : State) : bool :=
  negb (length (jobDescriptions st) =? 0)%nat.

(** Whether the card of analysis results is rendered:
    [jobDescriptions.some (jd => jd.status === 'analyzed')]. *)
Definition showsResults (st : State) : bool :=
  existsb isAnalyzed (jobDescriptions st).

(** ** Dashboard.tsx: handleDrag and handleDrop

    [dragActive] is a state of its own; [ty] is the type of the event. *)
Definition handleDrag (ty : string) (dragActive : bool) : bool :=
  if (ty =? "dragenter") || (ty =? "dragover") then true
  else if ty =? "dragleave" then false
  else dragActive.

(** [handleDrop]: the flag it leaves, and the batch handed to
    [handleFiles]. *)
Definition handleDrop (w : World) (files : list File) (dragActive : bool)
  : bool * M unit :=
  (false, handleFiles w files).

(** [handleFileInput]: [e.target.files || []], handed to [handleFiles]. *)
Definition handleFileInput (w : World) (files : option (list File)) : M unit :=
  handleFiles w (match files with Some l => l | None => [] end).

(* ================================================================= *)
(** ** More readings of the log and of the records *)

Definition isUploadedToast (t : Toast) : bool := title t =? "File uploaded successfully".

Definition isFailedToast (t : Toast) : bool := title t =? "Upload failed".

(** The storage paths of the upload calls, oldest first. *)
Definition upload_paths (ev : list Event) : list (File * string) :=
  flat_map (fun e => match e with EUpload f p => [(f, p)] | _ => [] end) ev.

(** What an analysis never changes in a record. *)
Definition identity (jd : JobDescription) : string * string * string * string * N * string :=
  (id jd, filename jd, fileUrl jd, fileType jd, fileSize jd, uploadedAt jd).

Definition isError (jd : JobDescription) : bool := Status_eqb (status jd) error.

Definition isProcessing (jd : JobDescription) : bool := Status_eqb (status jd) processing.

(** As [sample_world], with a storage that rejects every call. *)
Definition offline_world : World :=
  {| clock := clock sample_world;
     upload_result := fun _ _ _ => None;
     extract_result := extract_result sample_world;
     generate_result := generate_result sample_world;
     task_clock := task_clock sample_world;
     toLocaleDateString := enUS_UTC_date;
     link_download_defined := true |}.

(** A record comes from an upload: an accepted media type, an id that is a
    decimal clock reading, an upload time in ISO form. *)
Definition from_upload (jd : JobDescription) : Prop :=
  In (fileType jd) allow_list
  /\ (exists t, id jd = Z_toString t)
  /\ (exists t, uploadedAt jd = toISOString t).

(** The pdf uploaded and a run begun; then the doc uploaded, or the pdf
    deleted, while the run is in flight; then the run settles. *)
Definition during_run : State := fst (exec analysis_begin (cstate c_uploaded)).

Definition uploaded_during_run : State :=
  fst (exec (uploadFile later_world doc_file) during_run).

Definition deleted_during_run : State :=
  fst (exec (deleteJobDescription "1700000000000") during_run).

(** As [later_world], with an inference that answers every task with an
    object. *)
Definition generous_world : World :=
  {| clock := clock later_world;
     upload_result := upload_result later_world;
     extract_result := extract_result later_world;
     generate_result := fun _ _ _ => Some "{ }";
     task_clock := task_clock later_world;
     toLocaleDateString := enUS_UTC_date;
     link_download_defined := true |}.

(* ================================================================= *)
(** ** A forged file name *)

(** A record with nothing in it. *)
Definition blank_record : JobDescription :=
  {| id := EmptyString; filename := EmptyString; fileUrl := EmptyString;
     fileType := EmptyString; fileSize := 0; status := analyzed;
     uploadedAt := EmptyString; analyzedAt := None; extractedContent := None;
     analysisResults := None |}.

(** What the CSV export writes after the first cell of a line built on the
    date [today]: a comma and the other 38 cells. *)
Definition csv_tail (today : string) : string :=
  "," ++ join "," (map wrap (tl (map snd (tableRow today blank_record)))).

(** The file name that makes one line of the CSV export read as the two
    lines of the files [a] and [b]. *)
Definition forged_name (a b today : string) : string :=
  a ++ str1 dquote ++ csv_tail today ++ nl ++ str1 dquote ++ b.

(** An analysed record named [f]. *)
Definition analyzed_as (f : string) : JobDescription :=
  {| id := "1"; filename := f; fileUrl := "https://storage.example/x";
     fileType := "application/pdf"; fileSize := 1; status := analyzed;
     uploadedAt := "2023-11-14T22:13:20.000Z";
     analyzedAt := Some "2023-11-14T22:14:20.000Z";
     extractedContent := Some "text"; analysisResults := Some JNull |}.

(* ================================================================= *)
(** ** Sequences of drag events *)

(** The flag after the drag events [tys], oldest first. *)
Definition after_drags (tys : list string) (dragActive : bool) : bool :=
  fold_left (fun flag ty => handleDrag ty flag) tys dragActive.

(** An event type that [handleDrag] reacts to. *)
Definition moves_flag (ty : string) : bool :=
  (ty =? "dragenter") || (ty =? "dragover") || (ty =? "dragleave").

(* ================================================================= *)
(** ** The date in a file name *)

(** The calendar date of the time value [t] in UTC, as ISO writes it. *)
Definition utc_date (t : Z) : string :=
  let '(y, m, d) := civil_from_days (t / 86400000) in
  (if ((0 <=? y) && (y <=? 9999))%Z then padded 4 y
   else (if (y <? 0)%Z then "-" else "+") ++ padded 6 (Z.abs y))
    ++ "-" ++ padded 2 m ++ "-" ++ padded 2 d.

(** No character of [s] is the letter T. *)
Fixpoint no_T (s : string) : bool :=
  match s with
  | EmptyString => true
  | String c s' => negb (Ascii.eqb c "T"%char) && no_T s'
  end.

(* ================================================================= *)
(** ** JSON values in general: tokens, induction, well-formed values *)

(** The tokens of a value. *)
Fixpoint tokens (v : JSON) : list token :=
  match v with
  | JNull => [TNull]
  | JBool true => [TTrue]
  | JBool false => [TFalse]
  | JNumber n => [TNumber n]
  | JString s => [TString s]
  | JArray items =>
      (TLBracket :: sep_tokens [TComma] (map tokens items) ++ [TRBracket])%list
  | JObject members =>
      (TLBrace
         :: sep_tokens [TComma]
              (map (fun kv => TString (fst kv) :: TColon :: tokens (snd kv)) members)
         ++ [TRBrace])%list
  end.

(** No number occurs in the value.  (Numbers are kept as lexemes, which
    [JSON.stringify] does not reproduce in general.) *)
Fixpoint number_free (v : JSON) : bool :=
  match v with
  | JNumber _ => false
  | JArray items => forallb number_free items
  | JObject members => forallb (fun kv => number_free (snd kv)) members
  | _ => true
  end.

Fixpoint distinct (l : list string) : bool :=
  match l with
  | [] => true
  | x :: l' => negb (existsb (String.eqb x) l') && distinct l'
  end.

(** No object of the value has a key twice, as in any JavaScript object. *)
Fixpoint unique_keys (v : JSON) : bool :=
  match v with
  | JArray items => forallb unique_keys items
  | JObject members =>
      distinct (map fst members) && forallb (fun kv => unique_keys (snd kv)) members
  | _ => true
  end.

(** Only spaces. *)
Fixpoint blank (s : string) : bool :=
  match s with
  | EmptyString => true
  | String c s' => Ascii.eqb c " "%char && blank s'
  end.

(** The members of an object after the properties [members] are
    assigned. *)
Definition assign_members (done members : list (string * JSON)) : list (string * JSON) :=
  fold_left (fun acc kv => set_member (fst kv) (snd kv) acc) members done.

(** Where a value may start: after a colon or a comma, at the top, or right
    after the opening bracket of an array. *)
Definition starts_value (stk : list frame) (x : expect) : Prop :=
  x = XValue \/ (x = XFirst /\ exists done stk', stk = FArray done :: stk').

(** Induction on values, with the hypothesis for every item of an array
    and every member of an object. *)
Section JSON_induction.
Variable P : JSON -> Prop.
Hypothesis Pnull : P JNull.
Hypothesis Pbool : forall b, P (JBool b).
Hypothesis Pnumber : forall n, P (JNumber n).
Hypothesis Pstring : forall s, P (JString s).
Hypothesis Parray : forall items, Forall P items -> P (JArray items).
Hypothesis Pobject :
  forall members, Forall (fun kv => P (snd kv)) members -> P (JObject members).

Fixpoint JSON_induction (v : JSON) : P v :=
  match v with
  | JNull => Pnull
  | JBool b => Pbool b
  | JNumber n => Pnumber n
  | JString s => Pstring s
  | JArray items =>
      Parray items
        ((fix all (l : list JSON) : Forall P l :=
            match l with
            | [] => Forall_nil P
            | x :: l' => Forall_cons x (JSON_induction x) (all l')
            end) items)
  | JObject members =>
      Pobject members
        ((fix all (l : list (string * JSON)) : Forall (fun kv => P (snd kv)) l :=
            match l with
            | [] => Forall_nil _
            | kv :: l' => Forall_cons kv (JSON_induction (snd kv)) (all l')
            end) members)
  end.
End JSON_induction.

(** The payload of a record can be written and read back. *)
Definition writable (o : option JSON) : bool :=
  match o with
  | Some v => number_free v && unique_keys v
  | None => true
  end.

(** What the parser holds is free of repeated keys: the finished items and
    members of every open array and object, and the finished value. *)
Definition frame_ok (f : frame) : bool :=
  match f with
  | FArray done => forallb unique_keys done
  | FObject done _ =>
      distinct (map fst done) && forallb (fun kv => unique_keys (snd kv)) done
  end.

Definition pstate_ok (st : pstate) : bool :=
  forallb frame_ok (fst st)
  && match snd st with
     | XEnd v => unique_keys v
     | _ => true
     end.

(** The payload of a record, if any, has no repeated key. *)
Definition payload_ok (jd : JobDescription) : Prop :=
  match analysisResults jd with
  | Some v => unique_keys v = true
  | None => True
  end.

(** The payload of a record, if any, holds no number. *)
Definition payload_number_free (jd : JobDescription) : bool :=
  match analysisResults jd with
  | Some v => number_free v
  | None => true
  end.

(** The object [downloadResults] exports for an analysed record. *)
Definition exported (jd : JobDescription) (o : JSON) : Prop :=
  exists analyzed_at payload,
    analyzedAt jd = Some analyzed_at
    /\ analysisResults jd = Some payload
    /\ o = JObject [("filename", JString (filename jd));
                    ("uploadedAt", JString (uploadedAt jd));
                    ("analyzedAt", JString analyzed_at);
                    ("analysis", payload)].

(** As [sample_world], with a clock that advances by a millisecond at each
    reading. *)
Definition ticking_world : World :=
  {| clock := fun n => (1700000000000 + Z.of_nat n)%Z;
     upload_result := upload_result sample_world;
     extract_result := extract_result sample_world;
     generate_result := generate_result sample_world;
     task_clock := task_clock sample_world;
     toLocaleDateString := enUS_UTC_date;
     link_download_defined := true |}.

(* ================================================================= *)
(** ** The iterations of the upload loop *)

(** What one iteration of the loop of [handleFiles] leaves behind: the
    record it appended, or nothing when the storage call failed.  The
    records of a batch are those of its iterations, in order. *)
Definition records_of (outcomes : list (option JobDescription)) : list JobDescription :=
  flat_map (fun o => match o with Some jd => [jd] | None => [] end) outcomes.

(** The notification of an iteration on [file]. *)
Definition outcome_toast (file : File) (o : option JobDescription) : Toast :=
  match o with
  | Some _ => uploadedToast file
  | None => uploadFailed file
  end.

(** An iteration that opens with external call number [n] makes four
    external calls when the storage answers (the clock for the path, the
    storage, the clock for the id, the clock for the time stamp) and two
    when it fails. *)
Definition next_read (w : World) (n : nat) (file : File) : nat :=
  match upload_result w (S n) file (upload_path w n file) with
  | Some _ => 4 + n
  | None => 2 + n
  end.

(** The numbers of the clock reads that open the iterations on [fs], when
    the first iteration opens with call number [n]. *)
Fixpoint reads (w : World) (n : nat) (fs : list File) : list nat :=
  match fs with
  | [] => []
  | file :: fs' => n :: reads w (next_read w n file) fs'
  end.

(* ================================================================= *)
(** * Properties *)

(** ** Lists and indexed maps *)

Lemma mapi_from_length {A B} (f : nat -> A -> B) (l : list A) :
  forall k, length (mapi_from k f l) = length l.
Proof.
  induction l as [|x l IH]; intros k; simpl; [reflexivity|].
  now rewrite IH.
Qed.

Lemma mapi_from_nth {A B} (f : nat -> A -> B) (l : list A) :
  forall k j, nth_error (mapi_from k f l) j = option_map (f (k + j)) (nth_error l j).
Proof.
  induction l as [|x l IH]; intros k j.
  - destruct j; reflexivity.
  - destruct j as [|j]; simpl.
    + now rewrite Nat.add_0_r.
    + rewrite IH. now rewrite Nat.add_succ_r.
Qed.

Lemma mapi_from_Forall {A B} (P : B -> Prop) (f : nat -> A -> B) (l : list A) :
  (forall i x, In x l -> P (f i x)) -> forall k, Forall P (mapi_from k f l).
Proof.
  induction l as [|x l IH]; intros H k; simpl; constructor.
  - apply H. now left.
  - apply IH. intros i y Hy. apply H. now right.
Qed.

Lemma length_zero_eqb {A} (l : list A) :
  (length l =? 0)%nat = match l with [] => true | _ :: _ => false end.
Proof. destruct l; reflexivity. Qed.

(** ** The analysis run *)

Lemma analyzeOne_status (w : World) (i : nat) (jd : JobDescription) :
  status (analyzeOne w i jd) = analyzed \/ status (analyzeOne w i jd) = error.
Proof.
  unfold analyzeOne.
  destruct (extract_result w i (fileUrl jd)) as [extracted|]; [|now right].
  destruct (generate_result w i (prompt extracted) "gpt-4o-mini") as [text|]; [|now right].
  destruct (JSON_parse text); [now left | now right].
Qed.

(** What a run started on a non-empty set leaves behind. *)
Lemma exec_analyzeJobDescriptions (w : World) (st : State) :
  jobDescriptions st <> [] ->
  exec (analyzeJobDescriptions w) st =
    ({| jobDescriptions := mapi (analyzeOne w) (jobDescriptions st);
        uploading := uploading st; analyzing := false; currentView := results |},
     [EToast (analysisComplete (mapi (analyzeOne w) (jobDescriptions st)))]).
Proof.
  intros Hne. unfold exec, analyzeJobDescriptions, bind, getJobDescriptions. simpl.
  rewrite length_zero_eqb.
  destruct (jobDescriptions st) as [|jd l] eqn:E; [congruence|].
  reflexivity.
Qed.

Lemma exec_analysis_settle (w : World) (snapshot : list JobDescription) (st : State) :
  exec (analysis_settle w snapshot) st =
    ({| jobDescriptions := mapi (analyzeOne w) snapshot;
        uploading := uploading st; analyzing := false; currentView := results |},
     [EToast (analysisComplete (mapi (analyzeOne w) snapshot))]).
Proof. reflexivity. Qed.

(** C1. After an analysis run over a non-empty working set, the set holds
    one outcome per record of the run and every record's status is
    analyzed or error, none is left processing or uploaded.  The same holds
    when the run settles after other handlers ran in between: the working
    set is replaced by the outcomes of the records the run started with. *)
Theorem analysis_run_settles_every_record (w : World) (st : State) :
  jobDescriptions st <> [] ->
  let st' := fst (exec (analyzeJobDescriptions w) st) in
  length (jobDescriptions st') = length (jobDescriptions st)
  /\ Forall settled (jobDescriptions st')
  /\ Forall (fun jd => status jd <> processing /\ status jd <> uploaded)
            (jobDescriptions st')
  /\ (forall (st2 : State),
        Forall settled (jobDescriptions (fst (exec (analysis_settle w (jobDescriptions st)) st2)))).
Proof.
  intros Hne st'. subst st'. rewrite exec_analyzeJobDescriptions by assumption.
  simpl. unfold mapi.
  assert (Hall : Forall settled (mapi_from 0 (analyzeOne w) (jobDescriptions st))).
  { apply mapi_from_Forall. intros i jd _. apply analyzeOne_status. }
  repeat split.
  - apply mapi_from_length.
  - exact Hall.
  - eapply Forall_impl; [|exact Hall].
    intros jd [H|H]; rewrite H; split; discriminate.
  - intros st2. exact Hall.
Qed.

Example two_analyzed_statuses :
  map status (jobDescriptions two_analyzed) = [analyzed; error].
Proof. reflexivity. Qed.

Lemma analysis_run_settles_every_record_witness :
  jobDescriptions two_uploaded <> []
  /\ Forall settled (jobDescriptions two_analyzed).
Proof.
  split.
  - discriminate.
  - apply (analysis_run_settles_every_record sample_world two_uploaded). discriminate.
Defined.

(** A failing task returns the record it was given, marked as an error. *)
Lemma analyzeOne_error (w : World) (i : nat) (jd : JobDescription) :
  status (analyzeOne w i jd) = error -> analyzeOne w i jd = with_status jd error.
Proof.
  unfold analyzeOne.
  destruct (extract_result w i (fileUrl jd)) as [extracted|]; [|reflexivity].
  destruct (generate_result w i (prompt extracted) "gpt-4o-mini") as [text|]; [|reflexivity].
  destruct (JSON_parse text); [discriminate | reflexivity].
Qed.

Lemma analyzeOne_same_tasks (i : nat) (w w' : World) (j : nat) (jd : JobDescription) :
  same_tasks_except i w w' -> j <> i -> analyzeOne w j jd = analyzeOne w' j jd.
Proof.
  intros H Hj. destruct (H j Hj) as (He & Hg & Hc).
  unfold analyzeOne. rewrite He.
  destruct (extract_result w' j (fileUrl jd)) as [extracted|]; [|reflexivity].
  rewrite Hg, Hc. reflexivity.
Qed.

(** A filter that rejects an element of a list returns a shorter list. *)
Lemma filter_misses {A} (f : A -> bool) (l : list A) (x : A) :
  In x l -> f x = false -> length (filter f l) < length l.
Proof.
  induction l as [|y l IH]; intros Hin Hx; [destruct Hin|].
  cbn [filter]. destruct Hin as [-> | Hin].
  - rewrite Hx. cbn [length]. pose proof (filter_length_le f l). lia.
  - specialize (IH Hin Hx). destruct (f y); cbn [length]; lia.
Qed.

(** C7. When the inference call of a record returns text that does not
    parse as JSON, the run still completes (the view switches to the
    results, the spinner stops, one outcome per record) and that record's
    outcome has status error: it is not analyzed, it is not counted by the
    Analysis complete notification and it gets no row in the results table;
    its other fields are those of the record before the run, so nothing of
    the extracted text or of the malformed answer is stored.  Every other
    outcome is what the task of its own record yields, and it is the same
    in any run that differs from this one in the answers given to the
    failing task only. *)
Theorem malformed_inference_output_is_an_error
  (w : World) (st : State) (i : nat) (jd : JobDescription) (extracted text : string) :
  nth_error (jobDescriptions st) i = Some jd ->
  extract_result w i (fileUrl jd) = Some extracted ->
  generate_result w i (prompt extracted) "gpt-4o-mini" = Some text ->
  JSON_parse text = None ->
  let run := exec (analyzeJobDescriptions w) st in
  let out := jobDescriptions (fst run) in
  currentView (fst run) = results
  /\ analyzing (fst run) = false
  /\ length out = length (jobDescriptions st)
  /\ (exists failed,
        nth_error out i = Some failed
        /\ status failed = error
        /\ isAnalyzed failed = false
        /\ id failed = id jd /\ filename failed = filename jd
        /\ fileUrl failed = fileUrl jd /\ fileType failed = fileType jd
        /\ fileSize failed = fileSize jd /\ uploadedAt failed = uploadedAt jd
        /\ analyzedAt failed = analyzedAt jd
        /\ extractedContent failed = extractedContent jd
        /\ analysisResults failed = analysisResults jd
        /\ failed = with_status jd error)
  /\ length (filter isAnalyzed out) < length (jobDescriptions st)
  /\ snd run =
       [EToast {| title := "Analysis complete";
                  description := "Successfully analyzed "
                                   ++ nat_toString (length (filter isAnalyzed out))
                                   ++ " job descriptions";
                  variant := None |}]
  /\ (forall j jd', j <> i -> nth_error (jobDescriptions st) j = Some jd' ->
        nth_error out j = Some (analyzeOne w j jd'))
  /\ (forall w', same_tasks_except i w w' -> forall j, j <> i ->
        nth_error (jobDescriptions (fst (exec (analyzeJobDescriptions w') st))) j
        = nth_error out j).
Proof.
  intros Hjd Hex Hgen Hparse run out.
  assert (Hne : jobDescriptions st <> []).
  { intros E. rewrite E in Hjd. destruct i; discriminate. }
  assert (Hrun : forall w0, jobDescriptions (fst (exec (analyzeJobDescriptions w0) st))
                            = mapi_from 0 (analyzeOne w0) (jobDescriptions st)).
  { intros w0. now rewrite exec_analyzeJobDescriptions. }
  assert (Hfail : analyzeOne w i jd = with_status jd error).
  { unfold analyzeOne. now rewrite Hex, Hgen, Hparse. }
  assert (Hat : nth_error out i = Some (with_status jd error)).
  { subst out run. rewrite Hrun, mapi_from_nth, Hjd. simpl. now rewrite Hfail. }
  assert (Hlen : length out = length (jobDescriptions st)).
  { subst out run. rewrite Hrun. apply mapi_from_length. }
  split; [|split; [|split; [exact Hlen|split; [|split; [|split; [|split]]]]]].
  - subst run. now rewrite exec_analyzeJobDescriptions.
  - subst run. now rewrite exec_analyzeJobDescriptions.
  - exists (with_status jd error). split; [exact Hat|]. repeat split.
  - rewrite <- Hlen. apply filter_misses with (x := with_status jd error).
    + eapply nth_error_In. exact Hat.
    + reflexivity.
  - subst out run. now rewrite exec_analyzeJobDescriptions.
  - intros j jd' _ Hj. subst out run. rewrite Hrun, mapi_from_nth, Hj. reflexivity.
  - intros w' Hw j Hj. subst out run. rewrite !Hrun, !mapi_from_nth.
    destruct (nth_error (jobDescriptions st) j) as [jd'|]; [|reflexivity].
    simpl. f_equal. symmetry. now apply (analyzeOne_same_tasks i).
Qed.

Lemma malformed_inference_output_is_an_error_witness :
  JSON_parse "Here is the JSON you asked for" = None
  /\ map status (jobDescriptions two_uploaded) = [uploaded; uploaded]
  /\ (exists failed,
        nth_error (jobDescriptions two_analyzed) 1 = Some failed
        /\ status failed = error
        /\ filename failed = "nurse.doc"
        /\ extractedContent failed = None
        /\ analysisResults failed = None)
  /\ option_map status (nth_error (jobDescriptions two_analyzed) 0) = Some analyzed.
Proof.
  split; [reflexivity|]. split; [reflexivity|].
  destruct (malformed_inference_output_is_an_error
              sample_world two_uploaded 1
              (with_status
                 (newJobDescription doc_file
                    "https://storage.example/job-descriptions/1700000000000-nurse.doc"
                    1700000000000 1700000000000) uploaded)
              "Senior engineer wanted" "Here is the JSON you asked for"
              eq_refl eq_refl eq_refl eq_refl)
    as (_ & _ & _ & (failed & Hat & Hst & _ & _ & Hname & _ & _ & _ & _ & _ & Hex & Hres & _)
          & _ & _ & Hothers & _).
  split.
  - exists failed. split; [exact Hat|]. split; [exact Hst|].
    split; [exact Hname|]. split; [exact Hex | exact Hres].
  - unfold two_analyzed. rewrite (Hothers 0%nat _ (fun E => Nat.neq_0_succ 0 E) eq_refl).
    reflexivity.
Defined.

(** ** Status and optional fields *)

Lemma uploadFile_run (w : World) (file : File) (s : Sys) :
  snd (uploadFile w file s) =
    match upload_result w (S (calls s)) file (upload_path w (calls s) file) with
    | Some publicUrl =>
        {| state := update_jobDescriptions
                      (fun prev => (prev ++ [newJobDescription file publicUrl
                                               (clock w (S (S (calls s))))
                                               (clock w (S (S (S (calls s)))))])%list)
                      (state s);
           calls := S (S (S (S (calls s))));
           events := (events s ++ [EUpload file (upload_path w (calls s) file)]
                               ++ [EToast (uploadedToast file)])%list |}
    | None =>
        {| state := state s;
           calls := S (S (calls s));
           events := (events s ++ [EUpload file (upload_path w (calls s) file)]
                               ++ [EToast (uploadFailed file)])%list |}
    end.
Proof.
  unfold uploadFile, bind, Date_now, storage_upload, tick, emit, ret, bind, upload_path.
  cbn -[String.append Z_toString].
  destruct (upload_result w (S (calls s)) file _); cbn -[String.append Z_toString];
    rewrite <- app_assoc; reflexivity.
Qed.

Lemma newJobDescription_inv (file : File) (url : string) (t_id t_at : Z) :
  record_inv (newJobDescription file url t_id t_at).
Proof.
  assert (B : bare (newJobDescription file url t_id t_at)) by (repeat split).
  split; [|split].
  - intros _. exact B.
  - intros H. discriminate H.
  - now left.
Qed.

Lemma with_status_inv (jd : JobDescription) (s : Status) :
  record_inv jd -> s <> uploaded -> s <> analyzed -> record_inv (with_status jd s).
Proof.
  intros (_ & _ & H) Hu Ha. split; [|split]; simpl; try contradiction.
  exact H.
Qed.

Lemma analyzeOne_inv (w : World) (i : nat) (jd : JobDescription) :
  record_inv jd -> record_inv (analyzeOne w i jd).
Proof.
  intros H.
  assert (E : record_inv (with_status jd error))
    by (apply with_status_inv; [assumption | discriminate | discriminate]).
  unfold analyzeOne.
  destruct (extract_result w i (fileUrl jd)) as [extracted|]; [|exact E].
  destruct (generate_result w i (prompt extracted) "gpt-4o-mini") as [text|]; [|exact E].
  destruct (JSON_parse text); [|exact E].
  assert (F : filled {| id := id jd; filename := filename jd; fileUrl := fileUrl jd;
                        fileType := fileType jd; fileSize := fileSize jd;
                        status := analyzed; uploadedAt := uploadedAt jd;
                        analyzedAt := Some (toISOString (task_clock w i));
                        extractedContent := Some extracted;
                        analysisResults := Some j |})
    by (repeat split; discriminate).
  split; [|split]; simpl; try discriminate; auto.
Qed.

Lemma step_preserves_inv (c c' : Config) : step c c' -> config_inv c -> config_inv c'.
Proof.
  intros Hstep [Hjobs Hfly].
  destruct Hstep as [c b | c w file Hacc | c i | c Hne | c w before after snapshot Hsnap | c];
    split; cbn [cstate inflight]; try exact Hfly; try exact Hjobs.
  - unfold exec. rewrite uploadFile_run. cbn [calls state events fst].
    destruct (upload_result w 1 file _) as [url|]; cbn; [|exact Hjobs].
    apply Forall_app; split; [exact Hjobs|].
    constructor; [apply newJobDescription_inv | constructor].
  - cbn. apply Forall_forall. intros jd Hin. apply filter_In in Hin.
    rewrite Forall_forall in Hjobs. apply Hjobs, Hin.
  - cbn. apply Forall_forall. intros jd Hin. apply in_map_iff in Hin.
    destruct Hin as (jd0 & <- & Hin0). rewrite Forall_forall in Hjobs.
    apply with_status_inv; [now apply Hjobs | discriminate | discriminate].
  - constructor; assumption.
  - rewrite exec_analysis_settle. cbn [fst jobDescriptions].
    rewrite Hsnap in Hfly. apply Forall_app in Hfly. destruct Hfly as [_ Hfly].
    inversion Hfly as [|x l Hx _]; subst.
    apply mapi_from_Forall.
    intros k jd Hin. apply analyzeOne_inv. rewrite Forall_forall in Hx. now apply Hx.
  - rewrite Hsnap in Hfly. apply Forall_app in Hfly. destruct Hfly as [Hb Ha].
    inversion Ha; subst. apply Forall_app. now split.
Qed.

Lemma reachable_inv (c : Config) : reachable c -> config_inv c.
Proof.
  induction 1 as [|c c' _ IH Hstep].
  - split; constructor.
  - now apply (step_preserves_inv c c').
Qed.

(** C2, as the code has it.  In every reachable state a record with status
    uploaded carries none of the optional fields and a record with status
    analyzed carries all of them; every record carries all or none.  A task
    that fails returns its record with the status changed and nothing else:
    an error record carries whatever the record carried before the run. *)
Theorem optional_fields_in_reachable_states (c : Config) :
  reachable c ->
  Forall (fun jd =>
            (status jd = uploaded -> bare jd)
            /\ (status jd = analyzed -> filled jd)
            /\ (bare jd \/ filled jd))
         (jobDescriptions (cstate c))
  /\ (forall w i jd, status (analyzeOne w i jd) = error ->
        analyzeOne w i jd = with_status jd error).
Proof.
  intros H. split.
  - exact (proj1 (reachable_inv c H)).
  - intros w i jd. apply analyzeOne_error.
Qed.

Lemma reachable_c_failed : reachable c_failed.
Proof.
  assert (R1 : reachable c_uploaded).
  { apply (reachable_step boot); [apply reachable_boot|].
    apply (step_uploadFile boot sample_world pdf_file). reflexivity. }
  assert (R2 : reachable c_running).
  { apply (reachable_step c_uploaded); [exact R1|].
    apply (step_begin c_uploaded). discriminate. }
  assert (R3 : reachable c_analyzed).
  { apply (reachable_step c_running); [exact R2|].
    apply (step_settle c_running sample_world [] [] (jobDescriptions (cstate c_uploaded))).
    reflexivity. }
  assert (R4 : reachable c_rerunning).
  { apply (reachable_step c_analyzed); [exact R3|].
    apply (step_begin c_analyzed). discriminate. }
  apply (reachable_step c_rerunning); [exact R4|].
  apply (step_settle c_rerunning later_world [] [] (jobDescriptions (cstate c_analyzed))).
  reflexivity.
Qed.

Lemma optional_fields_in_reachable_states_witness :
  reachable c_failed
  /\ Forall (fun jd => bare jd \/ filled jd) (jobDescriptions (cstate c_failed)).
Proof.
  split.
  - exact reachable_c_failed.
  - eapply Forall_impl;
      [| exact (proj1 (optional_fields_in_reachable_states c_failed reachable_c_failed))].
    intros jd (_ & _ & H). exact H.
Defined.

Example c_failed_record :
  map (fun jd => (status jd, analyzedAt jd, analysisResults jd))
      (jobDescriptions (cstate c_failed))
  = [(error, Some "2023-11-14T22:14:20.000Z", Some (JObject []))].
Proof. reflexivity. Qed.

(** C2, as stated, fails: after a successful analysis and a second run whose
    inference fails, the working set holds an error record that still
    carries [analyzedAt] and [analysisResults]. *)
Lemma stale_analysis_on_error_record :
  reachable c_failed
  /\ ~ Forall fields_follow_status (jobDescriptions (cstate c_failed)).
Proof.
  split; [exact reachable_c_failed|].
  intros H. inversion H as [|jd l Hjd _ E]; subst.
  destruct Hjd as [Hat _]; discriminate.
Qed.

(** ** Uploads *)

Lemma forEach_cons {A} (x : A) (l : list A) (body : A -> M unit) (s : Sys) :
  snd (forEach (x :: l) body s) = snd (forEach l body (snd (body x s))).
Proof.
  simpl. unfold bind. destruct (body x s) as [u s']. reflexivity.
Qed.

Lemma filter_idempotent {A} (f : A -> bool) (l : list A) :
  filter f (filter f l) = filter f l.
Proof.
  induction l as [|x l IH]; simpl; [reflexivity|].
  destruct (f x) eqn:E; simpl; [rewrite E; now f_equal | exact IH].
Qed.

Lemma Forall2_In_r {A B} (P : A -> B -> Prop) (l : list A) (l' : list B) :
  Forall2 P l l' -> forall y, In y l' -> exists x, In x l /\ P x y.
Proof.
  induction 1 as [|x y l l' Hxy _ IH]; intros z Hz; [destruct Hz|].
  destruct Hz as [<- | Hz].
  - exists x. split; [now left | exact Hxy].
  - destruct (IH z Hz) as (x' & Hin & Hp). exists x'. split; [now right | exact Hp].
Qed.

(** What the loop of [handleFiles] does to the working set and to the log,
    whatever the storage answers. *)
Lemma upload_loop (w : World) (fs : list File) :
  forall s : Sys,
    let s' := snd (forEach fs (uploadFile w) s) in
    exists news evs,
      state s' = update_jobDescriptions (fun prev => (prev ++ news)%list) (state s)
      /\ length news <= length fs
      /\ Forall (fun jd => exists file, In file fs /\ made_from file jd) news
      /\ events s' = (events s ++ evs)%list
      /\ Forall2 per_file_toast fs (toasts evs)
      /\ uploads evs = fs.
Proof.
  induction fs as [|file fs IH]; intros s; cbn zeta.
  - exists [], []. repeat split.
    + cbn. unfold update_jobDescriptions. destruct (state s); cbn. now rewrite app_nil_r.
    + constructor.
    + constructor.
    + cbn. now rewrite app_nil_r.
    + constructor.
  - rewrite forEach_cons.
    destruct (IH (snd (uploadFile w file s))) as (news & evs & Hst & Hlen & Hmade & Hev & Hto & Hup).
    cbn zeta in Hst, Hev. rewrite Hst, Hev, uploadFile_run.
    assert (Hweak : Forall (fun jd => exists f, In f (file :: fs) /\ made_from f jd) news).
    { eapply Forall_impl; [|exact Hmade]. intros jd (f & Hin & Hf). exists f. split; [now right | exact Hf]. }
    destruct (upload_result w (S (calls s)) file (upload_path w (calls s) file)) as [url|];
      cbn [state events].
    + exists (newJobDescription file url (clock w (S (S (calls s))))
                (clock w (S (S (S (calls s))))) :: news),
             ([EUpload file (upload_path w (calls s) file)]
                ++ [EToast (uploadedToast file)] ++ evs)%list.
      repeat split.
      * unfold update_jobDescriptions. cbn. now rewrite <- app_assoc.
      * cbn. lia.
      * constructor; [|exact Hweak]. exists file. split; [now left | repeat split].
      * now rewrite <- !app_assoc.
      * cbn. constructor; [now left | exact Hto].
      * cbn. now f_equal.
    + exists news,
             ([EUpload file (upload_path w (calls s) file)]
                ++ [EToast (uploadFailed file)] ++ evs)%list.
      repeat split.
      * cbn. lia.
      * exact Hweak.
      * now rewrite <- !app_assoc.
      * cbn. constructor; [now right | exact Hto].
      * cbn. now f_equal.
Qed.

Lemma isAccepted_allow_list (file : File) :
  isAccepted file = true <-> In (type file) allow_list.
Proof.
  unfold isAccepted, allow_list. rewrite !orb_true_iff, !String.eqb_eq. simpl.
  intuition congruence.
Qed.

Lemma per_file_toast_not_batch (file : File) (t : Toast) :
  per_file_toast file t -> t <> invalidFormat.
Proof. intros [-> | ->]; discriminate. Qed.

Lemma In_toasts (t : Toast) (ev : list Event) : In (EToast t) ev -> In t (toasts ev).
Proof.
  intros H. unfold toasts. apply in_flat_map. exists (EToast t). split; [exact H | now left].
Qed.

Lemma on_allow_list_In (file : File) :
  on_allow_list file = true <-> In (type file) allow_list.
Proof.
  unfold on_allow_list. destruct (in_dec string_dec (type file) allow_list); split;
    intros H; [assumption | reflexivity | discriminate | contradiction].
Qed.

Lemma isAccepted_on_allow_list (file : File) : isAccepted file = on_allow_list file.
Proof.
  destruct (on_allow_list file) eqn:E.
  - apply isAccepted_allow_list. now apply on_allow_list_In.
  - destruct (isAccepted file) eqn:E'; [|reflexivity].
    apply isAccepted_allow_list, on_allow_list_In in E'. congruence.
Qed.

Lemma validFiles_accepted_subset (files : list File) :
  filter isAccepted files = accepted_subset files.
Proof. apply filter_ext. intros file. apply isAccepted_on_allow_list. Qed.

(** C3. Whatever the batch and the storage do, with the accepted subset
    taken as the files of the batch whose media type is PDF, legacy Word or
    OOXML Word: the handler behaves as on the accepted subset alone, so a
    file outside the allow-list leaves no trace; every record added comes
    from a file of the accepted subset, at most one per accepted file; when
    the accepted subset is empty the state is unchanged, no upload is
    attempted and the log holds the batch warning and nothing else;
    otherwise (as soon as one file of the batch has a media type of the
    allow-list) the batch warning is not issued, each accepted file is
    uploaded once and gets one notification of its own, in order. *)
Theorem handleFiles_allow_list (w : World) (files : list File) (st : State) :
  let valid := accepted_subset files in
  let st' := fst (exec (handleFiles w files) st) in
  let ev := snd (exec (handleFiles w files) st) in
  exec (handleFiles w files) st = exec (handleFiles w valid) st
  /\ (forall file, In file valid <-> In file files /\ In (type file) allow_list)
  /\ (exists news,
        jobDescriptions st' = (jobDescriptions st ++ news)%list
        /\ length news <= length valid
        /\ Forall (fun jd => In (fileType jd) allow_list
                            /\ exists file,
                                 In file files /\ In (type file) allow_list
                                 /\ made_from file jd) news)
  /\ match valid with
     | [] => st' = st /\ ev = [EToast invalidFormat] /\ uploads ev = []
     | _ :: _ =>
         ~ In (EToast invalidFormat) ev
         /\ Forall2 per_file_toast valid (toasts ev)
         /\ uploads ev = valid
     end
  /\ ((exists file, In file files /\ In (type file) allow_list)
      <-> ~ In (EToast invalidFormat) ev).
Proof.
  intros valid st' ev.
  assert (Hvalid : filter isAccepted files = valid) by apply validFiles_accepted_subset.
  assert (Hmem : forall file, In file valid <-> In file files /\ In (type file) allow_list).
  { intros file. subst valid. unfold accepted_subset.
    rewrite filter_In, on_allow_list_In. reflexivity. }
  assert (Hlog : match valid with
                 | [] => st' = st /\ ev = [EToast invalidFormat] /\ uploads ev = []
                 | _ :: _ =>
                     ~ In (EToast invalidFormat) ev
                     /\ Forall2 per_file_toast valid (toasts ev)
                     /\ uploads ev = valid
                 end).
  { subst st' ev. unfold exec, handleFiles. rewrite Hvalid, length_zero_eqb.
    destruct valid as [|f0 fs] eqn:E.
    + cbn. repeat split.
    + unfold bind, setUploading, modify. cbn [snd fst].
      match goal with
      | |- context [forEach (f0 :: fs) (uploadFile w) ?s0] =>
          destruct (upload_loop w (f0 :: fs) s0) as (news & evs & _ & _ & _ & Hev & Hto & Hup);
          destruct (forEach (f0 :: fs) (uploadFile w) s0) as [u s1]
      end.
      cbn [snd events] in Hev. cbn [snd fst events]. rewrite Hev. cbn [app].
      repeat split; [|exact Hto|exact Hup].
      intros Hin. apply In_toasts in Hin.
      destruct (Forall2_In_r _ _ _ Hto _ Hin) as (file & _ & Hfile).
      now apply (per_file_toast_not_batch file invalidFormat). }
  split; [|split; [exact Hmem|split; [|split; [exact Hlog|]]]].
  - unfold handleFiles. rewrite Hvalid.
    replace (filter isAccepted valid) with valid; [reflexivity|].
    subst valid. rewrite <- Hvalid. symmetry. apply filter_idempotent.
  - subst st'. unfold exec, handleFiles. rewrite Hvalid, length_zero_eqb.
    destruct valid as [|f0 fs] eqn:E.
    + exists []. cbn. rewrite app_nil_r. repeat split; [lia | constructor].
    + unfold bind, setUploading, modify. cbn [snd fst].
      match goal with
      | |- context [forEach (f0 :: fs) (uploadFile w) ?s0] =>
          destruct (upload_loop w (f0 :: fs) s0) as (news & evs & Hst & Hlen & Hmade & _);
          destruct (forEach (f0 :: fs) (uploadFile w) s0) as [u s1]
      end.
      cbn [snd] in Hst. cbn [snd fst state]. rewrite Hst. cbn.
      exists news. repeat split; [exact Hlen|].
      eapply Forall_impl; [|exact Hmade].
      intros jd (file & Hin & Hfile).
      apply Hmem in Hin. destruct Hin as [Hin Hty]. split.
      * destruct Hfile as (_ & -> & _). exact Hty.
      * exists file. tauto.
  - destruct valid as [|f0 fs] eqn:E.
    + destruct Hlog as (_ & Hev & _). split.
      * intros (file & Hin & Hty). destruct (proj2 (Hmem file) (conj Hin Hty)).
      * intros Hno. exfalso. apply Hno. rewrite Hev. now left.
    + destruct Hlog as (Hno & _). split; [intros _; exact Hno|].
      intros _. exists f0. apply Hmem. now left.
Qed.

Example mixed_batch :
  let run := exec (handleFiles sample_world [pdf_file; png_file; doc_file]) initial in
  map filename (jobDescriptions (fst run)) = ["engineer.pdf"; "nurse.doc"]
  /\ toasts (snd run) = [uploadedToast pdf_file; uploadedToast doc_file]
  /\ uploads (snd run) = [pdf_file; doc_file].
Proof. repeat split. Qed.

Example rejected_batch :
  exec (handleFiles sample_world [png_file]) initial = (initial, [EToast invalidFormat]).
Proof. reflexivity. Qed.

Example word_batch :
  let docx := {| name := "teacher.docx";
                 type := "application/vnd.openxmlformats-officedocument.wordprocessingml.document";
                 size := 4096 |} in
  let run := exec (handleFiles sample_world [png_file; docx; doc_file; png_file]) initial in
  accepted_subset [png_file; docx; doc_file; png_file] = [docx; doc_file]
  /\ map filename (jobDescriptions (fst run)) = ["teacher.docx"; "nurse.doc"]
  /\ toasts (snd run) = [uploadedToast docx; uploadedToast doc_file]
  /\ uploads (snd run) = [docx; doc_file].
Proof. vm_compute. repeat split. Qed.

(** ** Record ids *)

(** The handler on a batch with an accepted file, in terms of its loop. *)
Lemma exec_handleFiles_accepted
  (w : World) (files : list File) (f0 : File) (fs : list File) (st : State) :
  filter isAccepted files = f0 :: fs ->
  exec (handleFiles w files) st =
    let s1 := snd (forEach (f0 :: fs) (uploadFile w)
                     {| state := {| jobDescriptions := jobDescriptions st;
                                    uploading := true;
                                    analyzing := analyzing st;
                                    currentView := currentView st |};
                        calls := 0; events := [] |}) in
    ({| jobDescriptions := jobDescriptions (state s1);
        uploading := false;
        analyzing := analyzing (state s1);
        currentView := currentView (state s1) |},
     events s1).
Proof.
  intros E. unfold exec, handleFiles. rewrite E. cbn [length Nat.eqb].
  unfold bind, setUploading, modify. cbn [snd fst state calls events].
  destruct (forEach (f0 :: fs) (uploadFile w) _) as [u s1]. reflexivity.
Qed.

Lemma exec_deleteJobDescription (i : string) (st : State) :
  exec (deleteJobDescription i) st =
    (update_jobDescriptions (filter (fun jd => negb (id jd =? i))) st,
     [EToast fileDeleted]).
Proof. reflexivity. Qed.

Lemma filter_length_count {A} (f : A -> bool) (l : list A) :
  length l = length (filter f l) + length (filter (fun x => negb (f x)) l).
Proof.
  induction l as [|x l IH]; simpl; [reflexivity|].
  destruct (f x); simpl; lia.
Qed.

(** C10. The id of a record is the decimal form of the clock read when the
    record is built.  When two accepted files of one batch are uploaded with
    success and the two reads return the same millisecond, the two records
    added have the same id (and are two records as soon as the files differ
    in name); deleting that id removes both.  In general a deletion keeps
    the records with another id, in order, and removes every record with
    that id, however many there are. *)
Theorem same_millisecond_same_id
  (w : World) (f1 f2 : File) (u1 u2 : string) (st : State) :
  isAccepted f1 = true ->
  isAccepted f2 = true ->
  upload_result w 1 f1 (upload_path w 0 f1) = Some u1 ->
  upload_result w 5 f2 (upload_path w 4 f2) = Some u2 ->
  clock w 2 = clock w 6 ->
  let r1 := newJobDescription f1 u1 (clock w 2) (clock w 3) in
  let r2 := newJobDescription f2 u2 (clock w 6) (clock w 7) in
  let st' := fst (exec (handleFiles w [f1; f2]) st) in
  jobDescriptions st' = (jobDescriptions st ++ [r1; r2])%list
  /\ id r1 = Z_toString (clock w 2)
  /\ id r1 = id r2
  /\ (name f1 <> name f2 -> r1 <> r2)
  /\ jobDescriptions (fst (exec (deleteJobDescription (id r1)) st'))
     = filter (fun jd => negb (id jd =? id r1)) (jobDescriptions st)
  /\ (forall (i : string) (st0 : State),
        let kept := jobDescriptions (fst (exec (deleteJobDescription i) st0)) in
        kept = filter (fun jd => negb (id jd =? i)) (jobDescriptions st0)
        /\ Forall (fun jd => id jd <> i) kept
        /\ length (jobDescriptions st0)
           = length kept + length (filter (fun jd => id jd =? i) (jobDescriptions st0))).
Proof.
  intros A1 A2 U1 U2 Hclock r1 r2 st'.
  assert (Hjobs : jobDescriptions st' = (jobDescriptions st ++ [r1; r2])%list).
  { subst st'. rewrite (exec_handleFiles_accepted w [f1; f2] f1 [f2] st)
      by (cbn [filter]; now rewrite A1, A2).
    cbn zeta. cbn [fst jobDescriptions].
    rewrite forEach_cons, uploadFile_run. cbn [calls]. rewrite U1.
    rewrite forEach_cons, uploadFile_run. cbn [calls]. rewrite U2.
    cbn. now rewrite <- app_assoc. }
  assert (Hid : id r1 = id r2) by (cbn; now rewrite Hclock).
  split; [exact Hjobs|]. split; [reflexivity|]. split; [exact Hid|]. split; [|split].
  - intros Hname E. apply Hname. exact (f_equal filename E).
  - rewrite exec_deleteJobDescription. cbn [fst update_jobDescriptions jobDescriptions].
    rewrite Hjobs, filter_app. cbn [filter]. rewrite <- Hid, String.eqb_refl.
    cbn. now rewrite app_nil_r.
  - intros i st0 kept. subst kept. rewrite exec_deleteJobDescription.
    cbn [fst update_jobDescriptions jobDescriptions]. split; [reflexivity|]. split.
    + apply Forall_forall. intros jd Hin. apply filter_In in Hin.
      destruct Hin as [_ Hne]. apply negb_true_iff in Hne. now apply String.eqb_neq.
    + rewrite (filter_length_count (fun jd => id jd =? i) (jobDescriptions st0)). lia.
Qed.

Lemma same_millisecond_same_id_witness :
  clock sample_world 2 = clock sample_world 6
  /\ map id (jobDescriptions two_uploaded) = ["1700000000000"; "1700000000000"]
  /\ jobDescriptions (fst (exec (deleteJobDescription "1700000000000") two_uploaded)) = [].
Proof.
  destruct (same_millisecond_same_id sample_world pdf_file doc_file
              "https://storage.example/job-descriptions/1700000000000-engineer.pdf"
              "https://storage.example/job-descriptions/1700000000000-nurse.doc"
              initial eq_refl eq_refl eq_refl eq_refl eq_refl)
    as (Hjobs & _ & _ & _ & Hdel & _).
  split; [reflexivity|]. split; [reflexivity|].
  etransitivity; [|etransitivity; [exact Hdel|]]; vm_compute; reflexivity.
Defined.

(** ** The handlers run through the transitions *)

Lemma with_state_same (c : Config) : with_state c (cstate c) = c.
Proof. now destruct c. Qed.

Lemma uploadFile_later (w : World) (file : File) (s : Sys) :
  state (snd (uploadFile w file s)) = fst (exec (uploadFile (later (calls s) w) file) (state s)).
Proof.
  unfold exec. rewrite !uploadFile_run. unfold upload_path.
  cbn [calls state later clock upload_result fst snd].
  rewrite Nat.add_0_r, Nat.add_1_r.
  destruct (upload_result w (S (calls s)) file _); cbn [state]; [|reflexivity].
  now rewrite !Nat.add_succ_r, Nat.add_0_r.
Qed.

Lemma upload_loop_reachable (w : World) (fs : list File) (c : Config) :
  Forall (fun file => isAccepted file = true) fs ->
  forall s : Sys,
    reachable (with_state c (state s)) ->
    reachable (with_state c (state (snd (forEach fs (uploadFile w) s)))).
Proof.
  intros Hacc. induction Hacc as [|file fs Hfile _ IH]; intros s Hs; [exact Hs|].
  rewrite forEach_cons. apply IH. rewrite uploadFile_later.
  apply (reachable_step (with_state c (state s))); [exact Hs|].
  apply (step_uploadFile (with_state c (state s)) (later (calls s) w) file Hfile).
Qed.

(** Every state a run of [handleFiles] passes through, and the one it ends
    in, is reachable. *)
Lemma handleFiles_reachable (w : World) (files : list File) (c : Config) :
  reachable c -> reachable (with_state c (fst (exec (handleFiles w files) (cstate c)))).
Proof.
  intros Hc. destruct (filter isAccepted files) as [|f0 fs] eqn:E.
  - unfold exec, handleFiles. rewrite E. cbn. now rewrite with_state_same.
  - rewrite (exec_handleFiles_accepted w files f0 fs (cstate c) E). cbn zeta. cbn [fst].
    match goal with
    | |- context [forEach (f0 :: fs) (uploadFile w) ?s0] =>
        assert (Hloop : reachable (with_state c (state (snd (forEach (f0 :: fs) (uploadFile w) s0)))))
    end.
    { apply upload_loop_reachable.
      - rewrite <- E. apply Forall_forall. intros file Hin. now apply filter_In in Hin.
      - apply (reachable_step c); [exact Hc | apply (step_uploading c true)]. }
    match type of Hloop with
    | reachable ?c1 => exact (reachable_step c1 _ Hloop (step_uploading c1 false))
    end.
Qed.

Lemma deleteJobDescription_reachable (i : string) (c : Config) :
  reachable c -> reachable (with_state c (fst (exec (deleteJobDescription i) (cstate c)))).
Proof. intros Hc. apply (reachable_step c); [exact Hc | apply step_delete]. Qed.

(** A run of [analyzeJobDescriptions] that nothing interleaves with. *)
Lemma analyzeJobDescriptions_reachable (w : World) (c : Config) :
  reachable c ->
  reachable (with_state c (fst (exec (analyzeJobDescriptions w) (cstate c)))).
Proof.
  intros Hc. destruct (jobDescriptions (cstate c)) as [|jd l] eqn:E.
  - replace (fst (exec (analyzeJobDescriptions w) (cstate c))) with (cstate c).
    + now rewrite with_state_same.
    + unfold exec, analyzeJobDescriptions, bind, getJobDescriptions.
      cbn [fst snd state]. now rewrite E.
  - rewrite exec_analyzeJobDescriptions by (rewrite E; discriminate).
    cbn [fst].
    assert (Hrun : reachable {| cstate := fst (exec analysis_begin (cstate c));
                                inflight := jobDescriptions (cstate c) :: inflight c |}).
    { apply (reachable_step c); [exact Hc|].
      apply step_begin. rewrite E. discriminate. }
    match type of Hrun with
    | reachable ?c1 =>
        exact (reachable_step c1 _ Hrun
                 (step_settle c1 w [] (inflight c) (jobDescriptions (cstate c)) eq_refl))
    end.
Qed.

(** ** The placeholder table *)

Lemma columnNames_length : length columnNames = 39.
Proof. reflexivity. Qed.

Lemma columnNames_NoDup : NoDup columnNames.
Proof.
  replace columnNames with (nodup string_dec columnNames) by (now vm_compute).
  apply NoDup_nodup.
Qed.

Lemma tableRow_keys (today : string) (job : JobDescription) :
  map fst (tableRow today job) = columnNames.
Proof. reflexivity. Qed.

(** Looking a row up under its own keys, when no key occurs twice. *)
Lemma prop_own_keys (row : Row) :
  NoDup (map fst row) -> map (prop row) (map fst row) = map (fun kv => Some (snd kv)) row.
Proof.
  induction row as [|[k v] row IH]; intros Hnd; [reflexivity|].
  inversion Hnd as [|k0 l Hnotin Hnd']; subst. cbn [map fst snd prop].
  rewrite String.eqb_refl. f_equal.
  rewrite <- (IH Hnd'). apply map_ext_in. intros col Hcol.
  destruct (String.eqb_spec k col) as [->|_]; [contradiction | reflexivity].
Qed.

Lemma orElse_empty (v : string) : orElse (Some v) EmptyString = v.
Proof.
  unfold orElse. destruct (String.eqb_spec v EmptyString) as [->|_]; reflexivity.
Qed.

Lemma csvCell_wrap (row : Row) (col : string) :
  csvCell row col = wrap (match prop row col with Some v => v | None => EmptyString end).
Proof.
  unfold csvCell, wrap. destruct (prop row col) as [v|]; [|reflexivity].
  now rewrite orElse_empty.
Qed.

Lemma values_of_own_keys (row : Row) :
  map fst row = columnNames -> values_of row = map snd row.
Proof.
  intros Hkeys. unfold values_of.
  rewrite <- (map_map (prop row) (fun o => match o with Some v => v | None => EmptyString end)).
  rewrite <- Hkeys at 1. rewrite prop_own_keys by (rewrite Hkeys; apply columnNames_NoDup).
  now rewrite map_map.
Qed.

Lemma append_empty_r (a : string) : a ++ EmptyString = a.
Proof. induction a as [|c a IH]; [reflexivity|]. cbn. now rewrite IH. Qed.

Lemma join_separated (sep : string) (l : list string) : join sep l = separated sep l.
Proof.
  unfold join. destruct l as [|x l]; [reflexivity|]. revert x.
  induction l as [|y l IH]; intros x.
  - cbn. now rewrite append_empty_r.
  - change (String.concat sep (x :: y :: l)) with (x ++ sep ++ String.concat sep (y :: l)).
    rewrite IH. reflexivity.
Qed.

Lemma csvContent_text (tableData : list Row) :
  csvContent tableData = csv_text columnNames (map values_of tableData).
Proof.
  unfold csvContent, csv_text. rewrite !join_separated.
  replace (map (fun row => join "," (map (csvCell row) columnNames)) tableData)
    with (map quoted_line (map values_of tableData)); [reflexivity|].
  rewrite map_map. apply map_ext. intros row. unfold quoted_line.
  rewrite join_separated. f_equal. unfold values_of. rewrite map_map.
  apply map_ext. intros col. symmetry. apply csvCell_wrap.
Qed.

Lemma tableData_length (w : World) (jds : list JobDescription) :
  length (tableData w jds) = length (filter isAnalyzed jds).
Proof. apply mapi_from_length. Qed.

Lemma tableData_nth (w : World) (jds : list JobDescription) (i : nat) :
  nth_error (tableData w jds) i
  = option_map (tableRow (toLocaleDateString w (clock w i)))
               (nth_error (filter isAnalyzed jds) i).
Proof. unfold tableData, mapi. now rewrite mapi_from_nth. Qed.

Lemma tableData_keys (w : World) (jds : list JobDescription) :
  Forall (fun row => map fst row = columnNames) (tableData w jds).
Proof. apply mapi_from_Forall. intros i job _. apply tableRow_keys. Qed.

Lemma contents_downloadCSV (c : World) (rows : list Row) :
  contents (downloadCSV c rows)
  = if (length rows =? 0)%nat then []
    else if link_download_defined c then [csvContent rows] else [].
Proof.
  unfold downloadCSV. destruct (length rows =? 0)%nat; [reflexivity|].
  destruct (link_download_defined c); reflexivity.
Qed.

Lemma contents_downloadJSON (c : World) (rows : list Row) :
  contents (downloadJSON c rows)
  = if (length rows =? 0)%nat then []
    else if link_download_defined c then [jsonContent rows] else [].
Proof.
  unfold downloadJSON. destruct (length rows =? 0)%nat; [reflexivity|].
  destruct (link_download_defined c); reflexivity.
Qed.

(** C5. With at least one analysed record the CSV export builds one text
    and hands it over as one file (when the browser supports the download
    attribute; it hands over nothing otherwise).  The text is the column
    names with commas between them (the header line, written out), a
    newline, and one line per analysed record, in order, with newlines
    between the lines; a line is that record's value for each column of the
    schema, in the schema's order, each wrapped in double quotes, with
    commas between the wrapped values; a value that is missing is the empty
    string between the quotes. *)
Theorem csv_export_layout (w c : World) (jds : list JobDescription) :
  filter isAnalyzed jds <> [] ->
  let analyzedJobs := filter isAnalyzed jds in
  let rows := tableData w jds in
  contents (downloadCSV c rows) = (if link_download_defined c then [csvContent rows] else [])
  /\ csvContent rows = csv_text columnNames (map values_of rows)
  /\ (exists lines,
        csvContent rows = header_line ++ nl ++ separated nl lines
        /\ length lines = length analyzedJobs
        /\ forall i job, nth_error analyzedJobs i = Some job ->
             exists values,
               nth_error lines i = Some (separated "," (map wrap values))
               /\ length values = 39
               /\ values = map snd (tableRow (toLocaleDateString w (clock w i)) job)
               /\ nth_error values 0 = Some (filename job))
  /\ length rows = length analyzedJobs
  /\ (forall i job, nth_error analyzedJobs i = Some job ->
        option_map values_of (nth_error rows i)
        = Some (map snd (tableRow (toLocaleDateString w (clock w i)) job)))
  /\ (forall row col, prop row col = None -> csvCell row col = wrap EmptyString).
Proof.
  intros Hne analyzedJobs rows.
  assert (Hlen : length rows = length analyzedJobs) by apply tableData_length.
  assert (Hvalues : forall i job, nth_error analyzedJobs i = Some job ->
            option_map values_of (nth_error rows i)
            = Some (map snd (tableRow (toLocaleDateString w (clock w i)) job))).
  { intros i job Hjob. subst rows. rewrite tableData_nth. fold analyzedJobs.
    rewrite Hjob. cbn [option_map].
    now rewrite values_of_own_keys by apply tableRow_keys. }
  split; [|split; [apply csvContent_text|split; [|split; [exact Hlen|split; [exact Hvalues|]]]]].
  - rewrite contents_downloadCSV, length_zero_eqb.
    destruct rows as [|r rows']; [|reflexivity].
    exfalso. subst analyzedJobs.
    destruct (filter isAnalyzed jds); [now apply Hne | discriminate Hlen].
  - exists (map quoted_line (map values_of rows)). split; [|split].
    + rewrite csvContent_text. reflexivity.
    + now rewrite !length_map.
    + intros i job Hjob.
      exists (map snd (tableRow (toLocaleDateString w (clock w i)) job)).
      split; [|split; [reflexivity|split; reflexivity]].
      rewrite nth_error_map, nth_error_map, (Hvalues i job Hjob). reflexivity.
  - intros row col Hnone. now rewrite csvCell_wrap, Hnone.
Qed.

Lemma csv_export_layout_witness :
  filter isAnalyzed (jobDescriptions two_analyzed) <> []
  /\ contents (downloadCSV sample_world (tableData sample_world (jobDescriptions two_analyzed)))
     = [header_line ++ nl
          ++ wrap "engineer.pdf"
          ++ "," ++ wrap "Software Engineer"
          ++ "," ++ wrap "Engineering Manager"
          ++ "," ++ wrap "Tech Corporation"
          ++ "," ++ wrap "L3"
          ++ "," ++ wrap "ENG-001"
          ++ "," ++ wrap "Exempt"
          ++ "," ++ wrap "Engineering"
          ++ "," ++ wrap "11/14/2023"
          ++ "," ++ wrap "Develop and maintain software applications"
          ++ "," ++ wrap "Write code, debug issues, collaborate with team"
          ++ "," ++ wrap "Code development, testing, documentation"
          ++ "," ++ wrap "80%"
          ++ "," ++ wrap "Participate in CI/CD processes"
          ++ "," ++ wrap "Monitor system performance"
          ++ "," ++ wrap "Attend meetings, training"
          ++ "," ++ wrap "None"
          ++ "," ++ wrap "Direct supervision"
          ++ "," ++ wrap "Bachelor's degree, 3+ years"
          ++ "," ++ wrap "None required"
          ++ "," ++ wrap "N/A"
          ++ "," ++ wrap "N/A"
          ++ "," ++ wrap "N/A"
          ++ "," ++ wrap "N/A"
          ++ "," ++ wrap "Sitting, typing"
          ++ "," ++ wrap "Frequent"
          ++ "," ++ wrap "Office environment"
          ++ "," ++ wrap "Indoor"
          ++ "," ++ wrap "Programming, problem-solving"
          ++ "," ++ wrap "High concentration required"
          ++ "," ++ wrap "Constant"
          ++ "," ++ wrap "Sitting, typing"
          ++ "," ++ wrap "Continuous"
          ++ "," ++ wrap "Light physical activity"
          ++ "," ++ wrap "Occasional"
          ++ "," ++ wrap "Able to sit for extended periods"
          ++ "," ++ wrap "Office setting"
          ++ "," ++ wrap "Computer work"
          ++ "," ++ wrap "Daily"].
Proof.
  split; [discriminate|].
  destruct (csv_export_layout sample_world sample_world (jobDescriptions two_analyzed))
    as (Hfile & Htext & _); [discriminate|].
  rewrite Hfile, Htext. vm_compute. reflexivity.
Defined.

(** ** What the exports depend on *)

Lemma tableRow_filename (today : string) (job job' : JobDescription) :
  filename job = filename job' -> tableRow today job = tableRow today job'.
Proof. intros H. unfold tableRow. now rewrite H. Qed.

Lemma table_rows_ext (d1 d2 : nat -> string) (l1 : list JobDescription) :
  forall (l2 : list JobDescription) (k : nat),
    map filename l1 = map filename l2 ->
    (forall i, i < length l1 -> d1 (k + i) = d2 (k + i)) ->
    mapi_from k (fun i job => tableRow (d1 i) job) l1
    = mapi_from k (fun i job => tableRow (d2 i) job) l2.
Proof.
  induction l1 as [|job l1 IH]; intros [|job' l2] k Hnames Hdates;
    try discriminate; [reflexivity|].
  injection Hnames as Hname Hnames. cbn [mapi_from]. f_equal.
  - specialize (Hdates 0). rewrite Nat.add_0_r in Hdates.
    rewrite Hdates by (cbn; lia). now apply tableRow_filename.
  - apply IH; [exact Hnames|].
    intros i Hi. specialize (Hdates (S i)). rewrite Nat.add_succ_r in Hdates.
    apply Hdates. cbn. lia.
Qed.

Lemma tableData_ext (w1 w2 : World) (jds1 jds2 : list JobDescription) :
  map filename (filter isAnalyzed jds1) = map filename (filter isAnalyzed jds2) ->
  (forall i, i < length (filter isAnalyzed jds1) -> render_date w1 i = render_date w2 i) ->
  tableData w1 jds1 = tableData w2 jds2.
Proof.
  intros Hnames Hdates. unfold tableData, mapi.
  apply (table_rows_ext (render_date w1) (render_date w2)); assumption.
Qed.

(** C6, as the code has it.  Two exports of the same analysed records hand
    over the same bytes, in CSV and in JSON, whenever the two renders they
    are made from read the same locale date for each row; the records that
    are not analysed, the rest of the state and the clock read for the file
    name when the button is clicked have no influence on the contents. *)
Theorem export_contents_deterministic
  (w1 w2 c1 c2 : World) (jds1 jds2 : list JobDescription) :
  filter isAnalyzed jds1 = filter isAnalyzed jds2 ->
  (forall i, i < length (filter isAnalyzed jds1) -> render_date w1 i = render_date w2 i) ->
  link_download_defined c1 = link_download_defined c2 ->
  contents (downloadCSV c1 (tableData w1 jds1)) = contents (downloadCSV c2 (tableData w2 jds2))
  /\ contents (downloadJSON c1 (tableData w1 jds1))
     = contents (downloadJSON c2 (tableData w2 jds2)).
Proof.
  intros Hsame Hdates Hdl.
  rewrite !contents_downloadCSV, !contents_downloadJSON, Hdl.
  rewrite (tableData_ext w1 w2 jds1 jds2); [split; reflexivity | now rewrite Hsame | exact Hdates].
Qed.

Lemma export_contents_deterministic_witness :
  contents (downloadCSV sample_world (tableData sample_world (jobDescriptions two_analyzed)))
  = contents (downloadCSV later_world
                (tableData sample_world (png_as_record :: jobDescriptions two_analyzed)))
  /\ length (contents (downloadCSV sample_world
                         (tableData sample_world (jobDescriptions two_analyzed)))) = 1.
Proof.
  split; [|reflexivity].
  apply (export_contents_deterministic sample_world sample_world sample_world later_world
           (jobDescriptions two_analyzed) (png_as_record :: jobDescriptions two_analyzed)).
  - reflexivity.
  - intros i _. reflexivity.
  - reflexivity.
Defined.

Lemma differs_by_eqb (a b : string) : String.eqb a b = false -> a <> b.
Proof. apply String.eqb_neq. Qed.

(** C6, as stated, fails: the same records rendered on two different days
    export different text, because the Date Reviewed column holds the date
    of the render. *)
Lemma export_contents_follow_render_date :
  ~ content_depends_on_records_only (jobDescriptions two_analyzed).
Proof.
  intros H. destruct (H sample_world later_world) as [Hcsv _].
  revert Hcsv. apply differs_by_eqb. vm_compute. reflexivity.
Qed.

Example date_reviewed_column :
  map (fun w => option_map (fun row => prop row "Date Reviewed")
                  (nth_error (tableData w (jobDescriptions two_analyzed)) 0))
      [sample_world; later_world]
  = [Some (Some "11/14/2023"); Some (Some "11/15/2023")].
Proof. reflexivity. Qed.

(** C9. Two record sets whose analysed records have the same file names in
    the same order, rendered with the same dates, give the same table, hence
    the same CSV and JSON downloads, whatever their extracted contents and
    analysis results (and every other field) are: a row depends on its
    record through the file name only. *)
Theorem exports_ignore_analysis_output
  (w1 w2 c : World) (jds1 jds2 : list JobDescription) :
  map filename (filter isAnalyzed jds1) = map filename (filter isAnalyzed jds2) ->
  (forall i, i < length (filter isAnalyzed jds1) -> render_date w1 i = render_date w2 i) ->
  tableData w1 jds1 = tableData w2 jds2
  /\ downloadCSV c (tableData w1 jds1) = downloadCSV c (tableData w2 jds2)
  /\ downloadJSON c (tableData w1 jds1) = downloadJSON c (tableData w2 jds2)
  /\ (forall today job job',
        filename job = filename job' -> tableRow today job = tableRow today job').
Proof.
  intros Hnames Hdates.
  rewrite (tableData_ext w1 w2 jds1 jds2 Hnames Hdates).
  repeat split. intros today job job'. apply tableRow_filename.
Qed.

Lemma exports_ignore_analysis_output_witness :
  map analysisResults (filter isAnalyzed (jobDescriptions two_analyzed))
  <> map analysisResults (filter isAnalyzed [another_analysis])
  /\ downloadJSON sample_world (tableData sample_world (jobDescriptions two_analyzed))
     = downloadJSON sample_world (tableData sample_world [another_analysis]).
Proof.
  split; [discriminate|].
  apply (exports_ignore_analysis_output sample_world sample_world sample_world
           (jobDescriptions two_analyzed) [another_analysis]).
  - reflexivity.
  - intros i _. reflexivity.
Defined.

(** ** Exports without analysed records *)

Lemma tableData_empty (w : World) (jds : list JobDescription) :
  filter isAnalyzed jds = [] -> tableData w jds = [].
Proof. intros H. unfold tableData. now rewrite H. Qed.

(** C8, as the code has it.  With no analysed record, none of the three
    exports produces a file and none changes the state.  [downloadResults]
    of the dashboard reports it with the notification No results to
    download.  [downloadCSV] and [downloadJSON] of the results page return
    without any notification; the page itself shows the notice No Results
    Available in place of the table and disables both export buttons. *)
Theorem exports_without_analyzed_records (w r : World) (st : State) :
  filter isAnalyzed (jobDescriptions st) = [] ->
  exec (downloadResults w) st = (st, [EToast noResults])
  /\ downloadCSV w (tableData r (jobDescriptions st)) = []
  /\ downloadJSON w (tableData r (jobDescriptions st)) = []
  /\ resultsCard (tableData r (jobDescriptions st)) = NoResultsAvailable
  /\ exportDisabled (tableData r (jobDescriptions st)) = true.
Proof.
  intros Hnone. rewrite (tableData_empty r _ Hnone). repeat split.
  unfold exec, downloadResults, bind, getJobDescriptions. cbn [fst snd state].
  rewrite Hnone. reflexivity.
Qed.

Lemma exports_without_analyzed_records_witness :
  filter isAnalyzed (jobDescriptions two_uploaded) = []
  /\ exec (downloadResults sample_world) two_uploaded = (two_uploaded, [EToast noResults])
  /\ downloadCSV sample_world (tableData sample_world (jobDescriptions two_uploaded)) = [].
Proof.
  split; [reflexivity|].
  destruct (exports_without_analyzed_records sample_world sample_world two_uploaded eq_refl)
    as (H1 & H2 & _).
  split; [exact H1 | exact H2].
Defined.

(** C8, as stated, fails on the results page: with two uploaded records and
    none analysed, [downloadCSV] issues no notification at all. *)
Lemma csv_export_of_nothing_is_silent :
  ~ empty_export_is_reported sample_world two_uploaded.
Proof.
  intros H. destruct (H eq_refl) as (_ & (_ & _ & Hcsv) & _).
  apply Hcsv. reflexivity.
Qed.

(** ** The lexer on the text [JSON.stringify] writes *)

Lemma lexes_app (m m1 m2 : lexmode) (s1 s2 : string) (ts1 ts2 : list token) :
  lexes m s1 ts1 m1 -> lexes m1 s2 ts2 m2 -> lexes m (s1 ++ s2) (ts1 ++ ts2) m2.
Proof.
  unfold lexes. revert m ts1.
  induction s1 as [|c s1 IH]; intros m ts1 H1 H2; simpl in *.
  - injection H1 as <- <-. exact H2.
  - destruct (lex_step m c) as [[ts m']|]; [|discriminate].
    destruct (lex_run m' s1) as [[ts' m'']|] eqn:E; [|discriminate].
    injection H1 as <- <-.
    rewrite (IH m' ts' E H2). now rewrite app_assoc.
Qed.

Lemma lex_of_run (m m' : lexmode) (s : string) (ts : list token) :
  lexes m s ts m' -> lex m s = option_map (app ts) (lex_end m').
Proof.
  unfold lexes. revert m ts.
  induction s as [|c s IH]; intros m ts H; simpl in *.
  - injection H as <- <-. now destruct (lex_end m).
  - destruct (lex_step m c) as [[ts0 m0]|]; [|discriminate].
    destruct (lex_run m0 s) as [[ts1 m1]|] eqn:E; [|discriminate].
    injection H as <- <-. rewrite (IH m0 ts1 E).
    destruct (lex_end m1); simpl; [now rewrite app_assoc | reflexivity].
Qed.

(** Inside a string, the escape of a character reads back as the
    character. *)
Lemma lexes_quote_char (c : ascii) (acc : list ascii) :
  lexes (LStr acc) (quote_char c) [] (LStr (c :: acc)).
Proof.
  destruct c as [[] [] [] [] [] [] [] []]; reflexivity.
Qed.

Lemma lexes_quote_body (s : string) :
  forall acc, lexes (LStr acc) (quote_body s) []
                (LStr (rev (list_ascii_of_string s) ++ acc)%list).
Proof.
  induction s as [|c s IH]; intros acc; [reflexivity|].
  cbn [quote_body list_ascii_of_string rev].
  rewrite <- app_assoc. cbn [app].
  apply (lexes_app (LStr acc) (LStr (c :: acc)) _ (quote_char c) (quote_body s) [] []);
    [apply lexes_quote_char | apply IH].
Qed.

Lemma lexes_quoted (s : string) :
  lexes LStart (QuoteJSONString s) [TString s] LStart.
Proof.
  unfold QuoteJSONString.
  change (String dquote (quote_body s ++ str1 dquote))
    with (str1 dquote ++ (quote_body s ++ str1 dquote)).
  apply (lexes_app _ (LStr []) _ _ _ [] [TString s]); [reflexivity|].
  apply (lexes_app (LStr []) (LStr (rev (list_ascii_of_string s) ++ [])%list) _
           (quote_body s) (str1 dquote) [] [TString s]); [apply lexes_quote_body|].
  unfold lexes. cbn. unfold string_of_rev.
  now rewrite app_nil_r, rev_involutive, string_of_list_ascii_of_string.
Qed.

(** Texts joined by a separator, when each text and the separator lex
    between tokens. *)
Lemma lexes_join {A} (f : A -> string) (g : A -> list token)
  (sep : string) (tsep : list token) (l : list A) :
  lexes LStart sep tsep LStart ->
  (forall x, lexes LStart (f x) (g x) LStart) ->
  lexes LStart (join sep (map f l)) (sep_tokens tsep (map g l)) LStart.
Proof.
  intros Hsep Hf. induction l as [|x l IH]; [reflexivity|].
  destruct l as [|y l]; [apply Hf|].
  change (join sep (map f (x :: y :: l)))
    with (f x ++ sep ++ join sep (map f (y :: l))).
  change (sep_tokens tsep (map g (x :: y :: l)))
    with (g x ++ tsep ++ sep_tokens tsep (map g (y :: l)))%list.
  apply lexes_app with (m1 := LStart); [apply Hf|].
  apply lexes_app with (m1 := LStart); [exact Hsep | exact IH].
Qed.

Lemma lexes_member (kv : string * string) :
  lexes LStart (QuoteJSONString (fst kv) ++ ": " ++ QuoteJSONString (snd kv))
        (member_tokens kv) LStart.
Proof.
  apply (lexes_app _ LStart _ _ _ [TString (fst kv)] [TColon; TString (snd kv)]);
    [apply lexes_quoted|].
  apply (lexes_app _ LStart _ _ _ [TColon] [TString (snd kv)]);
    [reflexivity | apply lexes_quoted].
Qed.

(** An object of the table, written at the indentation of an array
    element. *)
Lemma lexes_row (row : Row) :
  lexes LStart (stringify gap (Row_json row)) (row_tokens row) LStart.
Proof.
  unfold Row_json. destruct row as [|kv row]; [reflexivity|].
  set (r := kv :: row).
  change (stringify gap (JObject (map (fun kv => (fst kv, JString (snd kv))) r)))
    with ("{" ++ (nl ++ gap ++ gap)
              ++ join ("," ++ nl ++ gap ++ gap)
                   (map (fun kv => QuoteJSONString (fst kv) ++ ": "
                                     ++ stringify (gap ++ gap) (snd kv))
                        (map (fun kv => (fst kv, JString (snd kv))) r))
              ++ (nl ++ gap) ++ "}").
  rewrite map_map. cbn [fst snd stringify].
  unfold row_tokens.
  change (TLBrace :: sep_tokens [TComma] (map member_tokens r) ++ [TRBrace])%list
    with ([TLBrace] ++ [] ++ sep_tokens [TComma] (map member_tokens r) ++ [] ++ [TRBrace])%list.
  apply lexes_app with (m1 := LStart); [reflexivity|].
  apply lexes_app with (m1 := LStart); [reflexivity|].
  apply lexes_app with (m1 := LStart);
    [apply lexes_join; [reflexivity | apply lexes_member]|].
  apply lexes_app with (m1 := LStart); reflexivity.
Qed.

Lemma lexes_table (rows : list Row) :
  lexes LStart (jsonContent rows) (table_tokens rows) LStart.
Proof.
  unfold jsonContent, JSON_stringify. destruct rows as [|row rows]; [reflexivity|].
  set (rs := row :: rows).
  change (stringify EmptyString (JArray (map Row_json rs)))
    with ("[" ++ (nl ++ gap)
              ++ join ("," ++ nl ++ gap) (map (stringify gap) (map Row_json rs))
              ++ nl ++ "]").
  rewrite map_map. unfold table_tokens.
  change (TLBracket :: sep_tokens [TComma] (map row_tokens rs) ++ [TRBracket])%list
    with ([TLBracket] ++ [] ++ sep_tokens [TComma] (map row_tokens rs) ++ [] ++ [TRBracket])%list.
  apply lexes_app with (m1 := LStart); [reflexivity|].
  apply lexes_app with (m1 := LStart); [reflexivity|].
  apply lexes_app with (m1 := LStart);
    [apply lexes_join; [reflexivity | apply lexes_row]|].
  apply lexes_app with (m1 := LStart); reflexivity.
Qed.

Lemma lex_table (rows : list Row) : lex LStart (jsonContent rows) = Some (table_tokens rows).
Proof.
  rewrite (lex_of_run _ _ _ _ (lexes_table rows)). cbn. now rewrite app_nil_r.
Qed.

(** ** The parser on the tokens of a table *)

Lemma parse_run_app (st : pstate) (ts1 ts2 : list token) :
  parse_run st (ts1 ++ ts2) =
    match parse_run st ts1 with
    | Some st' => parse_run st' ts2
    | None => None
    end.
Proof.
  revert st. induction ts1 as [|t ts1 IH]; intros st; [reflexivity|].
  cbn [app parse_run]. destruct (parse_step st t); [apply IH | reflexivity].
Qed.

(** Assigning a new key appends the property. *)
Lemma set_member_fresh (k : string) (v : JSON) (ms : list (string * JSON)) :
  ~ In k (map fst ms) -> set_member k v ms = (ms ++ [(k, v)])%list.
Proof.
  induction ms as [|[k' v'] ms IH]; intros Hfresh; [reflexivity|].
  cbn [set_member]. cbn [map fst In] in Hfresh.
  destruct (String.eqb_spec k k') as [->|_]; [tauto|].
  rewrite IH by tauto. reflexivity.
Qed.

Lemma add_members_fresh (row : Row) :
  forall done,
    NoDup (map fst done ++ map fst row) ->
    add_members done row = (done ++ map (fun kv => (fst kv, JString (snd kv))) row)%list.
Proof.
  induction row as [|[k v] row IH]; intros done Hnd; cbn [add_members fold_left map].
  - now rewrite app_nil_r.
  - cbn [map fst snd] in Hnd.
    assert (Hfresh : ~ In k (map fst done)).
    { apply NoDup_remove_2 in Hnd. intros Hin. apply Hnd. apply in_or_app. now left. }
    rewrite set_member_fresh by exact Hfresh.
    change (add_members (done ++ [(k, JString v)]) row
            = (done ++ (k, JString v)
                 :: map (fun kv => (fst kv, JString (snd kv))) row)%list).
    rewrite IH.
    + now rewrite <- app_assoc.
    + rewrite map_app, <- app_assoc. exact Hnd.
Qed.

(** The members of a row, read after the opening brace or after a comma. *)
Lemma parse_members (row : Row) :
  forall (stk : list frame) (done : list (string * JSON)) (x : expect),
    row <> [] -> x = XFirst \/ x = XKey ->
    parse_run (FObject done None :: stk, x) (sep_tokens [TComma] (map member_tokens row))
    = Some (FObject (add_members done row) None :: stk, XNext).
Proof.
  induction row as [|[k v] row IH]; intros stk done x Hne Hx; [congruence|].
  destruct row as [|kv' row].
  - destruct Hx as [-> | ->]; reflexivity.
  - change (sep_tokens [TComma] (map member_tokens ((k, v) :: kv' :: row)))
      with ([TString k; TColon; TString v; TComma]
              ++ sep_tokens [TComma] (map member_tokens (kv' :: row)))%list.
    rewrite parse_run_app.
    replace (parse_run (FObject done None :: stk, x) [TString k; TColon; TString v; TComma])
      with (Some (FObject (set_member k (JString v) done) None :: stk, XKey))
      by (destruct Hx as [-> | ->]; reflexivity).
    rewrite IH; [reflexivity | discriminate | now right].
Qed.

Lemma parse_row (row : Row) (stk : list frame) (x : expect) (rest : list token) :
  NoDup (map fst row) ->
  x = XValue \/ (x = XFirst /\ exists done stk', stk = FArray done :: stk') ->
  parse_run (stk, x) (row_tokens row ++ rest) =
    match close_value stk (Row_json row) with
    | Some st => parse_run st rest
    | None => None
    end.
Proof.
  intros Hnd Hx. unfold row_tokens.
  assert (Hopen : parse_step (stk, x) TLBrace = Some (FObject [] None :: stk, XFirst)).
  { destruct Hx as [-> | (-> & done & stk' & ->)]; reflexivity. }
  destruct row as [|kv row].
  - cbn [map sep_tokens app parse_run]. rewrite Hopen. reflexivity.
  - set (r := kv :: row) in *.
    change ((TLBrace :: sep_tokens [TComma] (map member_tokens r) ++ [TRBrace]) ++ rest)%list
      with (TLBrace :: (sep_tokens [TComma] (map member_tokens r) ++ [TRBrace]) ++ rest)%list.
    cbn [parse_run]. rewrite Hopen. rewrite <- app_assoc, parse_run_app.
    rewrite parse_members by (subst r; first [discriminate | now left]).
    rewrite add_members_fresh by exact Hnd.
    reflexivity.
Qed.

(** The rows of an array, read after the opening bracket or after a
    comma. *)
Lemma parse_rows (rows : list Row) :
  forall (stk : list frame) (done : list JSON) (x : expect),
    rows <> [] -> x = XFirst \/ x = XValue ->
    Forall (fun row => NoDup (map fst row)) rows ->
    parse_run (FArray done :: stk, x) (sep_tokens [TComma] (map row_tokens rows))
    = Some (FArray (rev (map Row_json rows) ++ done) :: stk, XNext).
Proof.
  induction rows as [|row rows IH]; intros stk done x Hne Hx Hnd; [congruence|].
  inversion Hnd as [|row0 rows0 Hrow Hrows]; subst.
  assert (Hx' : x = XValue \/ (x = XFirst /\ exists d s, FArray done :: stk = FArray d :: s)).
  { destruct Hx as [-> | ->]; [right; split; [reflexivity | now exists done, stk] | now left]. }
  destruct rows as [|row' rows].
  - cbn [map sep_tokens]. rewrite <- (app_nil_r (row_tokens row)).
    rewrite (parse_row row _ x [] Hrow Hx'). reflexivity.
  - change (sep_tokens [TComma] (map row_tokens (row :: row' :: rows)))
      with (row_tokens row
              ++ TComma :: sep_tokens [TComma] (map row_tokens (row' :: rows)))%list.
    rewrite (parse_row row _ x _ Hrow Hx'). cbn [close_value parse_run parse_step].
    rewrite IH; [|discriminate | now right | exact Hrows].
    change (rev (map Row_json (row :: row' :: rows)))
      with (rev (map Row_json (row' :: rows)) ++ [Row_json row])%list.
    now rewrite <- app_assoc.
Qed.

Lemma parse_table (rows : list Row) :
  Forall (fun row => NoDup (map fst row)) rows ->
  parse_tokens (table_tokens rows) = Some (JArray (map Row_json rows)).
Proof.
  intros Hnd. unfold parse_tokens, table_tokens.
  destruct rows as [|row rows]; [reflexivity|].
  set (rs := row :: rows) in *. cbn [parse_run parse_step open_value].
  rewrite parse_run_app, parse_rows; [|subst rs; discriminate | now left | exact Hnd].
  cbn [parse_run parse_step close_value]. now rewrite app_nil_r, rev_involutive.
Qed.

(** [JSON.parse] gives back the table [JSON.stringify] wrote, when no row
    has a key twice. *)
Lemma JSON_parse_jsonContent (rows : list Row) :
  Forall (fun row => NoDup (map fst row)) rows ->
  JSON_parse (jsonContent rows) = Some (JArray (map Row_json rows)).
Proof.
  intros Hnd. unfold JSON_parse. rewrite lex_table. now apply parse_table.
Qed.

(** ** The JSON export read back *)

Lemma Row_json_string_object (row : Row) : string_object (map fst row) (Row_json row).
Proof.
  exists (map (fun kv => (fst kv, JString (snd kv))) row). split; [reflexivity|]. split.
  - rewrite map_map. reflexivity.
  - apply Forall_forall. intros m Hm. apply in_map_iff in Hm.
    destruct Hm as (kv & <- & _). now exists (snd kv).
Qed.

(** C4, as the code has it.  With at least one analysed record the JSON
    export builds one text and hands it over as one file (when the browser
    supports the download attribute).  Parsing its bytes yields an array
    with exactly one object per analysed record, in order, and every object
    has exactly the keys of the column schema, in the schema's order, each
    with a string value (the file name, the date or a placeholder).  The
    schema has 39 keys. *)
Theorem json_export_round_trip (w c : World) (jds : list JobDescription) :
  filter isAnalyzed jds <> [] ->
  let rows := tableData w jds in
  contents (downloadJSON c rows) = (if link_download_defined c then [jsonContent rows] else [])
  /\ exists objects,
       JSON_parse (jsonContent rows) = Some (JArray objects)
       /\ objects = map Row_json rows
       /\ length objects = length (filter isAnalyzed jds)
       /\ Forall (string_object columnNames) objects
       /\ length columnNames = 39
       /\ NoDup columnNames.
Proof.
  intros Hne rows.
  assert (Hlen : length rows = length (filter isAnalyzed jds)) by apply tableData_length.
  assert (Hkeys : Forall (fun row => map fst row = columnNames) rows)
    by apply tableData_keys.
  split.
  - rewrite contents_downloadJSON, length_zero_eqb.
    destruct rows as [|r rows']; [|reflexivity].
    exfalso. destruct (filter isAnalyzed jds); [now apply Hne | discriminate Hlen].
  - exists (map Row_json rows). split; [|split; [reflexivity|]].
    + apply JSON_parse_jsonContent. eapply Forall_impl; [|exact Hkeys].
      intros row Hrow. cbn beta in Hrow. rewrite Hrow. apply columnNames_NoDup.
    + split; [now rewrite length_map|]. split; [|split].
      * apply Forall_forall. intros o Ho. apply in_map_iff in Ho.
        destruct Ho as (row & <- & Hin). rewrite Forall_forall in Hkeys.
        rewrite <- (Hkeys row Hin). apply Row_json_string_object.
      * reflexivity.
      * apply columnNames_NoDup.
Qed.

Lemma json_export_round_trip_witness :
  filter isAnalyzed (jobDescriptions two_analyzed) <> []
  /\ exists text,
       contents (downloadJSON sample_world
                   (tableData sample_world (jobDescriptions two_analyzed))) = [text]
       /\ JSON_parse text
          = Some (JArray (map Row_json
                            (tableData sample_world (jobDescriptions two_analyzed)))).
Proof.
  split; [discriminate|].
  destruct (json_export_round_trip sample_world sample_world (jobDescriptions two_analyzed))
    as (Hfile & objects & Hp & Ho & _); [discriminate|].
  exists (jsonContent (tableData sample_world (jobDescriptions two_analyzed))).
  split; [exact Hfile|]. now rewrite Hp, Ho.
Defined.

Example exported_object_size :
  match JSON_parse (jsonContent (tableData sample_world (jobDescriptions two_analyzed))) with
  | Some (JArray [JObject members]) => length members
  | _ => 0
  end = 39.
Proof. vm_compute. reflexivity. Qed.

(** C4, as stated, fails on the number of keys: the export of one analysed
    record parses to one object with the 39 keys of the schema, not 38. *)
Lemma exported_objects_have_39_keys :
  ~ json_export_has_38_keys sample_world (jobDescriptions two_analyzed).
Proof.
  intros (objects & _ & Hcount & Hall).
  destruct objects as [|o l]; [vm_compute in Hcount; discriminate Hcount|].
  inversion Hall as [|o' l' (members & _ & Hkeys & Hlen) _]; subst.
  apply (f_equal (@length string)) in Hkeys. rewrite length_map, Hlen in Hkeys.
  discriminate Hkeys.
Qed.

(* ================================================================= *)
(** * Further properties of the handlers *)

(** ** Uploads: every accepted file is accounted for *)

(** The notification a successful upload issues for the record [jd]. *)
Lemma uploadedToast_filename (file : File) (url : string) (t_id t_at : Z) :
  uploadedToast file
  = {| title := "File uploaded successfully";
       description := filename (newJobDescription file url t_id t_at) ++ " has been uploaded";
       variant := None |}.
Proof. reflexivity. Qed.

Lemma upload_loop_outcomes (w : World) (fs : list File) :
  forall s : Sys,
    let s' := snd (forEach fs (uploadFile w) s) in
    exists outcomes evs,
      state s' = update_jobDescriptions
                   (fun prev => (prev ++ records_of outcomes)%list) (state s)
      /\ events s' = (events s ++ evs)%list
      /\ Forall2 (fun file o => match o with
                                | Some jd => made_from file jd
                                | None => True
                                end) fs outcomes
      /\ toasts evs = map (fun fo => outcome_toast (fst fo) (snd fo)) (combine fs outcomes)
      /\ map (fun jd => filename jd ++ " has been uploaded") (records_of outcomes)
         = map description (filter isUploadedToast (toasts evs))
      /\ length (records_of outcomes) + length (filter isFailedToast (toasts evs))
         = length fs
      /\ Forall2 (fun n p => snd p = "job-descriptions/" ++ Z_toString (clock w n) ++ "-"
                                     ++ name (fst p))
                 (reads w (calls s) fs) (upload_paths evs)
      /\ map fst (upload_paths evs) = fs.
Proof.
  induction fs as [|file fs IH]; intros s; cbn zeta.
  - exists [], []. split; [|split; [|split; [|split; [|split; [|split; [|split]]]]]].
    + cbn. unfold update_jobDescriptions. destruct (state s); cbn. now rewrite app_nil_r.
    + cbn. now rewrite app_nil_r.
    + constructor.
    + reflexivity.
    + reflexivity.
    + reflexivity.
    + constructor.
    + reflexivity.
  - rewrite forEach_cons.
    destruct (IH (snd (uploadFile w file s)))
      as (outcomes & evs & Hst & Hev & Hout & Hto & Hnames & Hcount & Hpaths & Hfiles).
    cbn zeta in Hst, Hev. rewrite Hst, Hev. rewrite uploadFile_run in Hpaths |- *.
    cbn [reads]. unfold next_read.
    destruct (upload_result w (S (calls s)) file (upload_path w (calls s) file)) as [url|];
      cbn [state events calls] in Hpaths |- *.
    + exists (Some (newJobDescription file url (clock w (S (S (calls s))))
                      (clock w (S (S (S (calls s)))))) :: outcomes),
             ([EUpload file (upload_path w (calls s) file)]
                ++ [EToast (uploadedToast file)] ++ evs)%list.
      split; [|split; [|split; [|split; [|split; [|split; [|split]]]]]].
      * unfold update_jobDescriptions. cbn. now rewrite <- app_assoc.
      * now rewrite <- !app_assoc.
      * constructor; [repeat split | exact Hout].
      * cbn. fold (toasts evs). now rewrite Hto.
      * cbn. fold (toasts evs). fold (records_of outcomes). now rewrite Hnames.
      * cbn. fold (toasts evs). fold (records_of outcomes). lia.
      * cbn. fold (upload_paths evs). constructor; [reflexivity | exact Hpaths].
      * cbn. fold (upload_paths evs). now f_equal.
    + exists (None :: outcomes),
             ([EUpload file (upload_path w (calls s) file)]
                ++ [EToast (uploadFailed file)] ++ evs)%list.
      split; [|split; [|split; [|split; [|split; [|split; [|split]]]]]].
      * reflexivity.
      * now rewrite <- !app_assoc.
      * constructor; [exact I | exact Hout].
      * cbn. fold (toasts evs). now rewrite Hto.
      * cbn. fold (toasts evs). fold (records_of outcomes). exact Hnames.
      * cbn. fold (toasts evs). fold (records_of outcomes). lia.
      * cbn. fold (upload_paths evs). constructor; [reflexivity | exact Hpaths].
      * cbn. fold (upload_paths evs). now f_equal.
Qed.

(** X1. Whatever the storage answers, every accepted file of a batch ends in
    exactly one of two ways.  The accepted files, in batch order, have one
    outcome each: either a record made from that file (its name, media type
    and size, status uploaded, no optional field) together with the success
    notification of that file, or no record and the failure notification of
    that file.  The working set afterwards is the records that were there,
    unchanged, followed by the records of the outcomes in order, and the
    notifications are those of the outcomes in order.  The analysis flag
    and the view are untouched, and the upload spinner is off at the end of
    a batch with an accepted file. *)
Theorem handleFiles_accounts_for_every_file (w : World) (files : list File) (st : State) :
  let valid := filter isAccepted files in
  let st' := fst (exec (handleFiles w files) st) in
  let ts := toasts (snd (exec (handleFiles w files) st)) in
  exists outcomes : list (option JobDescription),
    Forall2 (fun file o => match o with
                           | Some jd => made_from file jd
                           | None => True
                           end) valid outcomes
    /\ jobDescriptions st' = (jobDescriptions st ++ records_of outcomes)%list
    /\ (valid <> [] ->
          ts = map (fun fo => outcome_toast (fst fo) (snd fo)) (combine valid outcomes))
    /\ map (fun jd => filename jd ++ " has been uploaded") (records_of outcomes)
       = map description (filter isUploadedToast ts)
    /\ length (records_of outcomes) + length (filter isFailedToast ts) = length valid
    /\ analyzing st' = analyzing st
    /\ currentView st' = currentView st
    /\ uploading st' = match valid with [] => uploading st | _ :: _ => false end.
Proof.
  intros valid st' ts. subst st' ts.
  destruct valid as [|f0 fs] eqn:E.
  - unfold exec, handleFiles. fold valid. rewrite E. cbn.
    exists []. cbn. rewrite app_nil_r. repeat split; [constructor | congruence].
  - rewrite (exec_handleFiles_accepted w files f0 fs st E). cbn zeta. cbn [fst snd].
    match goal with
    | |- context [forEach (f0 :: fs) (uploadFile w) ?s0] =>
        destruct (upload_loop_outcomes w (f0 :: fs) s0)
          as (outcomes & evs & Hst & Hev & Hout & Hto & Hnames & Hcount & _)
    end.
    cbn zeta in Hst, Hev. rewrite Hst, Hev. cbn [app state update_jobDescriptions
      jobDescriptions analyzing currentView uploading].
    exists outcomes. repeat split; try assumption. intros _. exact Hto.
Qed.

Example accounting_of_a_mixed_batch :
  length (jobDescriptions two_uploaded) = 2
  /\ filter isFailedToast
       (toasts (snd (exec (handleFiles sample_world [pdf_file; png_file; doc_file]) initial)))
     = [].
Proof. split; reflexivity. Qed.

(** ** Uploads: storage that always answers, storage that never does *)

Lemma upload_loop_all_succeed (w : World) (fs : list File) :
  (forall n f p, upload_result w n f p <> None) ->
  forall s : Sys,
    let s' := snd (forEach fs (uploadFile w) s) in
    exists news,
      state s' = update_jobDescriptions (fun prev => (prev ++ news)%list) (state s)
      /\ Forall2 made_from fs news
      /\ toasts (events s') = (toasts (events s) ++ map uploadedToast fs)%list.
Proof.
  intros Hok. induction fs as [|file fs IH]; intros s; cbn zeta.
  - exists []. split; [|split].
    + cbn. unfold update_jobDescriptions. destruct (state s); cbn. now rewrite app_nil_r.
    + constructor.
    + cbn. now rewrite app_nil_r.
  - rewrite forEach_cons.
    destruct (IH (snd (uploadFile w file s))) as (news & Hst & Hmade & Hto).
    cbn zeta in Hst, Hto. rewrite Hst, Hto, uploadFile_run.
    destruct (upload_result w (S (calls s)) file (upload_path w (calls s) file)) as [url|] eqn:E;
      [|now apply Hok in E].
    cbn [state events].
    exists (newJobDescription file url (clock w (S (S (calls s))))
              (clock w (S (S (S (calls s))))) :: news).
    split; [|split].
    + unfold update_jobDescriptions. cbn. now rewrite <- app_assoc.
    + constructor; [repeat split | exact Hmade].
    + unfold toasts. rewrite !flat_map_app. cbn. now rewrite <- app_assoc.
Qed.

(** X2. When every storage call succeeds, a batch adds exactly one record
    per accepted file, in the order of the batch, each with the name, media
    type and size of its file, status uploaded and no optional field, and
    the notifications are one success notification per accepted file, in
    order. *)
Theorem handleFiles_when_storage_answers (w : World) (files : list File) (st : State) :
  (forall n f p, upload_result w n f p <> None) ->
  filter isAccepted files <> [] ->
  let valid := filter isAccepted files in
  let run := exec (handleFiles w files) st in
  exists news,
    jobDescriptions (fst run) = (jobDescriptions st ++ news)%list
    /\ Forall2 made_from valid news
    /\ toasts (snd run) = map uploadedToast valid.
Proof.
  intros Hok Hne valid run. subst run.
  destruct valid as [|f0 fs] eqn:E; [contradiction|].
  rewrite (exec_handleFiles_accepted w files f0 fs st E). cbn zeta. cbn [fst snd].
  match goal with
  | |- context [forEach (f0 :: fs) (uploadFile w) ?s0] =>
      destruct (upload_loop_all_succeed w (f0 :: fs) Hok s0) as (news & Hst & Hmade & Hto)
  end.
  cbn zeta in Hst, Hto. rewrite Hst, Hto. exists news. repeat split. exact Hmade.
Qed.

Lemma handleFiles_when_storage_answers_witness :
  exists news,
    jobDescriptions two_uploaded = news
    /\ Forall2 made_from [pdf_file; doc_file] news.
Proof.
  destruct (handleFiles_when_storage_answers sample_world [pdf_file; png_file; doc_file] initial)
    as (news & Hjobs & Hmade & _).
  - intros n f p. discriminate.
  - discriminate.
  - exists news. split; [exact Hjobs | exact Hmade].
Defined.

Lemma upload_loop_all_fail (w : World) (fs : list File) :
  (forall n f p, upload_result w n f p = None) ->
  forall s : Sys,
    let s' := snd (forEach fs (uploadFile w) s) in
    state s' = state s
    /\ toasts (events s') = (toasts (events s) ++ map uploadFailed fs)%list
    /\ uploads (events s') = (uploads (events s) ++ fs)%list.
Proof.
  intros Hno. induction fs as [|file fs IH]; intros s; cbn zeta.
  - cbn. now rewrite !app_nil_r.
  - rewrite forEach_cons.
    destruct (IH (snd (uploadFile w file s))) as (Hst & Hto & Hup).
    cbn zeta in Hst, Hto, Hup. rewrite Hst, Hto, Hup, uploadFile_run, Hno.
    cbn [state events]. unfold toasts, uploads. rewrite !flat_map_app. cbn.
    now rewrite <- !app_assoc.
Qed.

(** X3. When every storage call fails, a batch with accepted files adds no
    record and changes nothing but the upload spinner, which ends off; the
    failure of one upload does not stop the batch: every accepted file is
    still sent to the storage and gets its own Upload failed
    notification. *)
Theorem handleFiles_when_storage_fails (w : World) (files : list File) (st : State) :
  (forall n f p, upload_result w n f p = None) ->
  filter isAccepted files <> [] ->
  let valid := filter isAccepted files in
  let run := exec (handleFiles w files) st in
  jobDescriptions (fst run) = jobDescriptions st
  /\ uploading (fst run) = false
  /\ analyzing (fst run) = analyzing st
  /\ currentView (fst run) = currentView st
  /\ toasts (snd run) = map uploadFailed valid
  /\ uploads (snd run) = valid.
Proof.
  intros Hno Hne valid run. subst run.
  destruct valid as [|f0 fs] eqn:E; [contradiction|].
  rewrite (exec_handleFiles_accepted w files f0 fs st E). cbn zeta. cbn [fst snd].
  match goal with
  | |- context [forEach (f0 :: fs) (uploadFile w) ?s0] =>
      destruct (upload_loop_all_fail w (f0 :: fs) Hno s0) as (Hst & Hto & Hup)
  end.
  cbn zeta in Hst, Hto, Hup. rewrite Hst, Hto, Hup. repeat split.
Qed.

Lemma handleFiles_when_storage_fails_witness :
  jobDescriptions (fst (exec (handleFiles offline_world [pdf_file; png_file; doc_file]) two_analyzed))
  = jobDescriptions two_analyzed
  /\ toasts (snd (exec (handleFiles offline_world [pdf_file; png_file; doc_file]) two_analyzed))
     = [uploadFailed pdf_file; uploadFailed doc_file].
Proof.
  destruct (handleFiles_when_storage_fails offline_world [pdf_file; png_file; doc_file]
              two_analyzed)
    as (Hjobs & _ & _ & _ & Hto & _).
  - intros n f p. reflexivity.
  - discriminate.
  - split; [exact Hjobs | exact Hto].
Defined.

Lemma reads_bounds (w : World) (fs : list File) :
  forall n k m, nth_error (reads w n fs) k = Some m -> n + 2 * k <= m <= n + 4 * k.
Proof.
  induction fs as [|file fs IH]; intros n k m H; [destruct k; discriminate|].
  destruct k as [|k]; cbn in H.
  - injection H as <-. lia.
  - apply IH in H. unfold next_read in H.
    destruct (upload_result w (S n) file (upload_path w n file)); lia.
Qed.

(** X4. The storage is called once per accepted file, in the order of the
    batch, and never for another file; the destination of each call is
    job-descriptions/, the decimal form of the clock reading that opens the
    iteration of that file, a dash and the name of the file.  That reading
    is the first of the handler for the first accepted file, and for each
    further file it comes four external calls after the one of the file
    before when that upload succeeded and two when it failed, so the
    reading of the k-th accepted file is numbered between 2k and 4k. *)
Theorem handleFiles_storage_paths (w : World) (files : list File) (st : State) :
  let valid := filter isAccepted files in
  let sent := upload_paths (snd (exec (handleFiles w files) st)) in
  map fst sent = valid
  /\ Forall2 (fun n p => snd p = "job-descriptions/" ++ Z_toString (clock w n) ++ "-"
                                 ++ name (fst p))
             (reads w 0 valid) sent
  /\ (forall file fs, valid = file :: fs ->
        reads w 0 valid
        = 0 :: reads w (match upload_result w 1 file
                                (("job-descriptions/" ++ Z_toString (clock w 0) ++ "-"
                                    ++ name file)) with
                        | Some _ => 4
                        | None => 2
                        end) fs)
  /\ (forall k n, nth_error (reads w 0 valid) k = Some n -> 2 * k <= n <= 4 * k).
Proof.
  cbn zeta. split; [|split; [|split]].
  - destruct (filter isAccepted files) as [|f0 fs] eqn:E.
    + unfold exec, handleFiles. rewrite E. reflexivity.
    + rewrite (exec_handleFiles_accepted w files f0 fs st E). cbn zeta. cbn [fst snd].
      match goal with
      | |- context [forEach (f0 :: fs) (uploadFile w) ?s0] =>
          destruct (upload_loop_outcomes w (f0 :: fs) s0)
            as (outcomes & evs & _ & Hev & _ & _ & _ & _ & _ & Hfiles)
      end.
      cbn zeta in Hev. rewrite Hev. cbn [app]. exact Hfiles.
  - destruct (filter isAccepted files) as [|f0 fs] eqn:E.
    + unfold exec, handleFiles. rewrite E. cbn. constructor.
    + rewrite (exec_handleFiles_accepted w files f0 fs st E). cbn zeta. cbn [fst snd].
      match goal with
      | |- context [forEach (f0 :: fs) (uploadFile w) ?s0] =>
          destruct (upload_loop_outcomes w (f0 :: fs) s0)
            as (outcomes & evs & _ & Hev & _ & _ & _ & _ & Hpaths & _)
      end.
      cbn zeta in Hev. rewrite Hev. cbn [app]. exact Hpaths.
  - intros file fs ->. cbn [reads]. unfold next_read, upload_path.
    destruct (upload_result w 1 file _); reflexivity.
  - intros k n H. apply reads_bounds in H. lia.
Qed.

(** ** Deletion *)

Lemma filter_all {A} (f : A -> bool) (l : list A) :
  (forall x, In x l -> f x = true) -> filter f l = l.
Proof.
  induction l as [|x l IH]; intros H; [reflexivity|].
  cbn. rewrite (H x) by now left. f_equal. apply IH. intros y Hy. apply H. now right.
Qed.

Lemma filter_comm {A} (f g : A -> bool) (l : list A) :
  filter f (filter g l) = filter g (filter f l).
Proof.
  induction l as [|x l IH]; [reflexivity|].
  cbn. destruct (f x) eqn:Ef, (g x) eqn:Eg; cbn; rewrite ?Ef, ?Eg, IH; reflexivity.
Qed.

Lemma id_not_among (i : string) (l : list JobDescription) :
  forallb (fun jd => negb (id jd =? i)) l = true -> forall jd, In jd l -> id jd <> i.
Proof.
  intros H jd Hin. rewrite forallb_forall in H.
  apply String.eqb_neq, negb_true_iff. now apply H.
Qed.

(** X5. Deleting an id that no record bears leaves the state exactly as it
    was, and the File deleted notification is issued all the same. *)
Theorem delete_of_unknown_id (i : string) (st : State) :
  (forall jd, In jd (jobDescriptions st) -> id jd <> i) ->
  exec (deleteJobDescription i) st = (st, [EToast fileDeleted]).
Proof.
  intros Hfresh. rewrite exec_deleteJobDescription. f_equal.
  unfold update_jobDescriptions. rewrite filter_all.
  - now destruct st.
  - intros jd Hin. apply negb_true_iff, String.eqb_neq. now apply Hfresh.
Qed.

Lemma delete_of_unknown_id_witness :
  exec (deleteJobDescription "no such id") two_analyzed = (two_analyzed, [EToast fileDeleted]).
Proof.
  apply delete_of_unknown_id.
  apply id_not_among. vm_compute. reflexivity.
Defined.

(** X6. Deleting the same id twice leaves the records the first deletion
    left, two deletions give the same records in either order, and a
    deletion neither reorders nor alters the records it keeps: the result
    is the working set without the records of that id. *)
Theorem delete_is_idempotent_and_commutes (i j : string) (st : State) :
  let del k s := fst (exec (deleteJobDescription k) s) in
  del i (del i st) = del i st
  /\ del i (del j st) = del j (del i st)
  /\ (forall jd, In jd (jobDescriptions (del i st))
                 <-> In jd (jobDescriptions st) /\ id jd <> i)
  /\ uploading (del i st) = uploading st
  /\ analyzing (del i st) = analyzing st
  /\ currentView (del i st) = currentView st.
Proof.
  intros del. subst del. cbv beta. rewrite !exec_deleteJobDescription. cbn [fst].
  unfold update_jobDescriptions. cbn [jobDescriptions uploading analyzing currentView].
  split; [|split; [|split]].
  - f_equal. apply filter_idempotent.
  - f_equal. apply filter_comm.
  - intros jd. rewrite filter_In, negb_true_iff, String.eqb_neq. reflexivity.
  - repeat split.
Qed.

(** X7. An upload followed by the deletion of the id the new record got
    gives back the records that were there, provided no earlier record
    bears that id. *)
Theorem upload_then_delete (w : World) (file : File) (url : string) (st : State) :
  isAccepted file = true ->
  upload_result w 1 file (upload_path w 0 file) = Some url ->
  (forall jd, In jd (jobDescriptions st) -> id jd <> Z_toString (clock w 2)) ->
  let st1 := fst (exec (handleFiles w [file]) st) in
  let st2 := fst (exec (deleteJobDescription (Z_toString (clock w 2))) st1) in
  jobDescriptions st1
  = (jobDescriptions st ++ [newJobDescription file url (clock w 2) (clock w 3)])%list
  /\ jobDescriptions st2 = jobDescriptions st.
Proof.
  intros Hacc Hup Hfresh st1 st2.
  assert (H1 : jobDescriptions st1
               = (jobDescriptions st
                    ++ [newJobDescription file url (clock w 2) (clock w 3)])%list).
  { subst st1. rewrite (exec_handleFiles_accepted w [file] file [] st)
      by (cbn [filter]; now rewrite Hacc).
    cbn zeta. cbn [fst jobDescriptions].
    rewrite forEach_cons, uploadFile_run. cbn [calls]. rewrite Hup. reflexivity. }
  split; [exact H1|].
  subst st2. rewrite exec_deleteJobDescription.
  cbn [fst update_jobDescriptions jobDescriptions]. rewrite H1, filter_app.
  cbn [filter id newJobDescription]. rewrite String.eqb_refl. cbn [negb].
  rewrite app_nil_r. apply filter_all.
  intros jd Hin. apply negb_true_iff, String.eqb_neq. now apply Hfresh.
Qed.

Lemma upload_then_delete_witness :
  jobDescriptions
    (fst (exec (deleteJobDescription "1700086400000")
            (fst (exec (handleFiles later_world [doc_file]) two_analyzed))))
  = jobDescriptions two_analyzed.
Proof.
  refine (proj2 (upload_then_delete later_world doc_file
                   "https://storage.example/job-descriptions/1700086400000-nurse.doc"
                   two_analyzed eq_refl eq_refl _)).
  apply id_not_among. vm_compute. reflexivity.
Defined.

(** ** The analysis run, further *)

Lemma map_mapi_from {A B C} (g : B -> C) (h : A -> C) (f : nat -> A -> B) (l : list A) :
  (forall i x, g (f i x) = h x) -> forall k, map g (mapi_from k f l) = map h l.
Proof.
  intros H. induction l as [|x l IH]; intros k; [reflexivity|].
  cbn. now rewrite H, IH.
Qed.

Lemma analyzeOne_identity (w : World) (i : nat) (jd : JobDescription) :
  identity (analyzeOne w i jd) = identity jd.
Proof.
  unfold analyzeOne.
  destruct (extract_result w i (fileUrl jd)) as [extracted|]; [|reflexivity].
  destruct (generate_result w i (prompt extracted) "gpt-4o-mini") as [text|]; [|reflexivity].
  destruct (JSON_parse text); reflexivity.
Qed.

(** X8. An analysis run never changes which records there are: the working
    set after the run has the same ids, file names, storage locations, media
    types, sizes and upload times, in the same order, whatever the services
    answer; only the status and the three analysis fields can differ.  The
    same holds of the outcomes of a run that settles later, with respect to
    the records it started with. *)
Theorem analysis_keeps_record_identity (w : World) (st : State) :
  map identity (jobDescriptions (fst (exec (analyzeJobDescriptions w) st)))
  = map identity (jobDescriptions st)
  /\ (forall snapshot st2,
        map identity (jobDescriptions (fst (exec (analysis_settle w snapshot) st2)))
        = map identity snapshot).
Proof.
  split.
  - destruct (jobDescriptions st) as [|jd l] eqn:E.
    + unfold exec, analyzeJobDescriptions, bind, getJobDescriptions.
      cbn [fst snd state]. rewrite E. cbn. now rewrite E.
    + rewrite exec_analyzeJobDescriptions by (rewrite E; discriminate).
      cbn [fst jobDescriptions]. rewrite E.
      apply map_mapi_from. intros. apply analyzeOne_identity.
  - intros snapshot st2. rewrite exec_analysis_settle. cbn [fst jobDescriptions].
    apply map_mapi_from. intros. apply analyzeOne_identity.
Qed.

(** X9. Analysing an empty working set does nothing but issue the No files
    to analyze notification: the state, the spinner and the view stay as
    they are and no service is called for a record. *)
Theorem analysis_of_nothing (w : World) (st : State) :
  jobDescriptions st = [] ->
  exec (analyzeJobDescriptions w) st = (st, [EToast noFiles]).
Proof.
  intros E. unfold exec, analyzeJobDescriptions, bind, getJobDescriptions.
  cbn [fst snd state]. rewrite E. reflexivity.
Qed.

Lemma analysis_of_nothing_witness :
  exec (analyzeJobDescriptions sample_world) initial = (initial, [EToast noFiles]).
Proof. apply analysis_of_nothing. reflexivity. Defined.

Lemma settled_partition (l : list JobDescription) :
  Forall settled l -> length (filter isAnalyzed l) + length (filter isError l) = length l.
Proof.
  induction 1 as [|jd l Hjd _ IH]; [reflexivity|].
  cbn [filter].
  destruct Hjd as [H | H].
  - replace (isAnalyzed jd) with true by (unfold isAnalyzed; now rewrite H).
    replace (isError jd) with false by (unfold isError; now rewrite H).
    cbn [length]. lia.
  - replace (isAnalyzed jd) with false by (unfold isAnalyzed; now rewrite H).
    replace (isError jd) with true by (unfold isError; now rewrite H).
    cbn [length]. lia.
Qed.

(** X10. After a run over a non-empty set, the only notification is
    Analysis complete with the number of records that came out analyzed;
    that number and the number of error records add up to the number of
    records, and it is the number of rows the results page then shows and
    the reverse of what the Download Results button needs to be disabled. *)
Theorem analysis_toast_counts_the_analyzed (w r : World) (st : State) :
  jobDescriptions st <> [] ->
  let run := exec (analyzeJobDescriptions w) st in
  let n := length (filter isAnalyzed (jobDescriptions (fst run))) in
  snd run =
    [EToast {| title := "Analysis complete";
               description := "Successfully analyzed " ++ nat_toString n
                                ++ " job descriptions";
               variant := None |}]
  /\ n + length (filter isError (jobDescriptions (fst run))) = length (jobDescriptions st)
  /\ length (tableData r (jobDescriptions (fst run))) = n
  /\ downloadDisabled (fst run) = (n =? 0)%nat.
Proof.
  intros Hne run n. subst n run. rewrite exec_analyzeJobDescriptions by assumption.
  cbn [fst snd jobDescriptions]. split; [reflexivity|]. split; [|split].
  - rewrite settled_partition.
    + apply mapi_from_length.
    + apply mapi_from_Forall. intros i jd _. apply analyzeOne_status.
  - apply tableData_length.
  - reflexivity.
Qed.

Lemma analysis_toast_counts_the_analyzed_witness :
  snd (exec (analyzeJobDescriptions sample_world) two_uploaded)
  = [EToast {| title := "Analysis complete";
               description := "Successfully analyzed 1 job descriptions";
               variant := None |}].
Proof.
  destruct (analysis_toast_counts_the_analyzed sample_world sample_world two_uploaded)
    as (H & _); [discriminate|].
  exact H.
Defined.

(** X11. The task of a record ends with status analyzed exactly when the
    extraction succeeds, the inference on the prompt built from the
    extracted text succeeds and its text parses as JSON; the record then
    holds the extracted text, the parsed value and the time of the task.
    Otherwise it ends with status error and every other field as it was, and
    when the extraction fails the answer of the inference plays no part. *)
Theorem analysis_task_outcome (w : World) (i : nat) (jd : JobDescription) :
  (status (analyzeOne w i jd) = analyzed <->
     exists extracted text parsed,
       extract_result w i (fileUrl jd) = Some extracted
       /\ generate_result w i (prompt extracted) "gpt-4o-mini" = Some text
       /\ JSON_parse text = Some parsed)
  /\ (forall extracted text parsed,
        extract_result w i (fileUrl jd) = Some extracted ->
        generate_result w i (prompt extracted) "gpt-4o-mini" = Some text ->
        JSON_parse text = Some parsed ->
        extractedContent (analyzeOne w i jd) = Some extracted
        /\ analysisResults (analyzeOne w i jd) = Some parsed
        /\ analyzedAt (analyzeOne w i jd) = Some (toISOString (task_clock w i)))
  /\ (status (analyzeOne w i jd) <> analyzed -> analyzeOne w i jd = with_status jd error)
  /\ (extract_result w i (fileUrl jd) = None -> analyzeOne w i jd = with_status jd error).
Proof.
  unfold analyzeOne.
  destruct (extract_result w i (fileUrl jd)) as [extracted|] eqn:Ee;
    [destruct (generate_result w i (prompt extracted) "gpt-4o-mini") as [text|] eqn:Eg;
     [destruct (JSON_parse text) as [parsed|] eqn:Ep|]|];
    (split; [|split; [|split]]).
  - split; [intros _; now exists extracted, text, parsed | reflexivity].
  - intros e t p He Hg Hp. cbn. repeat split; congruence.
  - intros H. exfalso. now apply H.
  - discriminate.
  - split; [discriminate | intros (e & t & p & He & Hg & Hp); congruence].
  - intros e t p He Hg Hp. exfalso. congruence.
  - reflexivity.
  - discriminate.
  - split; [discriminate | intros (e & t & p & He & Hg & Hp); congruence].
  - intros e t p He Hg Hp. exfalso. congruence.
  - reflexivity.
  - discriminate.
  - split; [discriminate | intros (e & t & p & He & _); discriminate He].
  - intros e t p He. discriminate He.
  - reflexivity.
  - reflexivity.
Qed.

Lemma analyzeOne_depends_on_identity (w : World) (i : nat) (a b : JobDescription) :
  identity a = identity b ->
  status (analyzeOne w i a) = analyzed ->
  analyzeOne w i a = analyzeOne w i b.
Proof.
  unfold identity. intros H. injection H as Hid Hname Hurl Htype Hsize Hat.
  unfold analyzeOne. rewrite <- Hurl.
  destruct (extract_result w i (fileUrl a)) as [extracted|]; [|discriminate].
  destruct (generate_result w i (prompt extracted) "gpt-4o-mini") as [text|]; [|discriminate].
  destruct (JSON_parse text); [|discriminate].
  intros _. now rewrite Hid, Hname, Hurl, Htype, Hsize, Hat.
Qed.

Lemma mapi_from_pointwise {A B} (f : nat -> A -> B) (g : nat -> A -> B) (l l' : list A) :
  forall k,
    length l = length l' ->
    (forall j x y, nth_error l j = Some x -> nth_error l' j = Some y ->
                   f (k + j) x = g (k + j) y) ->
    mapi_from k f l = mapi_from k g l'.
Proof.
  revert l'. induction l as [|x l IH]; intros [|y l'] k Hlen H; try discriminate;
    [reflexivity|].
  cbn. f_equal.
  - specialize (H 0 x y eq_refl eq_refl). now rewrite Nat.add_0_r in H.
  - apply IH; [now injection Hlen|].
    intros j a b Ha Hb. specialize (H (S j) a b Ha Hb).
    now rewrite Nat.add_succ_r in H.
Qed.

(** X12. A second run that succeeds for every record leaves no trace of the
    first: the working set is what the second run alone would have produced
    from the records as they were before the first.  (When a task of the
    second run fails, its record keeps what the first run stored.) *)
Theorem successful_rerun_overwrites (w1 w2 : World) (st : State) :
  let once := fst (exec (analyzeJobDescriptions w1) st) in
  let twice := fst (exec (analyzeJobDescriptions w2) once) in
  Forall (fun jd => status jd = analyzed) (jobDescriptions twice) ->
  jobDescriptions twice
  = jobDescriptions (fst (exec (analyzeJobDescriptions w2) st)).
Proof.
  intros once twice Hall. subst twice once.
  destruct (jobDescriptions st) as [|jd0 l0] eqn:E.
  { unfold exec, analyzeJobDescriptions, bind, getJobDescriptions.
    cbn [fst snd state]. rewrite E. cbn. now rewrite E. }
  assert (Hne : jobDescriptions st <> []) by (rewrite E; discriminate).
  rewrite (exec_analyzeJobDescriptions w1 st Hne) in *. cbn [fst] in *.
  set (once := {| jobDescriptions := mapi (analyzeOne w1) (jobDescriptions st);
                  uploading := uploading st; analyzing := false;
                  currentView := results |}) in *.
  assert (Hne1 : jobDescriptions once <> []).
  { subst once. cbn [jobDescriptions]. rewrite E. discriminate. }
  rewrite (exec_analyzeJobDescriptions w2 once Hne1) in *.
  rewrite (exec_analyzeJobDescriptions w2 st Hne).
  cbn [fst jobDescriptions] in *. subst once. cbn [jobDescriptions] in *.
  unfold mapi in *. apply mapi_from_pointwise.
  - apply mapi_from_length.
  - intros j x y Hx Hy. cbn [Nat.add].
    rewrite mapi_from_nth, Hy in Hx. cbn in Hx. injection Hx as <-.
    apply analyzeOne_depends_on_identity; [apply analyzeOne_identity|].
    rewrite Forall_forall in Hall. apply Hall.
    apply (nth_error_In _ j). rewrite mapi_from_nth, mapi_from_nth, Hy. reflexivity.
Qed.

Lemma all_analyzed (l : list JobDescription) :
  forallb isAnalyzed l = true -> Forall (fun jd => status jd = analyzed) l.
Proof.
  intros H. rewrite forallb_forall in H. apply Forall_forall. intros jd Hin.
  specialize (H jd Hin). unfold isAnalyzed in H. now destruct (status jd).
Qed.

Lemma successful_rerun_overwrites_witness :
  jobDescriptions
    (fst (exec (analyzeJobDescriptions generous_world)
            (fst (exec (analyzeJobDescriptions sample_world) two_uploaded))))
  = jobDescriptions (fst (exec (analyzeJobDescriptions generous_world) two_uploaded)).
Proof.
  apply (successful_rerun_overwrites sample_world generous_world two_uploaded).
  apply all_analyzed. vm_compute. reflexivity.
Defined.

(** ** Handlers that interleave with a run *)

Lemma settled_not_uploaded (l : list JobDescription) (jd : JobDescription) :
  Forall settled l -> status jd = uploaded -> ~ In jd l.
Proof.
  intros Hall Hjd Hin. rewrite Forall_forall in Hall.
  destruct (Hall jd Hin) as [H | H]; congruence.
Qed.

(** X13. A file uploaded while an analysis run is in flight is lost when the
    run settles: its record is in the working set after the upload and is
    not in it once the run has replaced the working set by the outcomes of
    the records it started with.  The three handlers form an execution of
    the dashboard. *)
Theorem upload_during_run_is_lost
  (c : Config) (wu w : World) (file : File) (url : string) :
  jobDescriptions (cstate c) <> [] ->
  isAccepted file = true ->
  upload_result wu 1 file (upload_path wu 0 file) = Some url ->
  let snapshot := jobDescriptions (cstate c) in
  let c1 := {| cstate := fst (exec analysis_begin (cstate c));
               inflight := snapshot :: inflight c |} in
  let c2 := {| cstate := fst (exec (uploadFile wu file) (cstate c1));
               inflight := inflight c1 |} in
  let c3 := {| cstate := fst (exec (analysis_settle w snapshot) (cstate c2));
               inflight := inflight c |} in
  let new := newJobDescription file url (clock wu 2) (clock wu 3) in
  step c c1 /\ step c1 c2 /\ step c2 c3
  /\ In new (jobDescriptions (cstate c2))
  /\ ~ In new (jobDescriptions (cstate c3))
  /\ map identity (jobDescriptions (cstate c3)) = map identity snapshot.
Proof.
  intros Hne Hacc Hup snapshot c1 c2 c3 new.
  split; [apply (step_begin c Hne)|].
  split; [apply (step_uploadFile c1 wu file Hacc)|].
  split; [apply (step_settle c2 w [] (inflight c) snapshot eq_refl)|].
  split; [|split].
  - subst c2. cbn [cstate]. unfold exec. rewrite uploadFile_run. cbn [calls].
    rewrite Hup. cbn [snd fst state update_jobDescriptions jobDescriptions].
    apply in_or_app. right. now left.
  - subst c3. cbn [cstate]. rewrite exec_analysis_settle. cbn [fst jobDescriptions].
    apply settled_not_uploaded; [|reflexivity].
    apply mapi_from_Forall. intros i jd _. apply analyzeOne_status.
  - subst c3. cbn [cstate]. rewrite exec_analysis_settle. cbn [fst jobDescriptions].
    apply map_mapi_from. intros. apply analyzeOne_identity.
Qed.

Lemma upload_during_run_is_lost_witness :
  map filename (jobDescriptions uploaded_during_run) = ["engineer.pdf"; "nurse.doc"]
  /\ ~ In (newJobDescription doc_file
             "https://storage.example/job-descriptions/1700086400000-nurse.doc"
             1700086400000 1700086400000)
          (jobDescriptions
             (fst (exec (analysis_settle sample_world (jobDescriptions (cstate c_uploaded)))
                        uploaded_during_run))).
Proof.
  split; [reflexivity|].
  refine (proj1 (proj2 (proj2 (proj2 (proj2
            (upload_during_run_is_lost c_uploaded later_world sample_world doc_file
               "https://storage.example/job-descriptions/1700086400000-nurse.doc"
               _ eq_refl eq_refl)))))).
  discriminate.
Defined.

(** X14. A record deleted while an analysis run is in flight comes back
    when the run settles: whatever was deleted in between, the working set
    after the run has exactly the ids of the records the run started with,
    in order. *)
Theorem delete_during_run_is_undone (c : Config) (w : World) (i : string) :
  jobDescriptions (cstate c) <> [] ->
  let snapshot := jobDescriptions (cstate c) in
  let c1 := {| cstate := fst (exec analysis_begin (cstate c));
               inflight := snapshot :: inflight c |} in
  let c2 := {| cstate := fst (exec (deleteJobDescription i) (cstate c1));
               inflight := inflight c1 |} in
  let c3 := {| cstate := fst (exec (analysis_settle w snapshot) (cstate c2));
               inflight := inflight c |} in
  step c c1 /\ step c1 c2 /\ step c2 c3
  /\ Forall (fun jd => id jd <> i) (jobDescriptions (cstate c2))
  /\ map id (jobDescriptions (cstate c2)) = filter (fun k => negb (k =? i)) (map id snapshot)
  /\ map id (jobDescriptions (cstate c3)) = map id snapshot.
Proof.
  intros Hne snapshot c1 c2 c3.
  split; [apply (step_begin c Hne)|].
  split; [apply (step_delete c1 i)|].
  split; [apply (step_settle c2 w [] (inflight c) snapshot eq_refl)|].
  split; [|split].
  - subst c2. cbn [cstate]. rewrite exec_deleteJobDescription.
    cbn [fst update_jobDescriptions jobDescriptions].
    apply Forall_forall. intros jd Hin. apply filter_In in Hin.
    destruct Hin as [_ H]. now apply String.eqb_neq, negb_true_iff.
  - subst c2 c1. cbn [cstate]. rewrite exec_deleteJobDescription.
    cbn [fst update_jobDescriptions jobDescriptions exec analysis_begin].
    cbn. fold snapshot. clear. induction snapshot as [|jd l IH]; [reflexivity|].
    cbn. destruct (id jd =? i); cbn; now rewrite IH.
  - subst c3. cbn [cstate]. rewrite exec_analysis_settle. cbn [fst jobDescriptions].
    apply map_mapi_from. intros k jd.
    exact (f_equal (fun x => fst (fst (fst (fst (fst x))))) (analyzeOne_identity w k jd)).
Qed.

Lemma delete_during_run_is_undone_witness :
  jobDescriptions deleted_during_run = []
  /\ map id (jobDescriptions
               (fst (exec (analysis_settle sample_world (jobDescriptions (cstate c_uploaded)))
                          deleted_during_run)))
     = ["1700000000000"].
Proof.
  split; [reflexivity|].
  refine (proj2 (proj2 (proj2 (proj2 (proj2
            (delete_during_run_is_undone c_uploaded sample_world "1700000000000" _)))))).
  discriminate.
Defined.

(** ** Invariants of the reachable states *)

(** A property of records that uploads establish and that the status marks
    and the analysis tasks keep holds of every record of every reachable
    configuration, in the working set and in the runs in flight. *)
Lemma reachable_records (P : JobDescription -> Prop) :
  (forall file url t_id t_at, isAccepted file = true ->
     P (newJobDescription file url t_id t_at)) ->
  (forall jd s, P jd -> P (with_status jd s)) ->
  (forall w i jd, P jd -> P (analyzeOne w i jd)) ->
  forall c, reachable c ->
    Forall P (jobDescriptions (cstate c)) /\ Forall (Forall P) (inflight c).
Proof.
  intros Hnew Hmark Htask c Hc.
  induction Hc as [|c c' _ [Hjobs Hfly] Hstep]; [split; constructor|].
  destruct Hstep as [c b | c w file Hacc | c i | c Hne | c w before after snapshot Hsnap | c];
    split; cbn [cstate inflight]; try exact Hfly; try exact Hjobs.
  - unfold exec. rewrite uploadFile_run. cbn [calls state events fst].
    destruct (upload_result w 1 file _) as [url|]; cbn; [|exact Hjobs].
    apply Forall_app; split; [exact Hjobs|].
    constructor; [now apply Hnew | constructor].
  - cbn. apply Forall_forall. intros jd Hin. apply filter_In in Hin.
    rewrite Forall_forall in Hjobs. apply Hjobs, Hin.
  - cbn. apply Forall_forall. intros jd Hin. apply in_map_iff in Hin.
    destruct Hin as (jd0 & <- & Hin0). rewrite Forall_forall in Hjobs.
    apply Hmark. now apply Hjobs.
  - constructor; assumption.
  - rewrite exec_analysis_settle. cbn [fst jobDescriptions].
    rewrite Hsnap in Hfly. apply Forall_app in Hfly. destruct Hfly as [_ Hfly].
    inversion Hfly as [|x l Hx _]; subst.
    apply mapi_from_Forall.
    intros k jd Hin. apply Htask. rewrite Forall_forall in Hx. now apply Hx.
  - rewrite Hsnap in Hfly. apply Forall_app in Hfly. destruct Hfly as [Hb Ha].
    inversion Ha; subst. apply Forall_app. now split.
Qed.

(** X15. In every reachable configuration every record, in the working set
    and in the runs in flight, comes from an upload: its media type is on
    the allow-list, its id is the decimal form of a clock reading and its
    upload time is an ISO time stamp.  No handler edits these fields. *)
Theorem records_come_from_uploads (c : Config) :
  reachable c ->
  Forall from_upload (jobDescriptions (cstate c))
  /\ Forall (Forall from_upload) (inflight c).
Proof.
  apply reachable_records.
  - intros file url t_id t_at Hacc. split; [|split].
    + now apply isAccepted_allow_list.
    + now exists t_id.
    + now exists t_at.
  - intros jd s H. exact H.
  - intros w i jd H. unfold from_upload.
    pose proof (analyzeOne_identity w i jd) as E. unfold identity in E.
    injection E as Hid _ _ Htype _ Hat. now rewrite Hid, Htype, Hat.
Qed.

Lemma records_come_from_uploads_witness :
  Forall from_upload (jobDescriptions (cstate c_failed)).
Proof. exact (proj1 (records_come_from_uploads c_failed reachable_c_failed)). Defined.

(** X16. In every reachable configuration, a record marked processing or a
    spinning Analyze All button means that an analysis run is in flight:
    once no run is in flight no record is left processing, whatever uploads
    and deletions happened meanwhile. *)
Theorem processing_means_in_flight (c : Config) :
  reachable c ->
  inflight c = [] ->
  Forall (fun jd => status jd <> processing) (jobDescriptions (cstate c))
  /\ analyzing (cstate c) = false.
Proof.
  intros Hc.
  induction Hc as [|c c' _ IH Hstep]; [intros _; split; [constructor | reflexivity]|].
  destruct Hstep as [c b | c w file Hacc | c i | c Hne | c w before after snapshot Hsnap | c];
    cbn [cstate inflight]; intros Hfly; try discriminate Hfly.
  - destruct (IH Hfly) as [H1 H2]. split; assumption.
  - destruct (IH Hfly) as [H1 H2]. unfold exec. rewrite uploadFile_run.
    cbn [calls state events fst].
    destruct (upload_result w 1 file _) as [url|]; cbn; [|split; assumption].
    split; [|exact H2]. apply Forall_app; split; [exact H1|].
    constructor; [discriminate | constructor].
  - destruct (IH Hfly) as [H1 H2]. split; [|exact H2]. cbn.
    apply Forall_forall. intros jd Hin. apply filter_In in Hin.
    rewrite Forall_forall in H1. apply H1, Hin.
  - rewrite exec_analysis_settle. cbn [fst jobDescriptions analyzing].
    split; [|reflexivity]. apply mapi_from_Forall. intros k jd _.
    destruct (analyzeOne_status w k jd) as [H | H]; rewrite H; discriminate.
  - destruct (IH Hfly) as [H1 H2]. split; assumption.
Qed.

Lemma processing_means_in_flight_witness :
  Forall (fun jd => status jd <> processing) (jobDescriptions (cstate c_failed)).
Proof.
  exact (proj1 (processing_means_in_flight c_failed reachable_c_failed eq_refl)).
Defined.

(** ** Buttons and the handlers behind them *)

Lemma existsb_filter {A} (f : A -> bool) (l : list A) :
  existsb f l = negb (length (filter f l) =? 0)%nat.
Proof.
  induction l as [|x l IH]; [reflexivity|].
  cbn. destruct (f x); [reflexivity | exact IH].
Qed.

Lemma exec_downloadResults (w : World) (st : State) :
  exec (downloadResults w) st =
    (st,
     if downloadDisabled st then [EToast noResults]
     else [EDownload
             {| download := "job-analysis-results-"
                              ++ before_T (toISOString (clock w 0)) ++ ".json";
                mime := "application/json";
                content := JSON_stringify
                             (JArray (map resultOf (filter isAnalyzed (jobDescriptions st)))) |};
           EToast resultsDownloaded]).
Proof.
  unfold exec, downloadResults, downloadDisabled, bind, getJobDescriptions.
  cbn [fst snd state].
  destruct (length (filter isAnalyzed (jobDescriptions st)) =? 0)%nat; reflexivity.
Qed.

(** X17. The buttons of the dashboard guard the empty branches of their
    handlers.  Download Results is disabled exactly when [downloadResults]
    would produce no file and issue No results to download, and enabled
    exactly when the card of analysis results is shown; an enabled click
    hands over one JSON file and announces it.  Analyze All is rendered only
    with a non-empty working set, so a click on it never ends in No files
    to analyze.  [downloadResults] never changes the state. *)
Theorem dashboard_buttons_guard_handlers (w : World) (st : State) :
  let dl := snd (exec (downloadResults w) st) in
  (downloadDisabled st = true <-> downloads dl = [])
  /\ (downloadDisabled st = true <-> dl = [EToast noResults])
  /\ (downloadDisabled st = false ->
        length (downloads dl) = 1 /\ toasts dl = [resultsDownloaded])
  /\ showsResults st = negb (downloadDisabled st)
  /\ fst (exec (downloadResults w) st) = st
  /\ (showsFiles st = true -> snd (exec (analyzeJobDescriptions w) st) <> [EToast noFiles])
  /\ (analyzeDisabled st = false -> showsFiles st = true).
Proof.
  cbn zeta. rewrite exec_downloadResults. cbn [fst snd].
  split; [|split; [|split; [|split; [|split; [|split]]]]].
  - destruct (downloadDisabled st); cbn; split; congruence.
  - destruct (downloadDisabled st); cbn; split; congruence.
  - intros ->. split; reflexivity.
  - unfold showsResults, downloadDisabled. apply existsb_filter.
  - reflexivity.
  - unfold showsFiles. rewrite length_zero_eqb.
    destruct (jobDescriptions st) as [|jd l] eqn:E; [discriminate|]. intros _.
    rewrite exec_analyzeJobDescriptions by (rewrite E; discriminate). discriminate.
  - unfold analyzeDisabled, showsFiles. intros H. apply orb_false_iff in H.
    destruct H as [_ ->]. reflexivity.
Qed.

(** X18. On the results page an export hands over a file exactly when its
    button is enabled and the browser supports the download attribute; the
    buttons are disabled exactly when the page shows the No Results
    Available notice, that is, when no record is analyzed.  An enabled CSV
    export and an enabled JSON export hand over one file each. *)
Theorem results_buttons_guard_exports (r c : World) (jds : list JobDescription) :
  let rows := tableData r jds in
  (downloadCSV c rows = [] <-> exportDisabled rows = true \/ link_download_defined c = false)
  /\ (downloadJSON c rows = [] <-> exportDisabled rows = true \/ link_download_defined c = false)
  /\ (exportDisabled rows = true <-> resultsCard rows = NoResultsAvailable)
  /\ (exportDisabled rows = true <-> filter isAnalyzed jds = [])
  /\ (exportDisabled rows = false -> link_download_defined c = true ->
        length (downloads (downloadCSV c rows)) = 1
        /\ length (downloads (downloadJSON c rows)) = 1
        /\ toasts (downloadCSV c rows) = [] /\ toasts (downloadJSON c rows) = []).
Proof.
  intros rows.
  assert (Hlen : length rows = length (filter isAnalyzed jds)) by apply tableData_length.
  unfold downloadCSV, downloadJSON, exportDisabled, resultsCard.
  destruct (length rows =? 0)%nat eqn:E.
  - repeat split; try tauto; try discriminate.
    apply Nat.eqb_eq in E. rewrite Hlen in E.
    intros _. now destruct (filter isAnalyzed jds).
  - destruct (link_download_defined c); repeat split; try tauto; try discriminate;
      try (intros [H | H]; discriminate H).
    + intros H. rewrite H in Hlen. apply Nat.eqb_neq in E. now rewrite Hlen in E.
    + intros H. rewrite H in Hlen. apply Nat.eqb_neq in E. now rewrite Hlen in E.
Qed.

(** ** The table of the results page *)

Lemma cells_of_own_keys (row : Row) :
  map fst row = columnNames ->
  map (fun column => orElse (prop row column) "-") columnNames
  = map (fun v => if v =? EmptyString then "-" else v) (map snd row).
Proof.
  intros Hkeys.
  rewrite <- (map_map (prop row) (fun o => orElse o "-")).
  rewrite <- Hkeys at 1. rewrite prop_own_keys by (rewrite Hkeys; apply columnNames_NoDup).
  rewrite !map_map. reflexivity.
Qed.

(** X19. With at least one analysed record the results page shows a table
    whose head is the column schema and whose body has one line per analysed
    record, in order, each with 39 cells: the values of the record's row in
    schema order, an empty value shown as a dash. *)
Theorem results_table_shape (w : World) (jds : list JobDescription) :
  filter isAnalyzed jds <> [] ->
  exists body,
    resultsCard (tableData w jds) = ResultsTable columnNames body
    /\ length body = length (filter isAnalyzed jds)
    /\ Forall (fun cells => length cells = 39) body
    /\ (forall i job, nth_error (filter isAnalyzed jds) i = Some job ->
          nth_error body i
          = Some (map (fun v => if v =? EmptyString then "-" else v)
                      (map snd (tableRow (render_date w i) job)))).
Proof.
  intros Hne.
  assert (Hlen : length (tableData w jds) = length (filter isAnalyzed jds))
    by apply tableData_length.
  unfold resultsCard. rewrite length_zero_eqb.
  destruct (tableData w jds) as [|r rows] eqn:E.
  { exfalso. destruct (filter isAnalyzed jds); [now apply Hne | discriminate Hlen]. }
  rewrite <- E. eexists. split; [reflexivity|]. split; [|split].
  - rewrite length_map. apply tableData_length.
  - apply Forall_forall. intros cells Hin. apply in_map_iff in Hin.
    destruct Hin as (row & <- & _). now rewrite length_map.
  - intros i job Hjob. rewrite nth_error_map, tableData_nth, Hjob. cbn [option_map].
    rewrite cells_of_own_keys by apply tableRow_keys. reflexivity.
Qed.

Lemma results_table_shape_witness :
  exists body,
    resultsCard (tableData sample_world (jobDescriptions two_analyzed))
    = ResultsTable columnNames body
    /\ length body = 1.
Proof.
  destruct (results_table_shape sample_world (jobDescriptions two_analyzed))
    as (body & Hcard & Hlen & _); [discriminate|].
  exists body. split; [exact Hcard | exact Hlen].
Defined.

(** ** What the exported text determines *)

Lemma tableData_filenames (w : World) (jds : list JobDescription) :
  map (fun row => prop row "FileName") (tableData w jds)
  = map (fun jd => Some (filename jd)) (filter isAnalyzed jds).
Proof. unfold tableData, mapi. apply map_mapi_from. reflexivity. Qed.

Lemma Row_json_injective (r1 r2 : Row) : Row_json r1 = Row_json r2 -> r1 = r2.
Proof.
  unfold Row_json. intros H. injection H as H. revert r2 H.
  induction r1 as [|[k v] r1 IH]; intros [|[k' v'] r2] H; try discriminate; [reflexivity|].
  cbn in H. injection H as -> -> H. f_equal. now apply IH.
Qed.

Lemma map_Row_json_injective (l1 l2 : list Row) :
  map Row_json l1 = map Row_json l2 -> l1 = l2.
Proof.
  revert l2. induction l1 as [|r1 l1 IH]; intros [|r2 l2] H; try discriminate; [reflexivity|].
  cbn [map] in H. injection H as H1 H2.
  f_equal; [apply Row_json_injective; unfold Row_json; now f_equal | now apply IH].
Qed.

(** X20. The JSON export determines the table: two record sets, in any two
    renders, whose JSON exports are the same text have the same rows, hence
    the same number of analysed records and the same file names in the same
    order. *)
Theorem json_export_determines_table (w1 w2 : World) (jds1 jds2 : list JobDescription) :
  jsonContent (tableData w1 jds1) = jsonContent (tableData w2 jds2) ->
  tableData w1 jds1 = tableData w2 jds2
  /\ map filename (filter isAnalyzed jds1) = map filename (filter isAnalyzed jds2).
Proof.
  intros H.
  assert (Hrows : tableData w1 jds1 = tableData w2 jds2).
  { apply map_Row_json_injective.
    assert (Hp : JSON_parse (jsonContent (tableData w1 jds1))
                 = JSON_parse (jsonContent (tableData w2 jds2))) by now rewrite H.
    rewrite !JSON_parse_jsonContent in Hp.
    - now injection Hp.
    - eapply Forall_impl; [|apply tableData_keys].
      intros row Hrow. cbn beta in Hrow. rewrite Hrow. apply columnNames_NoDup.
    - eapply Forall_impl; [|apply tableData_keys].
      intros row Hrow. cbn beta in Hrow. rewrite Hrow. apply columnNames_NoDup. }
  split; [exact Hrows|].
  pose proof (tableData_filenames w1 jds1) as H1.
  pose proof (tableData_filenames w2 jds2) as H2.
  rewrite Hrows, H2 in H1.
  clear - H1. revert H1. generalize (filter isAnalyzed jds1), (filter isAnalyzed jds2).
  intros l1. induction l1 as [|a l1 IH]; intros [|b l2] H; try discriminate; [reflexivity|].
  cbn in H. injection H as Hab H. cbn. now rewrite Hab, (IH l2).
Qed.

Lemma json_export_determines_table_witness :
  map filename (filter isAnalyzed (jobDescriptions two_analyzed))
  = map filename (filter isAnalyzed [another_analysis]).
Proof.
  refine (proj2 (json_export_determines_table sample_world sample_world
                   (jobDescriptions two_analyzed) [another_analysis] _)).
  vm_compute. reflexivity.
Defined.

Lemma append_assoc (a b c : string) : (a ++ b) ++ c = a ++ (b ++ c).
Proof. induction a as [|x a IH]; simpl; [reflexivity | now rewrite IH]. Qed.

(** A line of the CSV export: the file name between quotes, then the 38
    other cells. *)
Lemma csv_line (today : string) (job : JobDescription) :
  join "," (map (csvCell (tableRow today job)) columnNames)
  = wrap (filename job) ++ csv_tail today.
Proof.
  rewrite (map_ext _ _ (csvCell_wrap (tableRow today job))).
  change (map (fun col => wrap (match prop (tableRow today job) col with
                                | Some v => v
                                | None => EmptyString
                                end)) columnNames)
    with (map wrap (values_of (tableRow today job))).
  rewrite values_of_own_keys by apply tableRow_keys.
  reflexivity.
Qed.

(** X21. The CSV export is ambiguous, because a cell is written between
    quotes as it is: for any two file names there is a third, holding a
    quote, the 38 placeholder cells and a newline, whose single record
    exports exactly the CSV text of the two records. *)
Theorem csv_export_is_ambiguous (w : World) (ja jb jx : JobDescription) :
  status ja = analyzed -> status jb = analyzed -> status jx = analyzed ->
  render_date w 1 = render_date w 0 ->
  filename jx = forged_name (filename ja) (filename jb) (render_date w 0) ->
  csvContent (tableData w [jx]) = csvContent (tableData w [ja; jb])
  /\ length (tableData w [jx]) <> length (tableData w [ja; jb]).
Proof.
  intros Ha Hb Hx Hdate Hname.
  unfold tableData, isAnalyzed. cbn [filter]. rewrite Ha, Hb, Hx. cbn [Status_eqb].
  split; [|cbn; discriminate].
  unfold csvContent, mapi. cbn [mapi_from map].
  fold (render_date w 0). fold (render_date w 1). rewrite Hdate.
  rewrite !csv_line, Hname.
  f_equal. f_equal. cbn [join String.concat].
  unfold forged_name, wrap. rewrite !append_assoc. reflexivity.
Qed.

Lemma csv_export_is_ambiguous_witness :
  csvContent (tableData sample_world
                [analyzed_as (forged_name "a.pdf" "b.pdf" "11/14/2023")])
  = csvContent (tableData sample_world [analyzed_as "a.pdf"; analyzed_as "b.pdf"]).
Proof.
  refine (proj1 (csv_export_is_ambiguous sample_world
                   (analyzed_as "a.pdf") (analyzed_as "b.pdf")
                   (analyzed_as (forged_name "a.pdf" "b.pdf" "11/14/2023"))
                   eq_refl eq_refl eq_refl eq_refl eq_refl)).
Defined.

(** ** Drag events *)

Lemma handleDrag_moves (ty : string) (a b : bool) :
  moves_flag ty = true -> handleDrag ty a = handleDrag ty b.
Proof.
  unfold moves_flag, handleDrag.
  destruct (ty =? "dragenter"), (ty =? "dragover"), (ty =? "dragleave");
    cbn; congruence.
Qed.

Lemma handleDrag_ignores (ty : string) (a : bool) :
  moves_flag ty = false -> handleDrag ty a = a.
Proof.
  unfold moves_flag, handleDrag.
  destruct (ty =? "dragenter"), (ty =? "dragover"), (ty =? "dragleave");
    cbn; congruence.
Qed.

(** X22. The drop zone is highlighted according to the last drag event of
    type dragenter, dragover or dragleave alone: after a sequence of events
    with at least one of them the flag does not depend on what it was
    before, events of other types change nothing, and a drop always clears
    the flag and hands the dropped files to [handleFiles]. *)
Theorem drag_flag_follows_last_event (tys : list string) (w : World) (files : list File) :
  (existsb moves_flag tys = true ->
     forall a b, after_drags tys a = after_drags tys b)
  /\ (existsb moves_flag tys = false -> forall a, after_drags tys a = a)
  /\ (forall a ty, after_drags (tys ++ [ty]) a
                   = if moves_flag ty then handleDrag ty false else after_drags tys a)
  /\ (forall a, handleDrop w files a = (false, handleFiles w files)).
Proof.
  unfold after_drags. split; [|split; [|split]].
  - induction tys as [|ty tys IH]; [discriminate|].
    cbn [existsb fold_left]. intros H a b.
    destruct (existsb moves_flag tys) eqn:E.
    + now apply IH.
    + rewrite orb_false_r in H. now rewrite (handleDrag_moves ty a b H).
  - induction tys as [|ty tys IH]; [reflexivity|].
    cbn [existsb fold_left]. intros H a. apply orb_false_iff in H. destruct H as [H1 H2].
    rewrite (handleDrag_ignores ty a H1). now apply IH.
  - intros a ty. rewrite fold_left_app. cbn [fold_left].
    destruct (moves_flag ty) eqn:E.
    + now apply handleDrag_moves.
    + now apply handleDrag_ignores.
  - reflexivity.
Qed.

(** ** The date in the name of an exported file *)

Lemma no_T_app (a b : string) : no_T (a ++ b) = no_T a && no_T b.
Proof.
  induction a as [|c a IH]; [reflexivity|].
  cbn. rewrite IH. now rewrite andb_assoc.
Qed.

Lemma before_T_app (a b : string) :
  no_T a = true -> before_T (a ++ String "T"%char b) = a.
Proof.
  induction a as [|c a IH]; [reflexivity|].
  cbn [no_T append before_T]. intros H. apply andb_true_iff in H. destruct H as [Hc Ha].
  apply negb_true_iff in Hc. rewrite Hc. now rewrite IH.
Qed.

Lemma no_T_uint (d : Decimal.uint) : no_T (NilEmpty.string_of_uint d) = true.
Proof. induction d; cbn; auto. Qed.

Lemma no_T_Z_toString (z : Z) : no_T (Z_toString z) = true.
Proof.
  unfold Z_toString, NilZero.string_of_int.
  destruct (Z.to_int z) as [d | d]; [|cbn [no_T]; cbn [Ascii.eqb negb andb]];
    unfold NilZero.string_of_uint; destruct d; try reflexivity;
    apply (no_T_uint (_ d)) || apply no_T_uint.
Qed.

Lemma no_T_zeros (n : nat) : no_T (zeros n) = true.
Proof. induction n; cbn; auto. Qed.

Lemma no_T_padded (width : nat) (z : Z) : no_T (padded width z) = true.
Proof. unfold padded. now rewrite no_T_app, no_T_zeros, no_T_Z_toString. Qed.

Lemma before_T_toISOString (t : Z) : before_T (toISOString t) = utc_date t.
Proof.
  unfold toISOString, utc_date.
  destruct (civil_from_days (t / 86400000)) as [[y m] d].
  set (year := if ((0 <=? y) && (y <=? 9999))%Z then padded 4 y
               else (if (y <? 0)%Z then "-" else "+") ++ padded 6 (Z.abs y)).
  assert (Hyear : no_T year = true).
  { subst year. destruct ((0 <=? y) && (y <=? 9999))%Z; [apply no_T_padded|].
    rewrite no_T_app, no_T_padded. now destruct (y <? 0)%Z. }
  match goal with
  | |- before_T (year ++ "-" ++ ?mm ++ "-" ++ ?dd ++ "T" ++ ?rest) = _ =>
      replace (year ++ "-" ++ mm ++ "-" ++ dd ++ "T" ++ rest)
        with ((year ++ "-" ++ mm ++ "-" ++ dd) ++ String "T"%char rest)
        by (rewrite !append_assoc; reflexivity)
  end.
  apply before_T_app.
  rewrite !no_T_app, Hyear, !no_T_padded. reflexivity.
Qed.

(** X23. Every file the three exports hand over is named
    job-analysis-results-, the UTC calendar date of the click as ISO writes
    it (the part of the ISO time stamp before the letter T), and the
    extension: .csv with the CSV media type for the CSV export, .json with
    the JSON media type for the two JSON exports. *)
Theorem export_file_names (c : World) (rows : list Row) (st : State) :
  let named ext media (a : Artifact) :=
    download a = "job-analysis-results-" ++ utc_date (clock c 0) ++ ext
    /\ mime a = media in
  Forall (named ".csv" "text/csv;charset=utf-8;") (downloads (downloadCSV c rows))
  /\ Forall (named ".json" "application/json") (downloads (downloadJSON c rows))
  /\ Forall (named ".json" "application/json")
            (downloads (snd (exec (downloadResults c) st)))
  /\ forall t, before_T (toISOString t) = utc_date t.
Proof.
  intros named. subst named. cbv beta. split; [|split; [|split]].
  - unfold downloadCSV. destruct (length rows =? 0)%nat; [constructor|].
    destruct (link_download_defined c); constructor; [|constructor].
    cbn [download mime]. now rewrite before_T_toISOString.
  - unfold downloadJSON. destruct (length rows =? 0)%nat; [constructor|].
    destruct (link_download_defined c); constructor; [|constructor].
    cbn [download mime]. now rewrite before_T_toISOString.
  - rewrite exec_downloadResults. cbn [snd].
    destruct (downloadDisabled st); constructor; [|constructor].
    cbn [download mime]. now rewrite before_T_toISOString.
  - apply before_T_toISOString.
Qed.

Example export_file_name_of_the_sample :
  map download (downloads (downloadCSV sample_world
                             (tableData sample_world (jobDescriptions two_analyzed))))
  = ["job-analysis-results-2023-11-14.csv"].
Proof. vm_compute. reflexivity. Qed.

(** ** [JSON.parse] after [JSON.stringify], in general *)

Lemma distinct_NoDup (l : list string) : distinct l = true -> NoDup l.
Proof.
  induction l as [|x l IH]; intros H; [constructor|].
  cbn in H. apply andb_true_iff in H. destruct H as [Hx Hl].
  constructor; [|now apply IH].
  intros Hin. apply negb_true_iff in Hx.
  assert (E : existsb (String.eqb x) l = true).
  { apply existsb_exists. exists x. split; [exact Hin | apply String.eqb_refl]. }
  congruence.
Qed.

Lemma blank_app (a b : string) : blank (a ++ b) = blank a && blank b.
Proof.
  induction a as [|c a IH]; [reflexivity|].
  cbn. rewrite IH. now rewrite andb_assoc.
Qed.

Lemma lexes_blank (s : string) : blank s = true -> lexes LStart s [] LStart.
Proof.
  unfold lexes. induction s as [|c s IH]; [reflexivity|].
  cbn [blank]. intros H. apply andb_true_iff in H. destruct H as [Hc Hs].
  apply Ascii.eqb_eq in Hc. subst c. cbn. now rewrite (IH Hs).
Qed.

Lemma lexes_break (indent : string) :
  blank indent = true -> lexes LStart (nl ++ indent) [] LStart.
Proof.
  intros H. apply (lexes_app LStart LStart LStart nl indent [] []);
    [reflexivity | now apply lexes_blank].
Qed.

Lemma lexes_comma_break (indent : string) :
  blank indent = true -> lexes LStart ("," ++ nl ++ indent) [TComma] LStart.
Proof.
  intros H. apply (lexes_app LStart LStart LStart "," (nl ++ indent) [TComma] []);
    [reflexivity | now apply lexes_break].
Qed.

Lemma lexes_join_in {A} (f : A -> string) (g : A -> list token)
  (sep : string) (tsep : list token) (l : list A) :
  lexes LStart sep tsep LStart ->
  Forall (fun x => lexes LStart (f x) (g x) LStart) l ->
  lexes LStart (join sep (map f l)) (sep_tokens tsep (map g l)) LStart.
Proof.
  intros Hsep Hl. induction Hl as [|x l Hx Hl IH]; [reflexivity|].
  destruct l as [|y l]; [exact Hx|].
  change (join sep (map f (x :: y :: l)))
    with (f x ++ sep ++ join sep (map f (y :: l))).
  change (sep_tokens tsep (map g (x :: y :: l)))
    with (g x ++ tsep ++ sep_tokens tsep (map g (y :: l)))%list.
  apply lexes_app with (m1 := LStart); [exact Hx|].
  apply lexes_app with (m1 := LStart); [exact Hsep | exact IH].
Qed.

Lemma stringify_array (indent : string) (x : JSON) (l : list JSON) :
  stringify indent (JArray (x :: l))
  = "[" ++ (nl ++ indent ++ gap)
        ++ join ("," ++ nl ++ indent ++ gap) (map (stringify (indent ++ gap)) (x :: l))
        ++ (nl ++ indent) ++ "]".
Proof. cbn [stringify]. now rewrite !append_assoc. Qed.

Lemma stringify_object (indent : string) (kv : string * JSON) (l : list (string * JSON)) :
  stringify indent (JObject (kv :: l))
  = "{" ++ (nl ++ indent ++ gap)
        ++ join ("," ++ nl ++ indent ++ gap)
             (map (fun kv => QuoteJSONString (fst kv) ++ ": "
                               ++ stringify (indent ++ gap) (snd kv)) (kv :: l))
        ++ (nl ++ indent) ++ "}".
Proof. cbn [stringify]. now rewrite !append_assoc. Qed.

(** The lexer on the text of any value without numbers, at any
    indentation. *)
Lemma lexes_value (v : JSON) :
  number_free v = true ->
  forall indent, blank indent = true ->
    lexes LStart (stringify indent v) (tokens v) LStart.
Proof.
  induction v as [| b | n | s | items IH | members IH] using JSON_induction;
    intros Hfree indent Hblank.
  - reflexivity.
  - destruct b; reflexivity.
  - discriminate Hfree.
  - apply lexes_quoted.
  - destruct items as [|x l]; [reflexivity|].
    assert (Hin : blank (indent ++ gap) = true) by (rewrite blank_app, Hblank; reflexivity).
    rewrite stringify_array. cbn [tokens].
    set (items := x :: l) in *.
    change (TLBracket :: sep_tokens [TComma] (map tokens items) ++ [TRBracket])%list
      with ([TLBracket] ++ [] ++ sep_tokens [TComma] (map tokens items) ++ [] ++ [TRBracket])%list.
    apply lexes_app with (m1 := LStart); [reflexivity|].
    apply lexes_app with (m1 := LStart); [now apply lexes_break|].
    apply lexes_app with (m1 := LStart).
    + apply lexes_join_in; [rewrite <- append_assoc; now apply lexes_comma_break|].
      cbn [number_free] in Hfree. rewrite forallb_forall in Hfree.
      rewrite Forall_forall in IH. apply Forall_forall. intros y Hy.
      apply IH; [exact Hy | now apply Hfree | exact Hin].
    + apply lexes_app with (m1 := LStart); [now apply lexes_break | reflexivity].
  - destruct members as [|kv l]; [reflexivity|].
    assert (Hin : blank (indent ++ gap) = true) by (rewrite blank_app, Hblank; reflexivity).
    rewrite stringify_object. cbn [tokens].
    set (members := kv :: l) in *.
    match goal with
    | |- lexes _ _ (TLBrace :: ?mid ++ [TRBrace])%list _ =>
        change (TLBrace :: mid ++ [TRBrace])%list
          with ([TLBrace] ++ [] ++ mid ++ [] ++ [TRBrace])%list
    end.
    apply lexes_app with (m1 := LStart); [reflexivity|].
    apply lexes_app with (m1 := LStart); [now apply lexes_break|].
    apply lexes_app with (m1 := LStart).
    + apply lexes_join_in; [rewrite <- append_assoc; now apply lexes_comma_break|].
      cbn [number_free] in Hfree. rewrite forallb_forall in Hfree.
      rewrite Forall_forall in IH. apply Forall_forall. intros m Hm.
      apply (lexes_app LStart LStart LStart _ _ [TString (fst m)] (TColon :: tokens (snd m)));
        [apply lexes_quoted|].
      apply (lexes_app LStart LStart LStart ": " _ [TColon] (tokens (snd m)));
        [reflexivity|].
      apply IH; [exact Hm | now apply Hfree | exact Hin].
    + apply lexes_app with (m1 := LStart); [now apply lexes_break | reflexivity].
Qed.

Lemma assign_members_fresh (members : list (string * JSON)) :
  forall done,
    NoDup (map fst done ++ map fst members) ->
    assign_members done members = (done ++ members)%list.
Proof.
  induction members as [|[k v] members IH]; intros done Hnd.
  - cbn. now rewrite app_nil_r.
  - cbn [map fst] in Hnd.
    assert (Hfresh : ~ In k (map fst done)).
    { apply NoDup_remove_2 in Hnd. intros Hin. apply Hnd. apply in_or_app. now left. }
    change (assign_members done ((k, v) :: members))
      with (assign_members (set_member k v done) members).
    rewrite set_member_fresh by exact Hfresh. rewrite IH.
    + now rewrite <- app_assoc.
    + rewrite map_app, <- app_assoc. exact Hnd.
Qed.

Lemma starts_value_step (stk : list frame) (x : expect) (t : token) :
  starts_value stk x -> t <> TRBracket -> parse_step (stk, x) t = open_value stk t.
Proof.
  intros [-> | (-> & done & stk' & ->)] Ht; [reflexivity|].
  destruct t; try reflexivity. congruence.
Qed.

(** The parser on the tokens of any value without a repeated key, wherever
    a value may start: it ends where the value is complete. *)
Lemma parse_value (v : JSON) :
  unique_keys v = true ->
  forall stk x rest,
    starts_value stk x ->
    parse_run (stk, x) (tokens v ++ rest) =
      match close_value stk v with
      | Some st => parse_run st rest
      | None => None
      end.
Proof.
  induction v as [| b | n | s | items IH | members IH] using JSON_induction;
    intros Hkeys stk x rest Hx.
  - cbn [tokens app parse_run]. rewrite starts_value_step by (assumption || discriminate).
    reflexivity.
  - destruct b; cbn [tokens app parse_run];
      rewrite starts_value_step by (assumption || discriminate); reflexivity.
  - cbn [tokens app parse_run]. rewrite starts_value_step by (assumption || discriminate).
    reflexivity.
  - cbn [tokens app parse_run]. rewrite starts_value_step by (assumption || discriminate).
    reflexivity.
  - cbn [tokens]. rewrite <- app_comm_cons. cbn [parse_run].
    rewrite starts_value_step by (assumption || discriminate). cbn [open_value].
    destruct items as [|y l]; [reflexivity|].
    cbn [unique_keys] in Hkeys.
    assert (Hloop : forall its done x',
               its <> [] -> x' = XFirst \/ x' = XValue ->
               Forall (fun v => unique_keys v = true) its ->
               Forall (fun v => forall stk x rest, unique_keys v = true ->
                         starts_value stk x ->
                         parse_run (stk, x) (tokens v ++ rest) =
                           match close_value stk v with
                           | Some st => parse_run st rest
                           | None => None
                           end) its ->
               forall rest',
                 parse_run (FArray done :: stk, x')
                   (sep_tokens [TComma] (map tokens its) ++ rest')
                 = parse_run (FArray (rev its ++ done) :: stk, XNext) rest').
    { intros its. induction its as [|v its IHits]; intros done x' Hne Hx' Hk Hall rest';
        [congruence|].
      inversion Hk as [|v0 l0 Hkv Hkits]; subst.
      inversion Hall as [|v0 l0 Hv Hits]; subst.
      assert (Hs : starts_value (FArray done :: stk) x').
      { destruct Hx' as [-> | ->]; [right; split; [reflexivity | now exists done, stk] | now left]. }
      destruct its as [|v' its].
      - cbn [map sep_tokens]. rewrite (Hv _ x' rest' Hkv Hs). reflexivity.
      - change (sep_tokens [TComma] (map tokens (v :: v' :: its)) ++ rest')%list
          with ((tokens v ++ TComma :: sep_tokens [TComma] (map tokens (v' :: its))) ++ rest')%list.
        rewrite <- app_assoc. rewrite (Hv _ x' _ Hkv Hs).
        cbn [close_value]. rewrite <- app_comm_cons. cbn [parse_run parse_step].
        rewrite IHits; [|discriminate | now right | exact Hkits | exact Hits].
        change (rev (v :: v' :: its)) with (rev (v' :: its) ++ [v])%list.
        now rewrite <- app_assoc. }
    rewrite <- app_assoc. rewrite Hloop.
    + cbn [app parse_run parse_step]. now rewrite app_nil_r, rev_involutive.
    + discriminate.
    + now left.
    + apply Forall_forall. rewrite forallb_forall in Hkeys. exact Hkeys.
    + eapply Forall_impl; [|exact IH]. intros v Hv stk0 x0 rest0 Hk0 Hs0. now apply Hv.
  - cbn [tokens]. rewrite <- app_comm_cons. cbn [parse_run].
    rewrite starts_value_step by (assumption || discriminate). cbn [open_value].
    destruct members as [|m l]; [reflexivity|].
    cbn [unique_keys] in Hkeys. apply andb_true_iff in Hkeys. destruct Hkeys as [Hd Hkeys].
    assert (Hloop : forall ms done x',
               ms <> [] -> x' = XFirst \/ x' = XKey ->
               Forall (fun kv => unique_keys (snd kv) = true) ms ->
               Forall (fun kv => forall stk x rest, unique_keys (snd kv) = true ->
                         starts_value stk x ->
                         parse_run (stk, x) (tokens (snd kv) ++ rest) =
                           match close_value stk (snd kv) with
                           | Some st => parse_run st rest
                           | None => None
                           end) ms ->
               forall rest',
                 parse_run (FObject done None :: stk, x')
                   (sep_tokens [TComma]
                      (map (fun kv => TString (fst kv) :: TColon :: tokens (snd kv)) ms)
                      ++ rest')
                 = parse_run (FObject (assign_members done ms) None :: stk, XNext) rest').
    { intros ms. induction ms as [|kv ms IHms]; intros done x' Hne Hx' Hk Hall rest';
        [congruence|].
      inversion Hk as [|kv0 l0 Hkv Hkms]; subst.
      inversion Hall as [|kv0 l0 Hv Hms]; subst.
      assert (Hkey : parse_step (FObject done None :: stk, x') (TString (fst kv))
                     = Some (FObject done (Some (fst kv)) :: stk, XColon))
        by (destruct Hx' as [-> | ->]; reflexivity).
      destruct ms as [|kv' ms].
      - cbn [map sep_tokens]. rewrite <- !app_comm_cons. cbn [parse_run].
        rewrite Hkey. cbn [parse_step].
        rewrite (Hv _ XValue rest' Hkv (or_introl eq_refl)). reflexivity.
      - match goal with
        | |- parse_run _ (sep_tokens _ (map ?f (kv :: kv' :: ms)) ++ rest')%list = _ =>
            change (sep_tokens [TComma] (map f (kv :: kv' :: ms)) ++ rest')%list
              with ((TString (fst kv) :: TColon :: tokens (snd kv)
                       ++ TComma :: sep_tokens [TComma] (map f (kv' :: ms))) ++ rest')%list
        end.
        rewrite <- !app_comm_cons. cbn [parse_run]. rewrite Hkey. cbn [parse_step].
        rewrite <- app_assoc. rewrite (Hv _ XValue _ Hkv (or_introl eq_refl)).
        cbn [close_value]. rewrite <- app_comm_cons. cbn [parse_run parse_step].
        rewrite IHms; [reflexivity | discriminate | now right | exact Hkms | exact Hms]. }
    rewrite <- app_assoc. rewrite Hloop.
    + cbn [app parse_run parse_step].
      rewrite assign_members_fresh by (cbn [map app]; now apply distinct_NoDup).
      reflexivity.
    + discriminate.
    + now left.
    + apply Forall_forall. rewrite forallb_forall in Hkeys. exact Hkeys.
    + eapply Forall_impl; [|exact IH]. intros kv Hv stk0 x0 rest0 Hk0 Hs0. now apply Hv.
Qed.

(** [JSON.parse] gives back every value without numbers and without
    repeated keys that [JSON.stringify] wrote. *)
Lemma JSON_parse_stringify (v : JSON) :
  number_free v = true -> unique_keys v = true ->
  JSON_parse (JSON_stringify v) = Some v.
Proof.
  intros Hfree Hkeys. unfold JSON_parse, JSON_stringify.
  rewrite (lex_of_run _ _ _ _ (lexes_value v Hfree EmptyString eq_refl)).
  cbn [lex_end option_map]. rewrite app_nil_r. unfold parse_tokens.
  rewrite <- (app_nil_r (tokens v)).
  rewrite (parse_value v Hkeys [] XValue [] (or_introl eq_refl)). reflexivity.
Qed.

(** ** What [JSON.parse] returns has no repeated key *)

Lemma set_member_keys (k : string) (v : JSON) (ms : list (string * JSON)) :
  forall k', In k' (map fst (set_member k v ms)) -> k' = k \/ In k' (map fst ms).
Proof.
  induction ms as [|[k0 v0] ms IH]; intros k' Hin.
  - cbn in Hin. destruct Hin as [<- | []]. now left.
  - cbn [set_member] in Hin. destruct (String.eqb_spec k k0) as [-> | Hne].
    + cbn in Hin |- *. destruct Hin as [<- | Hin]; [now left | right; now right].
    + cbn in Hin |- *. destruct Hin as [<- | Hin]; [right; now left|].
      destruct (IH k' Hin) as [-> | H]; [now left | right; now right].
Qed.

Lemma distinct_iff (l : list string) : distinct l = true <-> NoDup l.
Proof.
  split; [apply distinct_NoDup|].
  induction 1 as [|x l Hx _ IH]; [reflexivity|].
  cbn. rewrite IH, andb_true_r. apply negb_true_iff.
  destruct (existsb (String.eqb x) l) eqn:E; [|reflexivity].
  apply existsb_exists in E. destruct E as (y & Hy & Hxy).
  apply String.eqb_eq in Hxy. subst y. contradiction.
Qed.

Lemma set_member_ok (k : string) (v : JSON) (ms : list (string * JSON)) :
  unique_keys v = true ->
  distinct (map fst ms) && forallb (fun kv => unique_keys (snd kv)) ms = true ->
  distinct (map fst (set_member k v ms))
  && forallb (fun kv => unique_keys (snd kv)) (set_member k v ms) = true.
Proof.
  intros Hv H. apply andb_true_iff in H. destruct H as [Hd Hall].
  apply andb_true_iff. rewrite distinct_iff in *.
  induction ms as [|[k0 v0] ms IH].
  - cbn. split; [repeat constructor; intros [] | now rewrite Hv].
  - cbn [map fst] in Hd. inversion Hd as [|x l Hnotin Hd']; subst.
    cbn [forallb snd] in Hall. apply andb_true_iff in Hall. destruct Hall as [Hv0 Hall].
    cbn [set_member]. destruct (String.eqb_spec k k0) as [-> | Hne].
    + cbn. split; [constructor; assumption | now rewrite Hv, Hall].
    + destruct (IH Hd' Hall) as [IH1 IH2]. cbn [map fst forallb snd]. split.
      * constructor; [|exact IH1]. intros Hin.
        destruct (set_member_keys k v ms k0 Hin) as [-> | H]; [now apply Hne | contradiction].
      * now rewrite Hv0, IH2.
Qed.

Lemma forallb_rev {A} (f : A -> bool) (l : list A) : forallb f (rev l) = forallb f l.
Proof.
  induction l as [|x l IH]; [reflexivity|].
  cbn. rewrite forallb_app, IH. cbn. rewrite andb_true_r. apply andb_comm.
Qed.

Lemma close_value_ok (stk : list frame) (v : JSON) (st : pstate) :
  forallb frame_ok stk = true -> unique_keys v = true ->
  close_value stk v = Some st -> pstate_ok st = true.
Proof.
  intros Hstk Hv H. destruct stk as [|[done | done [k|]] stk]; cbn in H;
    try discriminate H; injection H as <-; unfold pstate_ok; cbn [fst snd forallb].
  - now rewrite Hv.
  - cbn [forallb] in Hstk. apply andb_true_iff in Hstk. destruct Hstk as [Hf Hstk].
    cbn [frame_ok forallb] in *. now rewrite Hv, Hf, Hstk.
  - cbn [forallb] in Hstk. apply andb_true_iff in Hstk. destruct Hstk as [Hf Hstk].
    cbn [frame_ok] in *. now rewrite (set_member_ok k v done Hv Hf), Hstk.
Qed.

Lemma open_value_ok (stk : list frame) (t : token) (st : pstate) :
  forallb frame_ok stk = true -> open_value stk t = Some st -> pstate_ok st = true.
Proof.
  intros Hstk H. destruct t; cbn [open_value] in H; try discriminate H;
    try (eapply close_value_ok; [exact Hstk | | exact H]; reflexivity);
    injection H as <-; unfold pstate_ok; cbn; now rewrite Hstk.
Qed.

Lemma parse_step_ok (st st' : pstate) (t : token) :
  pstate_ok st = true -> parse_step st t = Some st' -> pstate_ok st' = true.
Proof.
  destruct st as [stk x]. unfold pstate_ok at 1. cbn [fst snd]. intros H Hstep.
  apply andb_true_iff in H. destruct H as [Hstk _].
  destruct x; cbn [parse_step] in Hstep.
  - now apply (open_value_ok stk t).
  - destruct stk as [|[done | done key] stk]; [discriminate Hstep| |].
    + destruct t; try (now apply (open_value_ok _ _ _ Hstk Hstep)).
      cbn [forallb] in Hstk. apply andb_true_iff in Hstk. destruct Hstk as [_ Hstk].
      now apply (close_value_ok stk (JArray []) st' Hstk eq_refl).
    + cbn [forallb] in Hstk. apply andb_true_iff in Hstk. destruct Hstk as [Hf Hstk].
      destruct t; try discriminate Hstep.
      * now apply (close_value_ok stk (JObject []) st' Hstk eq_refl).
      * injection Hstep as <-. unfold pstate_ok. cbn [fst snd forallb frame_ok] in *.
        now rewrite Hf, Hstk.
  - destruct stk as [|[done | done key] stk]; try discriminate Hstep.
    destruct t; try discriminate Hstep. injection Hstep as <-.
    cbn [forallb] in Hstk. apply andb_true_iff in Hstk. destruct Hstk as [Hf Hstk].
    unfold pstate_ok. cbn [fst snd forallb frame_ok] in *. now rewrite Hf, Hstk.
  - destruct t; try discriminate Hstep. injection Hstep as <-.
    unfold pstate_ok. cbn [fst snd]. now rewrite Hstk.
  - destruct stk as [|[done | done key] stk]; [discriminate Hstep| |];
      cbn [forallb] in Hstk; apply andb_true_iff in Hstk; destruct Hstk as [Hf Hstk'];
      destruct t; try discriminate Hstep.
    + apply (close_value_ok stk (JArray (rev done)) st' Hstk'); [|exact Hstep].
      cbn [unique_keys]. rewrite forallb_rev. exact Hf.
    + injection Hstep as <-. unfold pstate_ok. cbn [fst snd forallb].
      now rewrite Hf, Hstk'.
    + apply (close_value_ok stk (JObject done) st' Hstk'); [|exact Hstep]. exact Hf.
    + injection Hstep as <-. unfold pstate_ok. cbn [fst snd forallb].
      cbn [frame_ok] in *. now rewrite Hf, Hstk'.
  - discriminate Hstep.
Qed.

Lemma parse_run_ok (ts : list token) :
  forall st st', pstate_ok st = true -> parse_run st ts = Some st' -> pstate_ok st' = true.
Proof.
  induction ts as [|t ts IH]; intros st st' Hok H; cbn [parse_run] in H.
  - now injection H as <-.
  - destruct (parse_step st t) as [st1|] eqn:E; [|discriminate H].
    apply (IH st1 st'); [now apply (parse_step_ok st st1 t) | exact H].
Qed.

Lemma JSON_parse_unique_keys (text : string) (v : JSON) :
  JSON_parse text = Some v -> unique_keys v = true.
Proof.
  unfold JSON_parse, parse_tokens. destruct (lex LStart text) as [ts|]; [|discriminate].
  destruct (parse_run ([], XValue) ts) as [[stk x]|] eqn:E; [|discriminate].
  pose proof (parse_run_ok ts ([], XValue) (stk, x) eq_refl E) as Hok.
  destruct stk; [|discriminate]. destruct x; try discriminate.
  intros H. injection H as <-. unfold pstate_ok in Hok. cbn in Hok. exact Hok.
Qed.

(** ** The file of [downloadResults] read back *)

Lemma reachable_payload_ok (c : Config) :
  reachable c -> Forall payload_ok (jobDescriptions (cstate c)).
Proof.
  intros Hc. apply (reachable_records payload_ok); [| | |exact Hc].
  - intros file url t_id t_at _. exact I.
  - intros jd s H. exact H.
  - intros w i jd H. unfold payload_ok, analyzeOne.
    destruct (extract_result w i (fileUrl jd)) as [extracted|]; [|exact H].
    destruct (generate_result w i (prompt extracted) "gpt-4o-mini") as [text|]; [|exact H].
    destruct (JSON_parse text) as [parsed|] eqn:E; [|exact H].
    cbn. now apply (JSON_parse_unique_keys text).
Qed.

Lemma resultOf_exported (jd : JobDescription) :
  filled jd -> payload_ok jd -> payload_number_free jd = true ->
  exported jd (resultOf jd)
  /\ number_free (resultOf jd) = true
  /\ unique_keys (resultOf jd) = true.
Proof.
  unfold filled, payload_ok, payload_number_free, exported, resultOf.
  intros (Hat & _ & Hres) Hok Hfree.
  destruct (analyzedAt jd) as [analyzed_at|]; [|congruence].
  destruct (analysisResults jd) as [payload|]; [|congruence].
  cbn [optional option_map app]. split; [|split].
  - now exists analyzed_at, payload.
  - cbn. now rewrite Hfree.
  - cbn. now rewrite Hok.
Qed.

(** X24. In every reachable state with an analysed record whose payloads
    hold no number, [downloadResults] leaves the state as it is, hands over
    one file and announces it, and parsing the bytes of the file yields one
    object per analysed record, in order, with exactly the keys filename,
    uploadedAt, analyzedAt and analysis, holding the record's file name, its
    two time stamps and its payload as it was parsed from the inference. *)
Theorem downloaded_results_read_back (c : Config) (w : World) :
  reachable c ->
  filter isAnalyzed (jobDescriptions (cstate c)) <> [] ->
  forallb payload_number_free (filter isAnalyzed (jobDescriptions (cstate c))) = true ->
  exists a objects,
    exec (downloadResults w) (cstate c)
    = (cstate c, [EDownload a; EToast resultsDownloaded])
    /\ JSON_parse (content a) = Some (JArray objects)
    /\ Forall2 exported (filter isAnalyzed (jobDescriptions (cstate c))) objects.
Proof.
  intros Hc Hne Hfree.
  pose proof (proj1 (reachable_inv c Hc)) as Hinv.
  pose proof (reachable_payload_ok c Hc) as Hok.
  rewrite exec_downloadResults. unfold downloadDisabled. rewrite length_zero_eqb.
  set (analyzedJobs := filter isAnalyzed (jobDescriptions (cstate c))) in *.
  assert (Hall : Forall (fun jd => exported jd (resultOf jd)
                                   /\ number_free (resultOf jd) = true
                                   /\ unique_keys (resultOf jd) = true) analyzedJobs).
  { apply Forall_forall. intros jd Hin. apply resultOf_exported.
    - subst analyzedJobs. apply filter_In in Hin. destruct Hin as [Hin Han].
      rewrite Forall_forall in Hinv. destruct (Hinv jd Hin) as (_ & Hfilled & _).
      apply Hfilled. unfold isAnalyzed in Han. now destruct (status jd).
    - subst analyzedJobs. apply filter_In in Hin. rewrite Forall_forall in Hok.
      now apply Hok.
    - rewrite forallb_forall in Hfree. now apply Hfree. }
  destruct analyzedJobs as [|jd0 l0] eqn:E; [congruence|]. rewrite <- E in *.
  eexists. exists (map resultOf analyzedJobs). split; [reflexivity|]. cbn [content].
  split.
  - apply JSON_parse_stringify; cbn [number_free unique_keys]; rewrite forallb_forall;
      intros o Ho; apply in_map_iff in Ho; destruct Ho as (jd & <- & Hin);
      rewrite Forall_forall in Hall; now destruct (Hall jd Hin) as (_ & H1 & H2).
  - clear - Hall. induction Hall as [|jd l (Hjd & _) _ IH]; cbn; constructor; assumption.
Qed.

Lemma reachable_c_analyzed : reachable c_analyzed.
Proof.
  assert (R1 : reachable c_uploaded).
  { apply (reachable_step boot); [apply reachable_boot|].
    apply (step_uploadFile boot sample_world pdf_file). reflexivity. }
  assert (R2 : reachable c_running).
  { apply (reachable_step c_uploaded); [exact R1|].
    apply (step_begin c_uploaded). discriminate. }
  apply (reachable_step c_running); [exact R2|].
  apply (step_settle c_running sample_world [] [] (jobDescriptions (cstate c_uploaded))).
  reflexivity.
Qed.

Lemma downloaded_results_read_back_witness :
  exists a,
    downloads (snd (exec (downloadResults sample_world) (cstate c_analyzed))) = [a]
    /\ JSON_parse (content a)
       = Some (JArray [JObject [("filename", JString "engineer.pdf");
                                ("uploadedAt", JString "2023-11-14T22:13:20.000Z");
                                ("analyzedAt", JString "2023-11-14T22:14:20.000Z");
                                ("analysis", JObject [])]]).
Proof.
  destruct (downloaded_results_read_back c_analyzed sample_world reachable_c_analyzed)
    as (a & objects & Hrun & Hparse & Hobjects).
  - discriminate.
  - reflexivity.
  - exists a. split; [now rewrite Hrun|]. rewrite Hparse. f_equal. f_equal.
    inversion Hobjects as [|jd o l l' (at_ & payload & Hat & Hres & ->) Hnil]; subst.
    inversion Hnil; subst.
    vm_compute in Hat, Hres. injection Hat as <-. injection Hres as <-. reflexivity.
Defined.

(** ** Ids when the clock moves *)

Lemma norm_not_nil (d : Decimal.signed_int) :
  Decimal.norm d <> Decimal.Pos Decimal.Nil /\ Decimal.norm d <> Decimal.Neg Decimal.Nil.
Proof.
  destruct d as [d | d]; cbn.
  - unfold Decimal.unorm. destruct (Decimal.nzhead d); split; discriminate.
  - destruct (Decimal.nzhead d); split; discriminate.
Qed.

Lemma Z_toString_injective (a b : Z) : Z_toString a = Z_toString b -> a = b.
Proof.
  unfold Z_toString. intros H.
  assert (Hn : forall z, Z.to_int z = Decimal.norm (Z.to_int z)).
  { intros z. rewrite <- (DecimalZ.of_to z) at 1. apply DecimalZ.to_of. }
  assert (Hi : forall z, NilZero.int_of_string (NilZero.string_of_int (Z.to_int z))
                         = Some (Z.to_int z)).
  { intros z. apply NilZero.isi; rewrite (Hn z); apply norm_not_nil. }
  apply DecimalZ.to_int_inj.
  pose proof (Hi a) as Ha. rewrite H, Hi in Ha. now injection Ha.
Qed.

Lemma NoDup_map_injective {A B} (f : A -> B) (l : list A) :
  (forall x y, f x = f y -> x = y) -> NoDup l -> NoDup (map f l).
Proof.
  intros Hf. induction 1 as [|x l Hx _ IH]; cbn; constructor; [|exact IH].
  intros Hin. apply in_map_iff in Hin. destruct Hin as (y & Hy & Hin).
  apply Hf in Hy. now subst y.
Qed.

Lemma upload_loop_ids (w : World) (fs : list File) :
  forall s : Sys,
    let s' := snd (forEach fs (uploadFile w) s) in
    exists news ns,
      state s' = update_jobDescriptions (fun prev => (prev ++ news)%list) (state s)
      /\ map id news = map (fun n => Z_toString (clock w n)) ns
      /\ Forall (fun n => calls s <= n) ns
      /\ NoDup ns.
Proof.
  induction fs as [|file fs IH]; intros s; cbn zeta.
  - exists [], []. split; [|split; [|split]]; try constructor.
    cbn. unfold update_jobDescriptions. destruct (state s); cbn. now rewrite app_nil_r.
  - rewrite forEach_cons.
    destruct (IH (snd (uploadFile w file s))) as (news & ns & Hst & Hids & Hge & Hnd).
    cbn zeta in Hst. rewrite Hst. rewrite uploadFile_run in Hge |- *.
    destruct (upload_result w (S (calls s)) file (upload_path w (calls s) file)) as [url|];
      cbn [state calls] in *.
    + exists (newJobDescription file url (clock w (S (S (calls s))))
                (clock w (S (S (S (calls s))))) :: news), (S (S (calls s)) :: ns).
      split; [|split; [|split]].
      * unfold update_jobDescriptions. cbn. now rewrite <- app_assoc.
      * cbn. now rewrite Hids.
      * constructor; [lia|]. eapply Forall_impl; [|exact Hge]. cbn. intros n Hn. lia.
      * constructor; [|exact Hnd]. intros Hin. rewrite Forall_forall in Hge.
        specialize (Hge _ Hin). cbn in Hge. lia.
    + exists news, ns. split; [|split; [|split]].
      * reflexivity.
      * exact Hids.
      * eapply Forall_impl; [|exact Hge]. cbn. intros n Hn. lia.
      * exact Hnd.
Qed.

(** X25. When no two readings of the clock coincide during a batch, the
    records the batch adds get pairwise distinct ids; if moreover the ids of
    the records already there are distinct and none of them is a reading of
    this batch, all ids of the working set stay distinct. *)
Theorem distinct_readings_give_distinct_ids (w : World) (files : list File) (st : State) :
  (forall m n, clock w m = clock w n -> m = n) ->
  exists news,
    jobDescriptions (fst (exec (handleFiles w files) st)) = (jobDescriptions st ++ news)%list
    /\ NoDup (map id news)
    /\ (NoDup (map id (jobDescriptions st)) ->
        (forall jd n, In jd (jobDescriptions st) -> id jd <> Z_toString (clock w n)) ->
        NoDup (map id (jobDescriptions (fst (exec (handleFiles w files) st))))).
Proof.
  intros Hinj. destruct (filter isAccepted files) as [|f0 fs] eqn:E.
  - exists []. unfold exec, handleFiles. rewrite E. cbn. rewrite app_nil_r.
    split; [reflexivity|]. split; [constructor | tauto].
  - rewrite (exec_handleFiles_accepted w files f0 fs st E). cbn zeta. cbn [fst].
    match goal with
    | |- context [forEach (f0 :: fs) (uploadFile w) ?s0] =>
        destruct (upload_loop_ids w (f0 :: fs) s0) as (news & ns & Hst & Hids & _ & Hnd)
    end.
    cbn zeta in Hst. rewrite Hst. cbn [jobDescriptions update_jobDescriptions state].
    exists news. split; [reflexivity|].
    assert (Hnews : NoDup (map id news)).
    { rewrite Hids. apply NoDup_map_injective; [|exact Hnd].
      intros m n H. apply Hinj. now apply Z_toString_injective. }
    split; [exact Hnews|].
    intros Hold Hfresh. rewrite map_app. apply NoDup_app; [exact Hold | exact Hnews |].
    intros i Hi Hi'. apply in_map_iff in Hi. destruct Hi as (jd & <- & Hjd).
    rewrite Hids in Hi'. apply in_map_iff in Hi'. destruct Hi' as (n & Hn & _).
    now apply (Hfresh jd n Hjd).
Qed.

Lemma distinct_readings_give_distinct_ids_witness :
  NoDup (map id (jobDescriptions
                   (fst (exec (handleFiles ticking_world [pdf_file; png_file; doc_file])
                              initial)))).
Proof.
  destruct (distinct_readings_give_distinct_ids ticking_world
              [pdf_file; png_file; doc_file] initial) as (news & _ & _ & H).
  - intros m n H.
    change ((1700000000000 + Z.of_nat m)%Z = (1700000000000 + Z.of_nat n)%Z) in H. lia.
  - apply H; [constructor | intros jd n []].
Defined.
